(** * MnCraftCore License API: a shallow embedding of [server.js]

    The repository ships two versions of [server.js]: a reduced one (a single
    [licenses] table with an [active] flag) and an extended one (licenses,
    per-license server bindings and an action log).  Each request handler is
    a short sequence of SQL statements sent through [pool.query]; a failed
    statement throws and the handler's [try]/[catch] turns it into an HTTP
    500.  The embedding keeps exactly that structure:

    - a table is the list of its rows, in insertion order;
    - a statement is a function from the database to an error message or a
      result and a new database;
    - handlers run in a state-and-exception monad over the database and the
      number of statements issued so far;
    - everything the handlers cannot control (storage errors other than the
      constraints of the schema, the database clock, the wall clock, the
      entropy source, the environment) is an explicit input. *)

From Stdlib Require Import String Ascii List ZArith Bool Lia Strings.Byte.
From Stdlib Require Import DecimalString.
From Stdlib Require Import Sorting.Permutation Sorting.Sorted.
Import ListNotations.

Set Warnings "-register-all".

Open Scope string_scope.
Open Scope Z_scope.

(** ** JavaScript values that reach a response body *)

Inductive jsval : Type :=
| JNull
| JBool (b : bool)
| JNum (n : Z)
| JStr (s : string)
| JDate (ms : Z)
| JArr (items : list jsval)
| JObj (fields : list (string * jsval)).

(** [res.status(c).json(o)]; a bare [res.json(o)] answers with 200. *)
Record response : Type := { status_code : Z; body : jsval }.

Definition json (c : Z) (fields : list (string * jsval)) : response :=
  {| status_code := c; body := JObj fields |}.

Fixpoint assoc (k : string) (fields : list (string * jsval)) : option jsval :=
  match fields with
  | [] => None
  | (k', v) :: rest => if String.eqb k k' then Some v else assoc k rest
  end.

(** The field [k] of a response body, when the body is an object. *)
Definition field (k : string) (r : response) : option jsval :=
  match body r with
  | JObj fields => assoc k fields
  | _ => None
  end.

(** ** Truthiness and [||]

    Request fields and nullable columns are [option]s: [None] is
    [undefined]/[null]/SQL [NULL].  [!x] is [negb (truthy x)]. *)

Class Truthy (A : Type) : Type := truthy : A -> bool.

#[global] Instance truthy_string : Truthy string :=
  fun s => negb (String.eqb s "").
#[global] Instance truthy_Z : Truthy Z :=
  fun n => negb (Z.eqb n 0).
#[global] Instance truthy_bool : Truthy bool :=
  fun b => b.
#[global] Instance truthy_option {A} `{Truthy A} : Truthy (option A) :=
  fun o => match o with Some a => truthy a | None => false end.

(** [x || d] where [d] is a plain default. *)
Definition js_or {A} `{Truthy A} (x : option A) (d : A) : A :=
  match x with
  | Some a => if truthy a then a else d
  | None => d
  end.

(** [x || null]. *)
Definition js_or_null {A} `{Truthy A} (x : option A) : option A :=
  if truthy x then x else None.

(** A value spliced into a template literal; [missing] is how the absent
    value prints: ["null"] for a [NULL] column, ["undefined"] for a field the
    request does not have. *)
Definition template (missing : string) (o : option string) : string :=
  match o with Some s => s | None => missing end.

Definition js_string (o : option string) : jsval :=
  match o with Some s => JStr s | None => JNull end.

Definition js_date (o : option Z) : jsval :=
  match o with Some t => JDate t | None => JNull end.

Definition js_num (o : option Z) : jsval :=
  match o with Some n => JNum n | None => JNull end.

Definition js_bool (o : option bool) : jsval :=
  match o with Some b => JBool b | None => JNull end.

(** ** SQL comparison with [NULL]: a comparison with [NULL] selects nothing *)

Definition sql_eq (col param : option string) : bool :=
  match col, param with
  | Some a, Some b => String.eqb a b
  | _, _ => false
  end.

(** ** The connection pool

    [fault n] is the error (if any) with which the storage rejects the
    [n]-th statement for a reason outside the model: a lost connection, a
    value too long for its column, a number out of range, a date it cannot
    read.
    [CURRENT_TIMESTAMP n] is the database clock seen by that statement.
    [nextval n] is the value the sequence of a [SERIAL] column hands to that
    statement; a sequence hands out no value twice, so the primary key it
    feeds is never violated. *)

Record oracle : Type := {
  fault : nat -> option string;
  CURRENT_TIMESTAMP : nat -> Z;
  nextval : nat -> Z
}.

Definition healthy (o : oracle) : Prop := forall n, fault o n = None.

Inductive outcome (A : Type) : Type :=
| Ok (a : A)
| Throw (message : string).
Arguments Ok {A} a.
Arguments Throw {A} message.

Section Pool.
Context {DB : Type}.

(** The persisted state and the number of statements sent so far. *)
Record world : Type := { db : DB; issued : nat }.

Definition M (A : Type) : Type := world -> outcome A * world.

Definition ret {A} (a : A) : M A := fun w => (Ok a, w).

Definition bind {A B} (m : M A) (k : A -> M B) : M B :=
  fun w =>
    match m w with
    | (Ok a, w') => k a w'
    | (Throw e, w') => (Throw e, w')
    end.

(** [try { m } catch (err) { h err }] *)
Definition try_catch {A} (m : M A) (h : string -> M A) : M A :=
  fun w =>
    match m w with
    | (Ok a, w') => (Ok a, w')
    | (Throw e, w') => h e w'
    end.

(** A statement reads the database clock and the database. *)
Definition statement (A : Type) : Type := Z -> DB -> string + (A * DB).

(** [await pool.query(...)]: a rejected statement changes nothing. *)
Definition pool_query {A} (o : oracle) (q : statement A) : M A :=
  fun w =>
    let n := issued w in
    match fault o n with
    | Some e => (Throw e, {| db := db w; issued := S n |})
    | None =>
        match q (CURRENT_TIMESTAMP o n) (db w) with
        | inr (a, d) => (Ok a, {| db := d; issued := S n |})
        | inl e => (Throw e, {| db := db w; issued := S n |})
        end
    end.

(** [await pool.query(...)] of an [INSERT] whose row takes its [id] from a
    sequence. *)
Definition pool_query_serial {A} (o : oracle) (q : Z -> statement A) : M A :=
  fun w => pool_query o (q (nextval o (issued w))) w.
End Pool.

Arguments world : clear implicits.
Arguments M : clear implicits.
Arguments statement : clear implicits.

Declare Scope pool_scope.
Delimit Scope pool_scope with pool.
Notation "x <- m ;; k" := (bind m (fun x => k))
  (at level 61, m at next level, right associativity) : pool_scope.
Notation "m ;;; k" := (bind m (fun _ => k))
  (at level 61, right associativity) : pool_scope.

(** PostgreSQL's own messages are not in the source; these stand for them. *)
Definition unique_violation : string :=
  "duplicate key value violates unique constraint".
Definition not_null_violation : string :=
  "null value violates not-null constraint".
Definition foreign_key_violation : string :=
  "insert violates foreign key constraint".

(** ** [Buffer.toString('hex')] and [String.toUpperCase] *)

Definition hex_digit (n : N) : ascii :=
  ascii_of_N (if (n <? 10)%N then 48 + n else 87 + n)%N.

Definition hex_of_byte (b : byte) : string :=
  let n := Byte.to_N b in
  String (hex_digit (n / 16)) (String (hex_digit (n mod 16)) EmptyString).

Fixpoint toString_hex (buf : list byte) : string :=
  match buf with
  | [] => EmptyString
  | b :: rest => hex_of_byte b ++ toString_hex rest
  end.

Definition upper_ascii (c : ascii) : ascii :=
  let n := N_of_ascii c in
  if ((97 <=? n) && (n <=? 122))%N then ascii_of_N (n - 32) else c.

Fixpoint toUpperCase (s : string) : string :=
  match s with
  | EmptyString => EmptyString
  | String c rest => String (upper_ascii c) (toUpperCase rest)
  end.

(** [0-9A-F] *)
Definition upper_hex (c : ascii) : bool :=
  let n := N_of_ascii c in
  (((48 <=? n) && (n <=? 57)) || ((65 <=? n) && (n <=? 70)))%N.

(** ** [ORDER BY column DESC] on a nullable timestamp

    [NULL] sorts first in descending order; rows with equal timestamps keep
    their order of insertion (the storage is free to choose there). *)

Definition not_older (a b : option Z) : bool :=
  match a, b with
  | None, _ => true
  | Some _, None => false
  | Some x, Some y => y <=? x
  end.

Fixpoint insert_desc_by {A} (col : A -> option Z) (x : A) (sorted : list A)
  : list A :=
  match sorted with
  | [] => [x]
  | y :: rest =>
      if not_older (col y) (col x) then y :: insert_desc_by col x rest
      else x :: y :: rest
  end.

Definition order_desc {A} (col : A -> option Z) (rows : list A) : list A :=
  fold_left (fun acc x => insert_desc_by col x acc) rows [].

(** * The reduced server: one [licenses] table with an [active] flag *)

Module Simple.

(** [CREATE TABLE licenses (id SERIAL PRIMARY KEY, license_key TEXT UNIQUE NOT
    NULL, active BOOLEAN DEFAULT true, created_at TIMESTAMP DEFAULT
    CURRENT_TIMESTAMP)].  No handler reads [id]; it is left out. *)
Module License.
Record row : Type := {
  license_key : string;
  active : option bool;
  created_at : option Z
}.
End License.

Record database : Type := { licenses : list License.row }.

Definition stored_keys (d : database) : list string :=
  map License.license_key (licenses d).

(** [req.body] *)
Module Body.
Record t : Type := { license_key : option string }.
End Body.

(** What a request finds around it: the pool and [crypto]'s entropy. *)
Record env : Type := { pool : oracle; entropy : nat -> byte }.

(** [crypto.randomBytes(n)] *)
Definition randomBytes (e : env) (n : nat) : list byte :=
  map (entropy e) (seq 0 n).

Definition has_key (k : string) (l : License.row) : bool :=
  String.eqb (License.license_key l) k.

(** [INSERT INTO licenses (license_key, active) VALUES ($1, true)] *)
Definition INSERT_license (key : string) : statement database unit :=
  fun now d =>
    if existsb (has_key key) (licenses d) then inl unique_violation
    else inr (tt, {| licenses := licenses d ++
                       [{| License.license_key := key;
                           License.active := Some true;
                           License.created_at := Some now |}] |}).

(** [SELECT * FROM licenses WHERE license_key = $1] *)
Definition SELECT_license (key : option string)
  : statement database (list License.row) :=
  fun _ d =>
    inr (filter (fun l => sql_eq (Some (License.license_key l)) key)
           (licenses d), d).

Definition set_active (a : bool) (key : option string) (l : License.row)
  : License.row :=
  if sql_eq (Some (License.license_key l)) key
  then {| License.license_key := License.license_key l;
          License.active := Some a;
          License.created_at := License.created_at l |}
  else l.

(** [UPDATE licenses SET active = a WHERE license_key = $1] *)
Definition UPDATE_active (a : bool) (key : option string)
  : statement database unit :=
  fun _ d => inr (tt, {| licenses := map (set_active a key) (licenses d) |}).

(** The key [GET /api/generate-key] draws. *)
Definition fresh_key (e : env) : string :=
  toUpperCase (toString_hex (randomBytes e 16)).

(** [app.get('/api/generate-key')] *)
Definition generate_key (e : env) : M database response :=
  try_catch
    (let key := fresh_key e in
     pool_query (pool e) (INSERT_license key) ;;;
     ret (json 200 [("license_key", JStr key);
                    ("message", JStr "Klucz zapisany w bazie danych")]))%pool
    (fun err =>
       ret (json 500 [("error", JStr err);
                      ("hint", JStr "Sprawdź czy tabela licenses istnieje")])).

(** [app.post('/api/verify')] *)
Definition verify (e : env) (b : Body.t) : M database response :=
  try_catch
    (let license_key := Body.license_key b in
     if negb (truthy license_key) then
       ret (json 200 [("valid", JBool false);
                      ("message", JStr "Brak klucza licencji")])
     else
       result <- pool_query (pool e) (SELECT_license license_key) ;;
       match result with
       | [] =>
           ret (json 200 [("valid", JBool false);
                          ("message", JStr "Licencja nie istnieje w systemie")])
       | license :: _ =>
           if negb (truthy (License.active license)) then
             ret (json 200 [("valid", JBool false);
                            ("message", JStr "Licencja została dezaktywowana")])
           else
             ret (json 200 [("valid", JBool true);
                            ("message", JStr "Licencja aktywna");
                            ("license_key",
                             JStr (License.license_key license))])
       end)%pool
    (fun err =>
       ret (json 500 [("valid", JBool false);
                      ("message", JStr ("Błąd serwera: " ++ err))])).

(** [app.post('/api/deactivate')] and [app.post('/api/activate')] *)
Definition set_license_active (a : bool) (done : string)
    (e : env) (b : Body.t) : M database response :=
  try_catch
    (let license_key := Body.license_key b in
     if negb (truthy license_key) then
       ret (json 400 [("error", JStr "Brak klucza licencji")])
     else
       pool_query (pool e) (UPDATE_active a license_key) ;;;
       ret (json 200 [("message", JStr done)]))%pool
    (fun err => ret (json 500 [("error", JStr err)])).

Definition deactivate : env -> Body.t -> M database response :=
  set_license_active false "Licencja dezaktywowana".

Definition activate : env -> Body.t -> M database response :=
  set_license_active true "Licencja reaktywowana".

(** [SELECT license_key, active, created_at FROM licenses ORDER BY created_at
    DESC] *)
Definition SELECT_licenses : statement database (list License.row) :=
  fun _ d => inr (order_desc License.created_at (licenses d), d).

Definition listed (l : License.row) : jsval :=
  JObj [("license_key", JStr (License.license_key l));
        ("active", js_bool (License.active l));
        ("created_at", js_date (License.created_at l))].

(** [app.get('/api/licenses')]: the body is the array of rows. *)
Definition list_licenses (e : env) : M database response :=
  try_catch
    (result <- pool_query (pool e) SELECT_licenses ;;
     ret {| status_code := 200; body := JArr (map listed result) |})%pool
    (fun err => ret (json 500 [("error", JStr err)])).

(** [DELETE FROM licenses WHERE license_key = $1]; the value is
    [result.rowCount]. *)
Definition DELETE_license (key : string) : statement database nat :=
  fun _ d =>
    inr (length (filter (has_key key) (licenses d)),
         {| licenses := filter (fun l => negb (has_key key l)) (licenses d) |}).

(** [app.delete('/api/licenses/:key')]; [req.params.key] is always a string. *)
Definition delete_license (e : env) (key : string) : M database response :=
  try_catch
    (rowCount <- pool_query (pool e) (DELETE_license key) ;;
     if Nat.eqb rowCount 0 then
       ret (json 404 [("error", JStr "Licencja nie istnieje")])
     else
       ret (json 200 [("message", JStr "Licencja usunięta")]))%pool
    (fun err => ret (json 500 [("error", JStr err)])).

(** [SELECT NOW()] *)
Definition SELECT_NOW : statement database Z := fun now d => inr (now, d).

(** [app.get('/health')] *)
Definition health (e : env) : M database response :=
  try_catch
    (result <- pool_query (pool e) SELECT_NOW ;;
     ret (json 200 [("status", JStr "healthy");
                    ("database", JStr "connected");
                    ("time", JDate result)]))%pool
    (fun err =>
       ret (json 500 [("status", JStr "unhealthy"); ("error", JStr err)])).

End Simple.

(** * The extended server: licenses, server bindings and the action log *)

Module Extended.

(** [licenses]: [license_key VARCHAR(255) UNIQUE NOT NULL], [owner ... NOT
    NULL], [status ... DEFAULT 'ACTIVE'], [created_at ... DEFAULT
    CURRENT_TIMESTAMP], [max_servers INTEGER DEFAULT 1]; the other columns
    are nullable without default.  Timestamps are milliseconds, as a
    JavaScript [Date] holds them.  [id SERIAL PRIMARY KEY] is part of every
    row [SELECT l.*] returns; the [id] columns of [license_servers] and
    [license_logs] are returned by no query and left out. *)
Module License.
Record row : Type := {
  id : Z;
  license_key : string;
  owner : string;
  email : option string;
  status : option string;
  created_at : option Z;
  expires_at : option Z;
  max_servers : option Z;
  last_check : option Z;
  reason : option string
}.

Definition set_status (s : option string) (l : row) : row :=
  {| id := id l;
     license_key := license_key l; owner := owner l; email := email l;
     status := s; created_at := created_at l; expires_at := expires_at l;
     max_servers := max_servers l; last_check := last_check l;
     reason := reason l |}.

Definition set_reason (r : option string) (l : row) : row :=
  {| id := id l;
     license_key := license_key l; owner := owner l; email := email l;
     status := status l; created_at := created_at l;
     expires_at := expires_at l; max_servers := max_servers l;
     last_check := last_check l; reason := r |}.

Definition set_last_check (t : option Z) (l : row) : row :=
  {| id := id l;
     license_key := license_key l; owner := owner l; email := email l;
     status := status l; created_at := created_at l;
     expires_at := expires_at l; max_servers := max_servers l;
     last_check := t; reason := reason l |}.
End License.

(** [license_servers]: [license_key ... REFERENCES licenses(license_key)],
    [server_id ... NOT NULL], [UNIQUE(license_key, server_id)]. *)
Module Server.
Record row : Type := {
  license_key : option string;
  server_id : string;
  server_ip : option string;
  server_port : option Z;
  plugin_version : option string;
  minecraft_version : option string;
  online_players : option Z;
  max_players : option Z;
  last_seen : option Z
}.
End Server.

(** [license_logs] *)
Module Log.
Record row : Type := {
  license_key : option string;
  action : option string;
  details : option string;
  timestamp : option Z
}.
End Log.

Record database : Type := {
  licenses : list License.row;
  license_servers : list Server.row;
  license_logs : list Log.row
}.

(** A date as a request carries it: the text as sent, which is what [||]
    tests, and the instant the storage reads from it (a text it cannot read
    is one of the oracle's storage errors). *)
Module DateText.
Record t : Type := { text : string; instant : Z }.
End DateText.

#[global] Instance truthy_date : Truthy DateText.t :=
  fun d => truthy (DateText.text d).

(** [req.body]: the fields the handlers destructure, with the types the
    schema gives their columns; an absent (or [null]) field is [None]. *)
Module Body.
Record t : Type := {
  license_key : option string;
  server_id : option string;
  server_ip : option string;
  server_port : option Z;
  plugin_version : option string;
  minecraft_version : option string;
  online_players : option Z;
  max_players : option Z;
  owner : option string;
  email : option string;
  expires_at : option DateText.t;
  max_servers : option Z;
  reason : option string
}.
End Body.

(** A request: [req.headers['x-admin-key']] and [req.body]. *)
Module Req.
Record t : Type := { x_admin_key : option string; body : Body.t }.
End Req.

(** The pool, [process.env.ADMIN_KEY] and the value of [new Date()]. *)
Record env : Type := {
  pool : oracle;
  ADMIN_KEY : option string;
  Date_now : Z
}.

(** [a === b] and [a !== b] on values that are a string or [undefined]. *)
Definition strict_eq (a b : option string) : bool :=
  match a, b with
  | Some x, Some y => String.eqb x y
  | None, None => true
  | _, _ => false
  end.

Definition strict_ne (a b : option string) : bool := negb (strict_eq a b).

(** [ToNumber]: [null] counts as 0 in a numeric comparison. *)
Definition ToNumber (n : option Z) : Z :=
  match n with Some z => z | None => 0 end.

(** [license.expires_at && new Date(license.expires_at) < new Date()] *)
Definition overdue (e : env) (l : License.row) : bool :=
  match License.expires_at l with
  | Some t => t <? Date_now e
  | None => false
  end.

(** [!license.expires_at || new Date(license.expires_at) > new Date()] *)
Definition not_yet_expired (e : env) (l : License.row) : bool :=
  match License.expires_at l with
  | Some t => t >? Date_now e
  | None => true
  end.

Definition has_key (key : option string) (l : License.row) : bool :=
  sql_eq (Some (License.license_key l)) key.

Definition bound_to (key : option string) (s : Server.row) : bool :=
  sql_eq (Server.license_key s) key.

Definition is_binding (key sid : option string) (s : Server.row) : bool :=
  sql_eq (Server.license_key s) key && sql_eq (Some (Server.server_id s)) sid.

(** [SELECT * FROM licenses WHERE license_key = $1]; the projection
    [SELECT status, reason, expires_at ...] of [/api/license/check] selects
    the same rows. *)
Definition SELECT_license (key : option string)
  : statement database (list License.row) :=
  fun _ d => inr (filter (has_key key) (licenses d), d).

Definition update_licenses (key : option string)
    (f : License.row -> License.row) (d : database) : database :=
  {| licenses := map (fun l => if has_key key l then f l else l) (licenses d);
     license_servers := license_servers d;
     license_logs := license_logs d |}.

(** [UPDATE licenses SET status = $1 WHERE license_key = $2] *)
Definition UPDATE_status (s : string) (key : option string)
  : statement database unit :=
  fun _ d => inr (tt, update_licenses key (License.set_status (Some s)) d).

(** [UPDATE licenses SET status = $1, reason = $2 WHERE license_key = $3] *)
Definition UPDATE_status_reason (s r : string) (key : option string)
  : statement database unit :=
  fun _ d =>
    inr (tt, update_licenses key
               (fun l => License.set_reason (Some r)
                           (License.set_status (Some s) l)) d).

(** [UPDATE licenses SET last_check = CURRENT_TIMESTAMP WHERE license_key = $1] *)
Definition UPDATE_last_check (key : option string)
  : statement database unit :=
  fun now d =>
    inr (tt, update_licenses key (License.set_last_check (Some now)) d).

(** [SELECT COUNT( * ) FROM license_servers WHERE license_key = $1]; the
    driver hands the count over as decimal text and [parseInt] reads the
    number back. *)
Definition COUNT_servers (key : option string) : statement database Z :=
  fun _ d =>
    inr (Z.of_nat (length (filter (bound_to key) (license_servers d))), d).

(** [SELECT * FROM license_servers WHERE license_key = $1 AND server_id = $2] *)
Definition SELECT_server (key sid : option string)
  : statement database (list Server.row) :=
  fun _ d => inr (filter (is_binding key sid) (license_servers d), d).

Definition refresh (now : Z) (b : Body.t) (s : Server.row) : Server.row :=
  {| Server.license_key := Server.license_key s;
     Server.server_id := Server.server_id s;
     Server.server_ip := Body.server_ip b;
     Server.server_port := Body.server_port b;
     Server.plugin_version := Body.plugin_version b;
     Server.minecraft_version := Body.minecraft_version b;
     Server.online_players := Body.online_players b;
     Server.max_players := Body.max_players b;
     Server.last_seen := Some now |}.

Definition new_binding (now : Z) (sid : string) (b : Body.t) : Server.row :=
  {| Server.license_key := Body.license_key b;
     Server.server_id := sid;
     Server.server_ip := Body.server_ip b;
     Server.server_port := Body.server_port b;
     Server.plugin_version := Body.plugin_version b;
     Server.minecraft_version := Body.minecraft_version b;
     Server.online_players := Body.online_players b;
     Server.max_players := Body.max_players b;
     Server.last_seen := Some now |}.

Definition with_servers (d : database) (ss : list Server.row) : database :=
  {| licenses := licenses d; license_servers := ss;
     license_logs := license_logs d |}.

(** [INSERT INTO license_servers (...) VALUES ($1, ..., $8, CURRENT_TIMESTAMP)
    ON CONFLICT (license_key, server_id) DO UPDATE SET server_ip = $3, ...,
    last_seen = CURRENT_TIMESTAMP] *)
Definition UPSERT_server (b : Body.t) : statement database unit :=
  fun now d =>
    match Body.server_id b with
    | None => inl not_null_violation
    | Some sid =>
        let key := Body.license_key b in
        let conflict := is_binding key (Some sid) in
        if existsb conflict (license_servers d) then
          inr (tt, with_servers d
                     (map (fun s => if conflict s then refresh now b s else s)
                        (license_servers d)))
        else if match key with
                | Some _ => negb (existsb (has_key key) (licenses d))
                | None => false
                end
        then inl foreign_key_violation
        else inr (tt, with_servers d
                        (license_servers d ++ [new_binding now sid b]))
    end.

(** [INSERT INTO license_logs (license_key, action, details) VALUES ($1, $2, $3)] *)
Definition INSERT_log (key : option string) (action details : string)
  : statement database unit :=
  fun now d =>
    inr (tt, {| licenses := licenses d;
                license_servers := license_servers d;
                license_logs := license_logs d ++
                  [{| Log.license_key := key; Log.action := Some action;
                      Log.details := Some details;
                      Log.timestamp := Some now |}] |}).

(** [INSERT INTO licenses (license_key, owner, email, expires_at, max_servers)
    VALUES ($1, $2, $3, $4, $5)] *)
Definition INSERT_license (id : Z) (key owner email : option string)
    (expires : option Z) (cap : Z) : statement database unit :=
  fun now d =>
    match key, owner with
    | Some k, Some o =>
        if existsb (has_key key) (licenses d) then inl unique_violation
        else inr (tt, {| licenses := licenses d ++
                           [{| License.id := id;
                               License.license_key := k; License.owner := o;
                               License.email := email;
                               License.status := Some "ACTIVE";
                               License.created_at := Some now;
                               License.expires_at := expires;
                               License.max_servers := Some cap;
                               License.last_check := None;
                               License.reason := None |}];
                         license_servers := license_servers d;
                         license_logs := license_logs d |})
    | _, _ => inl not_null_violation
    end.

(** [ls.last_seen > NOW() - INTERVAL '1 hour'] *)
Definition seen_within_hour (now : Z) (s : Server.row) : bool :=
  match Server.last_seen s with
  | Some t => t >? now - 3600000
  | None => false
  end.

(** [COUNT(DISTINCT ls.server_id)] over the bindings joined to [l] *)
Definition active_servers (now : Z) (d : database) (l : License.row) : Z :=
  Z.of_nat
    (length
       (nodup string_dec
          (map Server.server_id
             (filter (fun s => bound_to (Some (License.license_key l)) s
                               && seen_within_hour now s)
                (license_servers d))))).

(** [ORDER BY l.created_at DESC]: [NULL] sorts first; the order among equal
    timestamps is the storage's choice, here the order of insertion. *)
Definition newer_or_equal (a b : License.row) : bool :=
  match License.created_at a, License.created_at b with
  | None, _ => true
  | Some _, None => false
  | Some x, Some y => y <=? x
  end.

Fixpoint insert_desc (l : License.row) (sorted : list License.row)
  : list License.row :=
  match sorted with
  | [] => [l]
  | x :: rest =>
      if newer_or_equal x l then x :: insert_desc l rest else l :: x :: rest
  end.

Definition order_by_created_at_desc (ls : list License.row)
  : list License.row :=
  fold_left (fun acc l => insert_desc l acc) ls [].

Definition listed_row (now : Z) (d : database) (l : License.row) : jsval :=
  JObj [("id", JNum (License.id l));
        ("license_key", JStr (License.license_key l));
        ("owner", JStr (License.owner l));
        ("email", js_string (License.email l));
        ("status", js_string (License.status l));
        ("created_at", js_date (License.created_at l));
        ("expires_at", js_date (License.expires_at l));
        ("max_servers", js_num (License.max_servers l));
        ("last_check", js_date (License.last_check l));
        ("reason", js_string (License.reason l));
        ("active_servers",
         JStr (NilZero.string_of_int (Z.to_int (active_servers now d l))))].

(** [SELECT l.*, COUNT(DISTINCT ls.server_id) as active_servers FROM licenses l
    LEFT JOIN license_servers ls ON ... GROUP BY l.id ORDER BY l.created_at
    DESC]; [id] is the primary key, so the groups are the rows. *)
Definition SELECT_licenses_with_servers : statement database (list jsval) :=
  fun now d =>
    inr (map (listed_row now d) (order_by_created_at_desc (licenses d)), d).

(** [async function logAction]: a failed insert is reported on the console
    and goes no further. *)
Definition logAction (e : env) (licenseKey : option string)
    (action details : string) : M database unit :=
  try_catch (pool_query (pool e) (INSERT_log licenseKey action details))
    (fun _ => ret tt).

Definition server_error : response :=
  json 500 [("error", JStr "Błąd serwera")].

Definition unauthorized : response :=
  json 401 [("error", JStr "Brak autoryzacji")].

Definition capacity_exceeded : response :=
  json 403 [("valid", JBool false);
            ("error", JStr "Przekroczony limit serverów")].

Definition expired : response :=
  json 403 [("valid", JBool false); ("error", JStr "Licencja wygasła")].

Definition validated (l : License.row) : response :=
  json 200 [("valid", JBool true); ("active", JBool true);
            ("status", js_string (License.status l));
            ("owner", JStr (License.owner l));
            ("expires", js_date (License.expires_at l))].

(** [app.post('/api/license/validate')] *)
Definition validate (e : env) (b : Body.t) : M database response :=
  let license_key := Body.license_key b in
  let server_id := Body.server_id b in
  if negb (truthy license_key) || negb (truthy server_id) then
    ret (json 400 [("valid", JBool false);
                   ("error", JStr "Brak wymaganych danych")])
  else
    try_catch
      (licenseResult <- pool_query (pool e) (SELECT_license license_key) ;;
       match licenseResult with
       | [] =>
           logAction e license_key "VALIDATE_FAILED"
             "Licencja nie znaleziona" ;;;
           ret (json 404 [("valid", JBool false);
                          ("error", JStr "Licencja nie znaleziona")])
       | license :: _ =>
           if strict_ne (License.status license) (Some "ACTIVE") then
             logAction e license_key "VALIDATE_FAILED"
               ("Status: " ++ template "null" (License.status license)) ;;;
             ret (json 403
                    [("valid", JBool false); ("active", JBool false);
                     ("status", js_string (License.status license));
                     ("reason",
                      JStr (js_or (License.reason license)
                              "Licencja nieaktywna"))])
           else if overdue e license then
             pool_query (pool e) (UPDATE_status "EXPIRED" license_key) ;;;
             logAction e license_key "VALIDATE_FAILED" "Licencja wygasła" ;;;
             ret expired
           else
             serverCount <- pool_query (pool e) (COUNT_servers license_key) ;;
             existingServer <-
               pool_query (pool e) (SELECT_server license_key server_id) ;;
             if match existingServer with [] => true | _ => false end
                && (serverCount >=? ToNumber (License.max_servers license))
             then
               logAction e license_key "VALIDATE_FAILED"
                 "Przekroczony limit serverów" ;;;
               ret capacity_exceeded
             else
               pool_query (pool e) (UPSERT_server b) ;;;
               pool_query (pool e) (UPDATE_last_check license_key) ;;;
               logAction e license_key "VALIDATE_SUCCESS"
                 ("Server: " ++ template "undefined" server_id) ;;;
               ret (validated license)
       end)%pool
      (fun _ =>
         ret (json 500 [("valid", JBool false);
                        ("error", JStr "Błąd serwera")])).

(** [app.post('/api/license/check')] *)
Definition check (e : env) (b : Body.t) : M database response :=
  let license_key := Body.license_key b in
  if negb (truthy license_key) then
    ret (json 400 [("error", JStr "Brak klucza licencji")])
  else
    try_catch
      (result <- pool_query (pool e) (SELECT_license license_key) ;;
       match result with
       | [] => ret (json 404 [("error", JStr "Licencja nie znaleziona")])
       | license :: _ =>
           let active :=
             strict_eq (License.status license) (Some "ACTIVE")
             && not_yet_expired e license in
           ret (json 200
                  [("active", JBool active);
                   ("status", js_string (License.status license));
                   ("reason", JStr (js_or (License.reason license) ""));
                   ("expires", js_date (License.expires_at license))])
       end)%pool
      (fun _ => ret server_error).

(** [app.post('/api/admin/license/create')] *)
Definition create (e : env) (r : Req.t) : M database response :=
  let b := Req.body r in
  let adminKey := Req.x_admin_key r in
  if strict_ne adminKey (ADMIN_KEY e) then ret unauthorized
  else
    try_catch
      (pool_query_serial (pool e)
         (fun id =>
            INSERT_license id (Body.license_key b) (Body.owner b)
              (Body.email b)
              (option_map DateText.instant (js_or_null (Body.expires_at b)))
              (js_or (Body.max_servers b) 1)) ;;;
       logAction e (Body.license_key b) "LICENSE_CREATED"
         ("Owner: " ++ template "undefined" (Body.owner b)) ;;;
       ret (json 200 [("success", JBool true);
                      ("message", JStr "Licencja utworzona")]))%pool
      (fun _ => ret server_error).

(** [app.post('/api/admin/license/disable')] *)
Definition disable (e : env) (r : Req.t) : M database response :=
  let b := Req.body r in
  let adminKey := Req.x_admin_key r in
  if strict_ne adminKey (ADMIN_KEY e) then ret unauthorized
  else
    try_catch
      (pool_query (pool e)
         (UPDATE_status_reason "DISABLED"
            (js_or (Body.reason b) "Wyłączona przez admina")
            (Body.license_key b)) ;;;
       logAction e (Body.license_key b) "LICENSE_DISABLED"
         (js_or (Body.reason b) "Admin action") ;;;
       ret (json 200 [("success", JBool true);
                      ("message", JStr "Licencja wyłączona")]))%pool
      (fun _ => ret server_error).

(** [app.get('/api/admin/licenses')] *)
Definition admin_licenses (e : env) (r : Req.t) : M database response :=
  let adminKey := Req.x_admin_key r in
  if strict_ne adminKey (ADMIN_KEY e) then ret unauthorized
  else
    try_catch
      (rows <- pool_query (pool e) SELECT_licenses_with_servers ;;
       ret (json 200 [("licenses", JArr rows)]))%pool
      (fun _ => ret server_error).

(** ** What the schema and the admission check are meant to keep

    [UNIQUE] on [licenses.license_key], [UNIQUE(license_key, server_id)] on
    [license_servers], the foreign key from bindings to licenses, and the
    cap: the bindings of a key do not outnumber [max_servers]. *)

Definition binding_pair (s : Server.row) : option string * string :=
  (Server.license_key s, Server.server_id s).

Definition keys_unique (d : database) : Prop :=
  NoDup (map License.license_key (licenses d)).

Definition bindings_unique (d : database) : Prop :=
  NoDup (map binding_pair (license_servers d)).

Definition bindings_reference (d : database) : Prop :=
  forall s k, In s (license_servers d) -> Server.license_key s = Some k ->
    In k (map License.license_key (licenses d)).

Definition constraints (d : database) : Prop :=
  keys_unique d /\ bindings_unique d /\ bindings_reference d.

Definition bindings_of (k : string) (d : database) : Z :=
  Z.of_nat (length (filter (bound_to (Some k)) (license_servers d))).

(** The columns of a license that [validate] never writes. *)
Definition same_terms (g : License.row -> License.row) : Prop :=
  forall l,
    License.license_key (g l) = License.license_key l
    /\ License.owner (g l) = License.owner l
    /\ License.email (g l) = License.email l
    /\ License.created_at (g l) = License.created_at l
    /\ License.expires_at (g l) = License.expires_at l
    /\ License.max_servers (g l) = License.max_servers l
    /\ License.reason (g l) = License.reason l.

Definition capacity_respected (d : database) : Prop :=
  forall k l, find (has_key (Some k)) (licenses d) = Some l ->
    bindings_of k d <= ToNumber (License.max_servers l).

End Extended.

(** * A concrete deployment

    License [ABC123] for two servers, with [S1] and [S2] bound, on a storage
    that accepts every statement; the inputs at which the theorems below are
    instantiated. *)

Module Scenario.
Import Extended.

Definition working : oracle :=
  {| fault := fun _ => None;
     CURRENT_TIMESTAMP := fun n => 1000 + Z.of_nat n;
     nextval := fun n => 2 + Z.of_nat n |}.

Definition server (secret : option string) : env :=
  {| pool := working; ADMIN_KEY := secret; Date_now := 1000 |}.

Definition abc123 (expires : option Z) : License.row :=
  {| License.id := 1;
     License.license_key := "ABC123"; License.owner := "alice";
     License.email := None; License.status := Some "ACTIVE";
     License.created_at := Some 0; License.expires_at := expires;
     License.max_servers := Some 2; License.last_check := None;
     License.reason := None |}.

Definition binding (sid : string) : Server.row :=
  {| Server.license_key := Some "ABC123"; Server.server_id := sid;
     Server.server_ip := Some "10.0.0.1"; Server.server_port := Some 25565;
     Server.plugin_version := Some "1.0"; Server.minecraft_version := None;
     Server.online_players := Some 0; Server.max_players := Some 20;
     Server.last_seen := Some 500 |}.

Definition store (expires : option Z) : world database :=
  {| db := {| licenses := [abc123 expires];
              license_servers := [binding "S1"; binding "S2"];
              license_logs := [] |};
     issued := 0 |}.

Definition from_server (sid : string) : Body.t :=
  {| Body.license_key := Some "ABC123"; Body.server_id := Some sid;
     Body.server_ip := Some "10.0.0.7"; Body.server_port := Some 25566;
     Body.plugin_version := Some "1.1";
     Body.minecraft_version := Some "1.20";
     Body.online_players := Some 3; Body.max_players := Some 50;
     Body.owner := None; Body.email := None; Body.expires_at := None;
     Body.max_servers := None; Body.reason := None |}.

Definition disabling (key reason : option string) : Body.t :=
  {| Body.license_key := key; Body.server_id := None;
     Body.server_ip := None; Body.server_port := None;
     Body.plugin_version := None; Body.minecraft_version := None;
     Body.online_players := None; Body.max_players := None;
     Body.owner := None; Body.email := None; Body.expires_at := None;
     Body.max_servers := None; Body.reason := reason |}.

Definition admin (header : option string) (b : Body.t) : Req.t :=
  {| Req.x_admin_key := header; Req.body := b |}.

(** An empty database, and the request that creates [ABC123]. *)
Definition empty : world database :=
  {| db := {| licenses := []; license_servers := []; license_logs := [] |};
     issued := 0 |}.

Definition creating (key : string) (cap : option Z) : Body.t :=
  {| Body.license_key := Some key; Body.server_id := None;
     Body.server_ip := None; Body.server_port := None;
     Body.plugin_version := None; Body.minecraft_version := None;
     Body.online_players := None; Body.max_players := None;
     Body.owner := Some "alice"; Body.email := None;
     Body.expires_at := None; Body.max_servers := cap;
     Body.reason := None |}.

Definition expiring (key : string) (until : DateText.t) : Body.t :=
  {| Body.license_key := Some key; Body.server_id := None;
     Body.server_ip := None; Body.server_port := None;
     Body.plugin_version := None; Body.minecraft_version := None;
     Body.online_players := None; Body.max_players := None;
     Body.owner := Some "alice"; Body.email := None;
     Body.expires_at := Some until; Body.max_servers := None;
     Body.reason := None |}.

(** The answer of a handler and the world it leaves. *)
Definition answer {DB} (run : outcome response * world DB) : option response :=
  match fst run with Ok r => Some r | Throw _ => None end.

Definition after {DB} (run : outcome response * world DB) : world DB :=
  snd run.

(** The reduced server with an entropy source that repeats [AB 07]. *)
Definition simple_server : Simple.env :=
  {| Simple.pool := working;
     Simple.entropy := fun n => if Nat.even n then Byte.xab else Byte.x07 |}.

Definition simple_empty : world Simple.database :=
  {| db := {| Simple.licenses := [] |}; issued := 0 |}.

Definition with_key (key : option string) : Simple.Body.t :=
  {| Simple.Body.license_key := key |}.

End Scenario.

(** * Facts about lists of rows and about the pool *)

(** Split a conjunction without introducing anything. *)
Ltac conjs := repeat match goal with |- _ /\ _ => refine (conj _ _) end.

Lemma filter_head_find {A} (f : A -> bool) (l : list A) :
  find f l = hd_error (filter f l).
Proof.
  induction l as [|x l IH]; simpl; [reflexivity|].
  destruct (f x); simpl; [reflexivity | exact IH].
Qed.

Lemma filter_cons_find {A} (f : A -> bool) (l : list A) x :
  find f l = Some x -> exists rest, filter f l = x :: rest.
Proof.
  rewrite filter_head_find.
  destruct (filter f l) as [|y rest]; simpl; intros H; inversion H.
  now exists rest.
Qed.

Lemma filter_nil_find {A} (f : A -> bool) (l : list A) :
  find f l = None -> filter f l = [].
Proof.
  rewrite filter_head_find.
  destruct (filter f l); simpl; [reflexivity | discriminate].
Qed.

Lemma existsb_find {A} (f : A -> bool) (l : list A) x :
  find f l = Some x -> existsb f l = true.
Proof.
  intros H. apply existsb_exists. exists x.
  apply find_some in H. exact H.
Qed.

Lemma truthy_nonempty (k : string) : k <> "" -> truthy (Some k) = true.
Proof.
  intros H. unfold truthy, truthy_option, truthy, truthy_string.
  destruct (String.eqb_spec k ""); [contradiction | reflexivity].
Qed.

Lemma truthy_Some_inv (o : option string) :
  truthy o = true -> exists k, o = Some k /\ k <> "".
Proof.
  destruct o as [k|]; [|discriminate].
  unfold truthy, truthy_option, truthy, truthy_string.
  destruct (String.eqb_spec k ""); [discriminate|].
  intros _. now exists k.
Qed.

Lemma pool_query_run {DB A} (o : oracle) (q : statement DB A) (w : world DB) :
  fault o (issued w) = None ->
  pool_query o q w =
    match q (CURRENT_TIMESTAMP o (issued w)) (db w) with
    | inr (a, d) => (Ok a, {| db := d; issued := S (issued w) |})
    | inl e => (Throw e, {| db := db w; issued := S (issued w) |})
    end.
Proof. intros H. unfold pool_query. now rewrite H. Qed.

(** ** Hexadecimal rendering *)

Lemma toUpperCase_app (a b : string) :
  toUpperCase (a ++ b) = (toUpperCase a ++ toUpperCase b)%string.
Proof. induction a as [|c a IH]; simpl; [reflexivity | now rewrite IH]. Qed.

Lemma hex_of_byte_upper (b : byte) :
  exists c1 c2,
    toUpperCase (hex_of_byte b) = String c1 (String c2 EmptyString)
    /\ upper_hex c1 = true /\ upper_hex c2 = true.
Proof.
  destruct b; eexists; eexists; (split; [reflexivity | split; reflexivity]).
Qed.

Lemma hex_upper_length (buf : list byte) :
  String.length (toUpperCase (toString_hex buf)) = (2 * length buf)%nat.
Proof.
  induction buf as [|b buf IH]; [reflexivity|].
  cbn [toString_hex]. rewrite toUpperCase_app.
  destruct (hex_of_byte_upper b) as (c1 & c2 & -> & _ & _).
  cbn [String.append String.length length]. rewrite IH. lia.
Qed.

Lemma hex_upper_digits (buf : list byte) :
  forallb upper_hex (list_ascii_of_string (toUpperCase (toString_hex buf)))
  = true.
Proof.
  induction buf as [|b buf IH]; [reflexivity|].
  cbn [toString_hex]. rewrite toUpperCase_app.
  destruct (hex_of_byte_upper b) as (c1 & c2 & -> & H1 & H2).
  cbn [String.append list_ascii_of_string forallb].
  now rewrite H1, H2, IH.
Qed.

(** * The reduced server *)

Module SimpleFacts.
Import Simple.

Lemma randomBytes_length (e : env) (n : nat) : length (randomBytes e n) = n.
Proof. unfold randomBytes. now rewrite length_map, length_seq. Qed.

Lemma has_key_In (k : string) (d : database) :
  existsb (has_key k) (licenses d) = true <-> In k (stored_keys d).
Proof.
  unfold stored_keys. rewrite existsb_exists, in_map_iff. unfold has_key.
  split; intros (l & H1 & H2).
  - exists l. split; [now apply String.eqb_eq | exact H1].
  - exists l. split; [exact H2 | now apply String.eqb_eq].
Qed.

(** C7: the key drawn by [GET /api/generate-key] is the upper-cased
    hexadecimal rendering of the 16 bytes taken from the entropy source, so
    it has exactly 32 characters, each in [0-9A-F].  The handler always
    answers 200 or 500; on 200 the key was not stored before and the table
    gains exactly one row holding it; a key that is already stored is
    rejected by the unique constraint (500, database unchanged), so stored
    keys stay pairwise distinct; and a fresh key on a working storage is
    stored. *)
Theorem generate_key_fresh_upper_hex (e : env) (w : world database) :
  let k := fresh_key e in
  (length (randomBytes e 16) = 16%nat
   /\ k = toUpperCase (toString_hex (randomBytes e 16)))
  /\ String.length k = 32%nat
  /\ forallb upper_hex (list_ascii_of_string k) = true
  /\ exists r w',
       generate_key e w = (Ok r, w')
       /\ (status_code r = 200 \/ status_code r = 500)
       /\ (status_code r = 200 ->
             field "license_key" r = Some (JStr k)
             /\ ~ In k (stored_keys (db w))
             /\ exists t,
                  licenses (db w') =
                    (licenses (db w) ++
                       [{| License.license_key := k;
                           License.active := Some true;
                           License.created_at := Some t |}])%list)
       /\ (In k (stored_keys (db w)) -> status_code r = 500 /\ db w' = db w)
       /\ (NoDup (stored_keys (db w)) -> NoDup (stored_keys (db w')))
       /\ (fault (pool e) (issued w) = None -> ~ In k (stored_keys (db w)) ->
             status_code r = 200).
Proof.
  intros k. split; [split; [apply randomBytes_length | reflexivity]|].
  split.
  { unfold k, fresh_key. rewrite hex_upper_length, randomBytes_length.
    reflexivity. }
  split; [apply hex_upper_digits|].
  unfold generate_key, try_catch, bind, pool_query, INSERT_license, ret.
  fold k.
  destruct (fault (pool e) (issued w)) as [msg|] eqn:Hf.
  - eexists; eexists; split; [reflexivity|]. cbn.
    repeat split; try (intros; discriminate); auto.
  - destruct (existsb (has_key k) (licenses (db w))) eqn:Hk.
    + eexists; eexists; split; [reflexivity|]. cbn.
      apply has_key_In in Hk.
      repeat split; try (intros; discriminate); auto.
      intros _ Hn. contradiction.
    + eexists; eexists; split; [reflexivity|]. cbn.
      assert (Hn : ~ In k (stored_keys (db w))).
      { intros Hin. apply has_key_In in Hin. congruence. }
      split; [now left|]. split.
      { intros _. unfold field; cbn. split; [reflexivity|].
        split; [exact Hn|]. eexists. reflexivity. }
      split; [intros Hin; contradiction|].
      split; [|reflexivity].
      intros Hnd. unfold stored_keys; cbn. rewrite map_app; cbn.
      apply NoDup_app; repeat split; auto.
      * constructor; [intros []| constructor].
      * intros x Hx [<-|[]]. exact (Hn Hx).
Qed.

(** C8: [POST /api/verify] always answers, with 200 or 500, and never writes.
    It answers 500 exactly when a key was supplied and the lookup failed in
    the storage.  A missing key, a key that is not stored and a stored key
    whose [active] flag is not true each give 200 with [valid:false] and a
    message; [valid:true] is only ever returned with 200, for a stored key
    whose [active] flag is true. *)
Theorem verify_status (e : env) (b : Body.t) (w : world database) :
  exists r w',
    verify e b w = (Ok r, w')
    /\ db w' = db w
    /\ (status_code r = 200 \/ status_code r = 500)
    /\ (status_code r = 500 <->
          truthy (Body.license_key b) = true
          /\ fault (pool e) (issued w) <> None)
    /\ (truthy (Body.license_key b) = false ->
          r = json 200 [("valid", JBool false);
                        ("message", JStr "Brak klucza licencji")])
    /\ (forall k, Body.license_key b = Some k -> k <> "" ->
          fault (pool e) (issued w) = None ->
          (~ In k (stored_keys (db w)) ->
             r = json 200 [("valid", JBool false);
                           ("message",
                            JStr "Licencja nie istnieje w systemie")])
          /\ (forall l, find (has_key k) (licenses (db w)) = Some l ->
                License.active l <> Some true ->
                r = json 200 [("valid", JBool false);
                              ("message",
                               JStr "Licencja została dezaktywowana")]))
    /\ (field "valid" r = Some (JBool true) ->
          status_code r = 200
          /\ exists l, In l (licenses (db w))
                       /\ Body.license_key b = Some (License.license_key l)
                       /\ License.active l = Some true).
Proof.
  unfold verify, try_catch, bind, ret.
  destruct (truthy (Body.license_key b)) eqn:Ht; cbn [negb].
  2:{ eexists; eexists; split; [reflexivity|]. cbn. conjs; auto.
      - split; [discriminate | intros (? & _); discriminate].
      - intros k Hk Hne. rewrite Hk in Ht.
        rewrite (truthy_nonempty k Hne) in Ht. discriminate.
      - discriminate. }
  destruct (truthy_Some_inv _ Ht) as (k & Hk & Hne).
  unfold pool_query, SELECT_license.
  destruct (fault (pool e) (issued w)) as [msg|] eqn:Hf.
  { eexists; eexists; split; [reflexivity|]. cbn. conjs; auto.
    - split; [intros _; split; congruence | reflexivity].
    - discriminate.
    - intros; discriminate.
    - discriminate. }
  rewrite Hk.
  change (fun l => sql_eq (Some (License.license_key l)) (Some k))
    with (has_key k).
  assert (Hno500 : 200 = 500 <-> true = true /\ @None string <> None).
  { split; [discriminate | intros (_ & Hc); congruence]. }
  destruct (find (has_key k) (licenses (db w))) as [l|] eqn:Hfind.
  - destruct (filter_cons_find _ _ _ Hfind) as (rest & ->).
    pose proof (find_some _ _ Hfind) as (Hin & Hkey).
    apply String.eqb_eq in Hkey.
    assert (Hstored : In k (stored_keys (db w))).
    { unfold stored_keys. apply in_map_iff. now exists l. }
    destruct (License.active l) as [[|]|] eqn:Ha; cbn;
      (eexists; eexists; split; [reflexivity|]); cbn;
      (conjs; auto; [discriminate | | ]).
    + intros k' Hk' _ _. injection Hk' as <-. split; [contradiction|].
      intros l' Hl' Hact. rewrite Hfind in Hl'. injection Hl' as <-.
      congruence.
    + intros _. split; [reflexivity|]. exists l. subst k. auto.
    + intros k' Hk' _ _. injection Hk' as <-. split; [contradiction|].
      reflexivity.
    + discriminate.
    + intros k' Hk' _ _. injection Hk' as <-. split; [contradiction|].
      reflexivity.
    + discriminate.
  - rewrite (filter_nil_find _ _ Hfind).
    eexists; eexists; split; [reflexivity|]. cbn.
    conjs; auto; [discriminate | | discriminate].
    intros k' Hk' _ _. injection Hk' as <-. split; [reflexivity|].
    intros l' Hl'. congruence.
Qed.

(** The reduced server end to end: the generated key verifies; the same
    bytes drawn again are refused by the unique constraint; once
    deactivated, the key no longer verifies. *)
Example generated_key_text :
  fresh_key Scenario.simple_server = "AB07AB07AB07AB07AB07AB07AB07AB07".
Proof. reflexivity. Qed.

Example generate_verify_deactivate :
  let e := Scenario.simple_server in
  let key := Scenario.with_key (Some (fresh_key e)) in
  let w1 := Scenario.after (generate_key e Scenario.simple_empty) in
  let w2 := Scenario.after (deactivate e key w1) in
  Scenario.answer (verify e key w1)
  = Some (json 200 [("valid", JBool true); ("message", JStr "Licencja aktywna");
                    ("license_key", JStr (fresh_key e))])
  /\ option_map status_code (Scenario.answer (generate_key e w1)) = Some 500
  /\ db (Scenario.after (generate_key e w1)) = db w1
  /\ Scenario.answer (verify e key w2)
     = Some (json 200 [("valid", JBool false);
                       ("message", JStr "Licencja została dezaktywowana")])
  /\ Scenario.answer (verify e (Scenario.with_key (Some "NOPE")) w2)
     = Some (json 200 [("valid", JBool false);
                       ("message", JStr "Licencja nie istnieje w systemie")]).
Proof. vm_compute. conjs; reflexivity. Qed.

End SimpleFacts.

(** * The extended server *)

Module ExtendedFacts.
Import Extended.

Lemma filter_nil_existsb {A} (f : A -> bool) (l : list A) :
  match filter f l with [] => true | _ => false end = negb (existsb f l).
Proof.
  induction l as [|x l IH]; simpl; [reflexivity|].
  destruct (f x); simpl; [reflexivity | exact IH].
Qed.

Lemma strict_eq_iff (a b : option string) : strict_eq a b = true <-> a = b.
Proof.
  destruct a as [x|], b as [y|]; simpl; split; intros H;
    try discriminate; try reflexivity.
  - apply String.eqb_eq in H. now subst.
  - injection H as ->. apply String.eqb_refl.
Qed.

Lemma strict_ne_iff (a b : option string) : strict_ne a b = true <-> a <> b.
Proof.
  unfold strict_ne. rewrite negb_true_iff, <- not_true_iff_false.
  now rewrite strict_eq_iff.
Qed.

(** [logAction] never throws and always sends one statement. *)
Lemma logAction_run (e : env) k a d (w : world database) :
  logAction e k a d w =
    (Ok tt,
     {| db := match fault (pool e) (issued w) with
              | Some _ => db w
              | None =>
                  {| licenses := licenses (db w);
                     license_servers := license_servers (db w);
                     license_logs := license_logs (db w) ++
                       [{| Log.license_key := k; Log.action := Some a;
                           Log.details := Some d;
                           Log.timestamp :=
                             Some (CURRENT_TIMESTAMP (pool e) (issued w)) |}]
                  |}
              end;
        issued := S (issued w) |}).
Proof.
  unfold logAction, try_catch, pool_query, INSERT_log, ret.
  destruct (fault (pool e) (issued w)); reflexivity.
Qed.

Lemma validate_admission (e : env) (b : Body.t) (w : world database) k sid l :
  healthy (pool e) ->
  Body.license_key b = Some k -> k <> "" ->
  Body.server_id b = Some sid -> sid <> "" ->
  find (has_key (Some k)) (licenses (db w)) = Some l ->
  License.status l = Some "ACTIVE" ->
  overdue e l = false ->
  exists w',
    validate e b w =
      (Ok (if negb (existsb (is_binding (Some k) (Some sid))
                      (license_servers (db w)))
              && (Z.of_nat (length (filter (bound_to (Some k))
                                      (license_servers (db w))))
                  >=? ToNumber (License.max_servers l))
           then capacity_exceeded else validated l), w')
    /\ map License.status (licenses (db w'))
       = map License.status (licenses (db w)).
Proof.
  intros Hh Hk Hne Hs Hsne Hfind Hact Hover.
  unfold validate. rewrite Hk, Hs.
  rewrite (truthy_nonempty k Hne), (truthy_nonempty sid Hsne). cbn [negb orb].
  unfold try_catch, bind.
  rewrite pool_query_run by apply Hh. cbn [SELECT_license].
  destruct (filter_cons_find _ _ _ Hfind) as (rest & ->).
  rewrite Hact. cbn [strict_ne strict_eq String.eqb Ascii.eqb Bool.eqb negb].
  rewrite Hover.
  rewrite pool_query_run by apply Hh. cbn [COUNT_servers db issued].
  rewrite pool_query_run by apply Hh. cbn [SELECT_server db issued].
  rewrite filter_nil_existsb.
  destruct (negb _ && _) eqn:Hfull.
  - rewrite logAction_run. cbn [db issued]. rewrite Hh.
    eexists; split; reflexivity.
  - rewrite pool_query_run by apply Hh. cbn [db issued].
    unfold UPSERT_server. rewrite Hs, Hk.
    rewrite (existsb_find _ _ _ Hfind). cbn [negb].
    destruct (existsb (is_binding (Some k) (Some sid)) _);
      rewrite pool_query_run by apply Hh; cbn [UPDATE_last_check db issued];
      rewrite logAction_run; cbn [db issued]; rewrite Hh;
      (eexists; split; [reflexivity|]); cbn;
      rewrite map_map; apply map_ext; intros x;
      match goal with |- context [if ?c then _ else _] => destruct c end;
      reflexivity.
Qed.

Lemma is_binding_exists (k sid : string) (ss : list Server.row) :
  existsb (is_binding (Some k) (Some sid)) ss = true <->
  exists s, In s ss /\ Server.license_key s = Some k
            /\ Server.server_id s = sid.
Proof.
  rewrite existsb_exists. unfold is_binding, sql_eq.
  split; intros (s & Hin & H); exists s; (split; [exact Hin|]).
  - apply andb_true_iff in H as (H1 & H2).
    destruct (Server.license_key s) as [k'|]; [|discriminate].
    apply String.eqb_eq in H1, H2. now subst.
  - destruct H as (-> & ->). now rewrite !String.eqb_refl.
Qed.

Lemma overdue_false (e : env) (l : License.row) :
  (forall t, License.expires_at l = Some t -> Date_now e <= t) ->
  overdue e l = false.
Proof.
  unfold overdue. destruct (License.expires_at l) as [t|]; [|reflexivity].
  intros H. specialize (H t eq_refl). apply Z.ltb_ge. exact H.
Qed.

(** C1: on a working storage, a validation request that carries a key and a
    server id and names an ACTIVE license that is not overdue is rejected as
    over capacity (403, [valid:false]) exactly when the pair (key, server id)
    has no binding and the bindings of the key number at least
    [max_servers]; a server id that is already bound is validated
    ([valid:true], 200) whatever the number of bindings. *)
Theorem validate_capacity_iff
    (e : env) (b : Body.t) (w : world database) k sid l :
  healthy (pool e) ->
  Body.license_key b = Some k -> k <> "" ->
  Body.server_id b = Some sid -> sid <> "" ->
  find (has_key (Some k)) (licenses (db w)) = Some l ->
  License.status l = Some "ACTIVE" ->
  (forall t, License.expires_at l = Some t -> Date_now e <= t) ->
  let bound :=
    exists s, In s (license_servers (db w))
              /\ Server.license_key s = Some k /\ Server.server_id s = sid in
  let count :=
    Z.of_nat (length (filter (bound_to (Some k)) (license_servers (db w)))) in
  exists r w',
    validate e b w = (Ok r, w')
    /\ (r = capacity_exceeded <->
          ~ bound /\ ToNumber (License.max_servers l) <= count)
    /\ (r = capacity_exceeded ->
          status_code r = 403 /\ field "valid" r = Some (JBool false))
    /\ (r <> capacity_exceeded ->
          status_code r = 200 /\ field "valid" r = Some (JBool true))
    /\ (bound ->
          status_code r = 200 /\ field "valid" r = Some (JBool true)).
Proof.
  intros Hh Hk Hne Hs Hsne Hfind Hact Hexp bound count.
  destruct (validate_admission e b w k sid l Hh Hk Hne Hs Hsne Hfind Hact
              (overdue_false e l Hexp)) as (w' & Hrun & _).
  fold count in Hrun.
  eexists; exists w'. split; [exact Hrun|].
  assert (Hb : existsb (is_binding (Some k) (Some sid))
                 (license_servers (db w)) = true <-> bound)
    by apply is_binding_exists.
  assert (Hdiff : validated l <> capacity_exceeded) by discriminate.
  destruct (existsb (is_binding (Some k) (Some sid)) _) eqn:Hex; cbn [negb andb].
  - assert (bound) as Hbound by now apply Hb.
    split; [split; [intros H; contradiction | intros (Hn & _); contradiction]|].
    conjs; solve [intros; split; reflexivity | intros; contradiction].
  - assert (~ bound) as Hnb by (intros H; apply Hb in H; discriminate).
    destruct (count >=? ToNumber (License.max_servers l)) eqn:Hc.
    + apply Z.geb_le in Hc.
      split; [split; auto|].
      conjs; solve [intros; split; reflexivity | intros; contradiction
                   | intros H; exfalso; apply H; reflexivity].
    + assert (~ ToNumber (License.max_servers l) <= count).
      { intros H. apply Z.geb_le in H. congruence. }
      split; [split; [intros H'; contradiction | intros (_ & ?); contradiction]|].
      conjs; solve [intros; split; reflexivity | intros; contradiction].
Qed.

Lemma find_update key (f : License.row -> License.row) (ls : list License.row) :
  (forall x, License.license_key (f x) = License.license_key x) ->
  find (has_key key) (map (fun x => if has_key key x then f x else x) ls)
  = option_map f (find (has_key key) ls).
Proof.
  intros Hf. induction ls as [|x ls IH]; [reflexivity|].
  cbn [map find]. destruct (has_key key x) eqn:Hx.
  - unfold has_key at 1. rewrite Hf. fold (has_key key x). now rewrite Hx.
  - now rewrite Hx.
Qed.

(** C2: on a working storage, a validation request that carries a key and a
    server id and names an ACTIVE license whose [expires_at] is set and lies
    before the current time is answered with the Expired rejection (403,
    [valid:false]); the stored status of that license is now EXPIRED, one
    VALIDATE_FAILED entry has been appended to the log, the bindings are
    untouched, and exactly three statements were sent (the lookup, the status
    update and the log entry), so neither the count of bindings nor the
    upsert was reached. *)
Theorem validate_expires
    (e : env) (b : Body.t) (w : world database) k sid l t :
  healthy (pool e) ->
  Body.license_key b = Some k -> k <> "" ->
  Body.server_id b = Some sid -> sid <> "" ->
  find (has_key (Some k)) (licenses (db w)) = Some l ->
  License.status l = Some "ACTIVE" ->
  License.expires_at l = Some t -> t < Date_now e ->
  exists r w',
    validate e b w = (Ok r, w')
    /\ r = expired
    /\ status_code r = 403 /\ field "valid" r = Some (JBool false)
    /\ find (has_key (Some k)) (licenses (db w'))
       = Some (License.set_status (Some "EXPIRED") l)
    /\ (forall x, In x (licenses (db w')) -> License.license_key x = k ->
          License.status x = Some "EXPIRED")
    /\ (forall x, In x (licenses (db w)) -> License.license_key x <> k ->
          In x (licenses (db w')))
    /\ license_logs (db w')
       = (license_logs (db w) ++
            [{| Log.license_key := Some k;
                Log.action := Some "VALIDATE_FAILED";
                Log.details := Some "Licencja wygasła";
                Log.timestamp :=
                  Some (CURRENT_TIMESTAMP (pool e) (issued w + 2)) |}])%list
    /\ license_servers (db w') = license_servers (db w)
    /\ issued w' = (issued w + 3)%nat.
Proof.
  intros Hh Hk Hne Hs Hsne Hfind Hact Hexp Hlt.
  unfold validate. rewrite Hk, Hs.
  rewrite (truthy_nonempty k Hne), (truthy_nonempty sid Hsne). cbn [negb orb].
  unfold try_catch, bind.
  rewrite pool_query_run by apply Hh. cbn [SELECT_license].
  destruct (filter_cons_find _ _ _ Hfind) as (rest & ->).
  rewrite Hact. cbn [strict_ne strict_eq String.eqb Ascii.eqb Bool.eqb negb].
  assert (Hover : overdue e l = true).
  { unfold overdue. rewrite Hexp. now apply Z.ltb_lt. }
  rewrite Hover.
  rewrite pool_query_run by apply Hh. cbn [UPDATE_status db issued].
  rewrite logAction_run. cbn [db issued]. rewrite Hh.
  eexists; eexists; split; [reflexivity|].
  cbn [db issued licenses license_servers license_logs update_licenses].
  conjs; try reflexivity.
  - rewrite find_update by reflexivity. now rewrite Hfind.
  - intros x Hin Hx. apply in_map_iff in Hin as (y & Hy & Hin).
    destruct (has_key (Some k) y) eqn:Hyk.
    + now subst x.
    + subst x. unfold has_key, sql_eq in Hyk. rewrite Hx in Hyk.
      now rewrite String.eqb_refl in Hyk.
  - intros x Hin Hx. apply in_map_iff. exists x. split; [|exact Hin].
    unfold has_key, sql_eq.
    destruct (String.eqb_spec (License.license_key x) k);
      [contradiction | reflexivity].
  - replace (issued w + 2)%nat with (S (S (issued w))) by lia. reflexivity.
  - lia.
Qed.

Lemma refresh_keeps_count key sid now b (ss : list Server.row) :
  length (filter (bound_to key)
            (map (fun s => if is_binding key sid s then refresh now b s else s)
               ss))
  = length (filter (bound_to key) ss).
Proof.
  induction ss as [|s ss IH]; [reflexivity|].
  cbn [map filter].
  replace (bound_to key (if is_binding key sid s then refresh now b s else s))
    with (bound_to key s) by (destruct (is_binding key sid s); reflexivity).
  destruct (bound_to key s); cbn [length]; now rewrite IH.
Qed.

(** A successful validation went through the upsert, which ran as the fourth
    statement of the request on bindings no earlier statement had changed. *)
Lemma validate_success_upsert (e : env) (b : Body.t) (w : world database) r w' :
  validate e b w = (Ok r, w') ->
  field "valid" r = Some (JBool true) ->
  exists d,
    UPSERT_server b (CURRENT_TIMESTAMP (pool e) (issued w + 3)) (db w)
    = inr (tt, d)
    /\ license_servers (db w') = license_servers d.
Proof.
  unfold validate, try_catch, bind. intros Hrun Hvalid.
  replace (issued w + 3)%nat with (S (S (S (issued w)))) by lia.
  destruct (negb (truthy (Body.license_key b))
            || negb (truthy (Body.server_id b)));
    [inversion Hrun; subst; discriminate|].
  unfold pool_query at 1 in Hrun.
  destruct (fault (pool e) (issued w));
    [inversion Hrun; subst; discriminate|].
  cbn [SELECT_license] in Hrun.
  destruct (filter _ (licenses (db w))) as [|l rest].
  { rewrite logAction_run in Hrun. inversion Hrun; subst; discriminate. }
  destruct (strict_ne (License.status l) (Some "ACTIVE")).
  { rewrite logAction_run in Hrun. inversion Hrun; subst; discriminate. }
  destruct (overdue e l).
  { unfold pool_query at 1 in Hrun. cbn [db issued] in Hrun.
    destruct (fault (pool e) (S (issued w)));
      [inversion Hrun; subst; discriminate|].
    cbn [UPDATE_status] in Hrun. rewrite logAction_run in Hrun.
    inversion Hrun; subst; discriminate. }
  unfold pool_query at 1 in Hrun. cbn [db issued] in Hrun.
  destruct (fault (pool e) (S (issued w)));
    [inversion Hrun; subst; discriminate|].
  cbn [COUNT_servers] in Hrun.
  unfold pool_query at 1 in Hrun. cbn [db issued] in Hrun.
  destruct (fault (pool e) (S (S (issued w))));
    [inversion Hrun; subst; discriminate|].
  cbn [SELECT_server] in Hrun.
  destruct (match filter _ (license_servers (db w)) with
            | [] => true | _ => false end && _).
  { rewrite logAction_run in Hrun. inversion Hrun; subst; discriminate. }
  unfold pool_query at 1 in Hrun. cbn [db issued] in Hrun.
  destruct (fault (pool e) (S (S (S (issued w)))));
    [inversion Hrun; subst; discriminate|].
  destruct (UPSERT_server b _ (db w)) as [msg|[[] d]];
    [inversion Hrun; subst; discriminate|].
  exists d. split; [reflexivity|].
  unfold pool_query at 1 in Hrun. cbn [db issued] in Hrun.
  destruct (fault (pool e) (S (S (S (S (issued w))))));
    [inversion Hrun; subst; discriminate|].
  cbn [UPDATE_last_check] in Hrun. rewrite logAction_run in Hrun.
  cbn [db issued] in Hrun.
  inversion Hrun; subst. cbn [db].
  destruct (fault (pool e) _); reflexivity.
Qed.

(** C3: when a validation succeeds ([valid:true]) for a pair (key, server id)
    that was already bound, the bindings after the request are the bindings
    before it with the rows of that pair refreshed: their server_ip,
    server_port, plugin_version, minecraft_version, online_players and
    max_players are the values of the request and their last_seen is the
    database clock of the upsert.  No row is added, every other binding is
    unchanged, and the number of bindings of the key is the same. *)
Theorem validate_rebind
    (e : env) (b : Body.t) (w : world database) r w' k sid :
  validate e b w = (Ok r, w') ->
  field "valid" r = Some (JBool true) ->
  Body.license_key b = Some k ->
  Body.server_id b = Some sid ->
  (exists s, In s (license_servers (db w))
             /\ Server.license_key s = Some k /\ Server.server_id s = sid) ->
  let now := CURRENT_TIMESTAMP (pool e) (issued w + 3) in
  license_servers (db w')
  = map (fun s => if is_binding (Some k) (Some sid) s
                  then refresh now b s else s) (license_servers (db w))
  /\ length (license_servers (db w')) = length (license_servers (db w))
  /\ length (filter (bound_to (Some k)) (license_servers (db w')))
     = length (filter (bound_to (Some k)) (license_servers (db w)))
  /\ (exists s', In s' (license_servers (db w'))
                 /\ Server.license_key s' = Some k
                 /\ Server.server_id s' = sid)
  /\ (forall s', In s' (license_servers (db w')) ->
        Server.license_key s' = Some k -> Server.server_id s' = sid ->
        Server.server_ip s' = Body.server_ip b
        /\ Server.server_port s' = Body.server_port b
        /\ Server.plugin_version s' = Body.plugin_version b
        /\ Server.minecraft_version s' = Body.minecraft_version b
        /\ Server.online_players s' = Body.online_players b
        /\ Server.max_players s' = Body.max_players b
        /\ Server.last_seen s' = Some now)
  /\ (forall s, In s (license_servers (db w)) ->
        ~ (Server.license_key s = Some k /\ Server.server_id s = sid) ->
        In s (license_servers (db w'))).
Proof.
  intros Hrun Hvalid Hk Hs Hbound now.
  destruct (validate_success_upsert e b w r w' Hrun Hvalid) as (d & Hup & Hd).
  fold now in Hup. unfold UPSERT_server in Hup. rewrite Hs, Hk in Hup.
  pose proof (proj2 (is_binding_exists k sid _) Hbound) as Hex.
  rewrite Hex in Hup. injection Hup as <-. cbn [license_servers with_servers] in Hd.
  assert (Hbind : forall s, is_binding (Some k) (Some sid) s = true <->
                    Server.license_key s = Some k /\ Server.server_id s = sid).
  { intros s. unfold is_binding, sql_eq. rewrite andb_true_iff.
    destruct (Server.license_key s) as [k'|].
    - rewrite !String.eqb_eq. split; intros (H1 & H2); subst; auto.
      injection H1 as ->. auto.
    - split; intros (H1 & _); discriminate. }
  rewrite Hd. conjs.
  - reflexivity.
  - apply length_map.
  - apply refresh_keeps_count.
  - destruct Hbound as (s & Hin & Hks & Hss).
    exists (refresh now b s). split; [|split; assumption].
    apply in_map_iff. exists s. split; [|exact Hin].
    now rewrite (proj2 (Hbind s) (conj Hks Hss)).
  - intros s' Hin Hks Hss. apply in_map_iff in Hin as (s & Heq & Hin).
    destruct (is_binding (Some k) (Some sid) s) eqn:Hb.
    + subst s'. cbn. conjs; reflexivity.
    + subst s'. rewrite (proj2 (Hbind s) (conj Hks Hss)) in Hb. discriminate.
  - intros s Hin Hnot. apply in_map_iff. exists s. split; [|exact Hin].
    destruct (is_binding (Some k) (Some sid) s) eqn:Hb; [|reflexivity].
    apply Hbind in Hb. contradiction.
Qed.

(** C4: [POST /api/license/check] always answers and never changes the
    licenses, the bindings or the log, whatever the request and whatever the
    storage does.  When the request carries a non-empty key, the lookup goes
    through and the key is stored, the answer is 200 and its [active] field
    is true exactly when the stored status is ACTIVE and [expires_at] is
    either null or later than the current time; the stored status is the
    same afterwards even if [expires_at] has passed. *)
Theorem check_active_frame (e : env) (b : Body.t) (w : world database) :
  exists r w',
    check e b w = (Ok r, w')
    /\ db w' = db w
    /\ forall k l,
         Body.license_key b = Some k -> k <> "" ->
         fault (pool e) (issued w) = None ->
         find (has_key (Some k)) (licenses (db w)) = Some l ->
         status_code r = 200
         /\ field "status" r = Some (js_string (License.status l))
         /\ find (has_key (Some k)) (licenses (db w')) = Some l
         /\ exists a,
              field "active" r = Some (JBool a)
              /\ (a = true <->
                    License.status l = Some "ACTIVE"
                    /\ (License.expires_at l = None
                        \/ exists t, License.expires_at l = Some t
                                     /\ Date_now e < t)).
Proof.
  unfold check, try_catch, bind, pool_query, SELECT_license, ret.
  destruct (truthy (Body.license_key b)) eqn:Ht; cbn [negb].
  2:{ eexists; eexists; split; [reflexivity|]. split; [reflexivity|].
      intros k l Hk Hne. rewrite Hk, (truthy_nonempty k Hne) in Ht.
      discriminate. }
  destruct (fault (pool e) (issued w)) eqn:Hf.
  { eexists; eexists; split; [reflexivity|]. split; [reflexivity|].
    intros; discriminate. }
  destruct (filter (has_key (Body.license_key b)) (licenses (db w)))
    as [|l0 rest] eqn:Hfilter.
  { eexists; eexists; split; [reflexivity|]. split; [reflexivity|].
    intros k l Hk _ _ Hfind. rewrite Hk in Hfilter.
    destruct (filter_cons_find _ _ _ Hfind) as (? & Hc). congruence. }
  eexists; eexists; split; [reflexivity|]. split; [reflexivity|].
  cbn [db]. intros k l Hk _ _ Hfind. rewrite Hk in Hfilter.
  destruct (filter_cons_find _ _ _ Hfind) as (rest' & Hc).
  rewrite Hc in Hfilter. injection Hfilter as -> ->.
  conjs; try reflexivity; [exact Hfind|].
  eexists; split; [reflexivity|].
  rewrite andb_true_iff, strict_eq_iff. unfold not_yet_expired.
  destruct (License.expires_at l0) as [t|].
  - rewrite Z.gtb_ltb, Z.ltb_lt. split; intros (H1 & H2); (split; [exact H1|]).
    + right. now exists t.
    + destruct H2 as [H2|(t' & Ht' & H2)]; [discriminate|].
      now injection Ht' as ->.
  - split; intros (H1 & _); (split; [exact H1|]); [now left | reflexivity].
Qed.

Lemma validate_capacity_iff_witness :
  exists w',
    validate (Scenario.server None) (Scenario.from_server "S3")
      (Scenario.store None) = (Ok capacity_exceeded, w').
Proof.
  destruct (validate_capacity_iff (Scenario.server None)
              (Scenario.from_server "S3") (Scenario.store None)
              "ABC123" "S3" (Scenario.abc123 None))
    as (r & w' & Hrun & Hiff & _).
  - intros n. reflexivity.
  - reflexivity.
  - discriminate.
  - reflexivity.
  - discriminate.
  - reflexivity.
  - reflexivity.
  - intros t H. discriminate.
  - exists w'. rewrite Hrun. f_equal. f_equal. apply Hiff. split.
    + intros (s & [<-|[<-|[]]] & _ & H); discriminate.
    + vm_compute. discriminate.
Defined.

Lemma validate_expires_witness :
  exists w',
    validate (Scenario.server None) (Scenario.from_server "S1")
      (Scenario.store (Some 999)) = (Ok expired, w')
    /\ map License.status (licenses (db w')) = [Some "EXPIRED"].
Proof.
  destruct (validate_expires (Scenario.server None)
              (Scenario.from_server "S1") (Scenario.store (Some 999))
              "ABC123" "S1" (Scenario.abc123 (Some 999)) 999)
    as (r & w' & Hrun & -> & _ & _ & Hfind & Hall & _).
  - intros n. reflexivity.
  - reflexivity.
  - discriminate.
  - reflexivity.
  - discriminate.
  - reflexivity.
  - reflexivity.
  - reflexivity.
  - reflexivity.
  - exists w'. split; [exact Hrun|].
    vm_compute in Hrun. injection Hrun as <-. reflexivity.
Defined.

Lemma validate_rebind_witness :
  exists w',
    validate (Scenario.server None) (Scenario.from_server "S1")
      (Scenario.store None) = (Ok (validated (Scenario.abc123 None)), w')
    /\ length (license_servers (db w')) = 2%nat.
Proof.
  eexists. split; [vm_compute; reflexivity|].
  match goal with
  | |- length (license_servers (db ?w')) = _ =>
      destruct (validate_rebind (Scenario.server None)
                  (Scenario.from_server "S1") (Scenario.store None)
                  (validated (Scenario.abc123 None)) w' "ABC123" "S1")
        as (_ & Hlen & _)
  end.
  - vm_compute. reflexivity.
  - reflexivity.
  - reflexivity.
  - reflexivity.
  - exists (Scenario.binding "S1"). split; [now left | split; reflexivity].
  - rewrite Hlen. reflexivity.
Defined.

Lemma disable_row_idempotent key s r (ls : list License.row) :
  let f := fun l : License.row =>
             if has_key key l
             then License.set_reason (Some r) (License.set_status (Some s) l)
             else l in
  map f (map f ls) = map f ls.
Proof.
  intros f. rewrite map_map. apply map_ext. intros l. unfold f.
  destruct (has_key key l) eqn:Hl; [|now rewrite Hl].
  replace (has_key key
             (License.set_reason (Some r) (License.set_status (Some s) l)))
    with (has_key key l) by reflexivity.
  now rewrite Hl.
Qed.

(** An authorized [disable] on a working storage. *)
Lemma disable_run (e : env) (r : Req.t) (w : world database) :
  Req.x_admin_key r = ADMIN_KEY e ->
  healthy (pool e) ->
  exists logs,
    disable e r w =
      (Ok (json 200 [("success", JBool true);
                     ("message", JStr "Licencja wyłączona")]),
       {| db := {| licenses :=
                     map (fun l =>
                            if has_key (Body.license_key (Req.body r)) l
                            then License.set_reason
                                   (Some (js_or (Body.reason (Req.body r))
                                            "Wyłączona przez admina"))
                                   (License.set_status (Some "DISABLED") l)
                            else l) (licenses (db w));
                   license_servers := license_servers (db w);
                   license_logs := logs |};
          issued := S (S (issued w)) |}).
Proof.
  intros Hauth Hh. unfold disable. cbv zeta.
  unfold strict_ne. rewrite (proj2 (strict_eq_iff _ _) Hauth). cbn [negb].
  unfold try_catch, bind.
  rewrite pool_query_run by apply Hh. cbn [UPDATE_status_reason].
  rewrite logAction_run. cbn [db issued]. rewrite Hh.
  eexists. reflexivity.
Qed.

(** An authorized [disable] on a working storage, with the entry it logs. *)
Lemma disable_run_logged (e : env) (r : Req.t) (w : world database) :
  Req.x_admin_key r = ADMIN_KEY e ->
  healthy (pool e) ->
  disable e r w =
    (Ok (json 200 [("success", JBool true);
                   ("message", JStr "Licencja wyłączona")]),
     {| db := {| licenses :=
                   map (fun l =>
                          if has_key (Body.license_key (Req.body r)) l
                          then License.set_reason
                                 (Some (js_or (Body.reason (Req.body r))
                                          "Wyłączona przez admina"))
                                 (License.set_status (Some "DISABLED") l)
                          else l) (licenses (db w));
                 license_servers := license_servers (db w);
                 license_logs :=
                   license_logs (db w) ++
                     [{| Log.license_key := Body.license_key (Req.body r);
                         Log.action := Some "LICENSE_DISABLED";
                         Log.details :=
                           Some (js_or (Body.reason (Req.body r))
                                   "Admin action");
                         Log.timestamp :=
                           Some (CURRENT_TIMESTAMP (pool e) (S (issued w)))
                      |}] |};
        issued := S (S (issued w)) |}).
Proof.
  intros Hauth Hh. unfold disable. cbv zeta.
  unfold strict_ne. rewrite (proj2 (strict_eq_iff _ _) Hauth). cbn [negb].
  unfold try_catch, bind.
  rewrite pool_query_run by apply Hh. cbn [UPDATE_status_reason].
  rewrite logAction_run. cbn [db issued]. rewrite Hh.
  reflexivity.
Qed.

(** C5, as the code has it: an authorized [disable] on a working storage
    answers with success and sets, on every license with the given key, the
    status to DISABLED and the reason to the supplied reason when that is a
    non-empty string and to ["Wyłączona przez admina"] when the reason is
    omitted or empty.  It appends one LICENSE_DISABLED entry to the log,
    whose details are the supplied reason, or ["Admin action"] when the
    reason is omitted or empty, and leaves the bindings alone.  A second
    identical call leaves licenses and bindings as the first one left them
    and appends a log entry of its own, and a key that no license has
    leaves the licenses as they were, still with a success answer (and a
    log entry). *)
Theorem disable_sets_status_and_reason
    (e : env) (r : Req.t) (w : world database) :
  Req.x_admin_key r = ADMIN_KEY e ->
  healthy (pool e) ->
  let key := Body.license_key (Req.body r) in
  let stored_reason :=
    match Body.reason (Req.body r) with
    | Some s => if String.eqb s "" then "Wyłączona przez admina" else s
    | None => "Wyłączona przez admina"
    end in
  let logged_details :=
    match Body.reason (Req.body r) with
    | Some s => if String.eqb s "" then "Admin action" else s
    | None => "Admin action"
    end in
  exists res w',
    disable e r w = (Ok res, w')
    /\ status_code res = 200 /\ field "success" res = Some (JBool true)
    /\ (forall l, find (has_key key) (licenses (db w)) = Some l ->
          exists l', find (has_key key) (licenses (db w')) = Some l'
                     /\ License.status l' = Some "DISABLED"
                     /\ License.reason l' = Some stored_reason
                     /\ License.license_key l' = License.license_key l
                     /\ License.owner l' = License.owner l
                     /\ License.expires_at l' = License.expires_at l
                     /\ License.max_servers l' = License.max_servers l)
    /\ (forall x, In x (licenses (db w)) -> has_key key x = false ->
          In x (licenses (db w')))
    /\ (exists res2 w2,
          disable e r w' = (Ok res2, w2)
          /\ res2 = res
          /\ licenses (db w2) = licenses (db w')
          /\ license_servers (db w2) = license_servers (db w')
          /\ license_logs (db w2)
             = (license_logs (db w') ++
                  [{| Log.license_key := key;
                      Log.action := Some "LICENSE_DISABLED";
                      Log.details := Some logged_details;
                      Log.timestamp :=
                        Some (CURRENT_TIMESTAMP (pool e) (issued w + 3)) |}])%list)
    /\ ((forall x, In x (licenses (db w)) -> has_key key x = false) ->
          licenses (db w') = licenses (db w))
    /\ license_servers (db w') = license_servers (db w)
    /\ license_logs (db w')
       = (license_logs (db w) ++
            [{| Log.license_key := key;
                Log.action := Some "LICENSE_DISABLED";
                Log.details := Some logged_details;
                Log.timestamp :=
                  Some (CURRENT_TIMESTAMP (pool e) (issued w + 1)) |}])%list.
Proof.
  intros Hauth Hh key stored_reason logged_details.
  assert (Hreason : js_or (Body.reason (Req.body r)) "Wyłączona przez admina"
                    = stored_reason).
  { unfold stored_reason, js_or, truthy, truthy_string.
    destruct (Body.reason (Req.body r)) as [s|]; [|reflexivity].
    destruct (String.eqb s ""); reflexivity. }
  assert (Hdetails : js_or (Body.reason (Req.body r)) "Admin action"
                     = logged_details).
  { unfold logged_details, js_or, truthy, truthy_string.
    destruct (Body.reason (Req.body r)) as [s|]; [|reflexivity].
    destruct (String.eqb s ""); reflexivity. }
  pose proof (disable_run_logged e r w Hauth Hh) as Hrun.
  rewrite Hreason, Hdetails in Hrun. fold key in Hrun.
  replace (issued w + 1)%nat with (S (issued w)) by lia.
  replace (issued w + 3)%nat with (S (S (S (issued w)))) by lia.
  eexists; eexists; split; [exact Hrun|].
  cbn [db licenses license_servers license_logs].
  conjs; try reflexivity.
  - intros l Hfind. rewrite find_update by reflexivity. rewrite Hfind.
    eexists; split; [reflexivity|]. conjs; reflexivity.
  - intros x Hin Hx. apply in_map_iff. exists x. now rewrite Hx.
  - match goal with
    | |- context [disable e r ?w1] =>
        pose proof (disable_run_logged e r w1 Hauth Hh) as Hrun2
    end.
    rewrite Hreason, Hdetails in Hrun2. fold key in Hrun2.
    eexists; eexists; split; [exact Hrun2|].
    cbn [db licenses license_servers license_logs issued].
    conjs; try reflexivity.
    apply disable_row_idempotent.
  - intros Hnone. rewrite <- (map_id (licenses (db w))) at 2.
    apply map_ext_in. intros x Hin. now rewrite (Hnone x Hin).
Qed.

Lemma disable_sets_status_and_reason_witness :
  exists res w',
    disable (Scenario.server (Some "secret"))
      (Scenario.admin (Some "secret")
         (Scenario.disabling (Some "ABC123") (Some "chargeback")))
      (Scenario.store None) = (Ok res, w')
    /\ status_code res = 200.
Proof.
  destruct (disable_sets_status_and_reason
              (Scenario.server (Some "secret"))
              (Scenario.admin (Some "secret")
                 (Scenario.disabling (Some "ABC123") (Some "chargeback")))
              (Scenario.store None))
    as (res & w' & Hrun & Hcode & _).
  - reflexivity.
  - intros n. reflexivity.
  - exists res, w'. split; [exact Hrun | exact Hcode].
Defined.

(** C5, as the claim words it, fails twice: with the reason omitted the
    stored reason is not ["Disabled by admin"], and a supplied reason that
    is the empty string is not what gets stored. *)
Lemma disable_claimed_reason_refuted :
  ~ (forall (e : env) (r : Req.t) (w : world database) l,
       Req.x_admin_key r = ADMIN_KEY e ->
       healthy (pool e) ->
       find (has_key (Body.license_key (Req.body r))) (licenses (db w))
         = Some l ->
       Body.reason (Req.body r) = None ->
       exists res w' l',
         disable e r w = (Ok res, w')
         /\ find (has_key (Body.license_key (Req.body r))) (licenses (db w'))
            = Some l'
         /\ License.reason l' = Some "Disabled by admin")
  /\ ~ (forall (e : env) (r : Req.t) (w : world database) l s,
          Req.x_admin_key r = ADMIN_KEY e ->
          healthy (pool e) ->
          find (has_key (Body.license_key (Req.body r))) (licenses (db w))
            = Some l ->
          Body.reason (Req.body r) = Some s ->
          exists res w' l',
            disable e r w = (Ok res, w')
            /\ find (has_key (Body.license_key (Req.body r)))
                 (licenses (db w')) = Some l'
            /\ License.reason l' = Some s).
Proof.
  split.
  - intros H.
    destruct (H (Scenario.server (Some "secret"))
                (Scenario.admin (Some "secret")
                   (Scenario.disabling (Some "ABC123") None))
                (Scenario.store None) (Scenario.abc123 None)
                eq_refl (fun _ => eq_refl) eq_refl eq_refl)
      as (res & w' & l' & Hrun & Hfind & Hreason).
    vm_compute in Hrun. injection Hrun as <- <-.
    vm_compute in Hfind. injection Hfind as <-.
    vm_compute in Hreason. discriminate.
  - intros H.
    destruct (H (Scenario.server (Some "secret"))
                (Scenario.admin (Some "secret")
                   (Scenario.disabling (Some "ABC123") (Some "")))
                (Scenario.store None) (Scenario.abc123 None) ""
                eq_refl (fun _ => eq_refl) eq_refl eq_refl)
      as (res & w' & l' & Hrun & Hfind & Hreason).
    vm_compute in Hrun. injection Hrun as <- <-.
    vm_compute in Hfind. injection Hfind as <-.
    vm_compute in Hreason. discriminate.
Qed.

(** C6: a request to [/api/admin/license/create],
    [/api/admin/license/disable] or [/api/admin/licenses] whose
    [x-admin-key] header differs from the configured secret (an absent
    header differs from every configured secret, an empty one from every
    non-empty secret) is answered with 401 and nothing else happens: no
    statement is sent and licenses, bindings and log are as before. *)
Theorem admin_rejects_wrong_key (e : env) (r : Req.t) (w : world database) :
  Req.x_admin_key r <> ADMIN_KEY e ->
  status_code unauthorized = 401
  /\ create e r w = (Ok unauthorized, w)
  /\ disable e r w = (Ok unauthorized, w)
  /\ admin_licenses e r w = (Ok unauthorized, w).
Proof.
  intros Hne. apply strict_ne_iff in Hne.
  unfold create, disable, admin_licenses. cbv zeta. rewrite Hne.
  conjs; reflexivity.
Qed.

Lemma admin_rejects_wrong_key_witness :
  let e := Scenario.server (Some "secret") in
  let w := Scenario.store None in
  create e (Scenario.admin None (Scenario.disabling (Some "X") None)) w
    = (Ok unauthorized, w)
  /\ disable e (Scenario.admin (Some "")
                  (Scenario.disabling (Some "ABC123") None)) w
     = (Ok unauthorized, w).
Proof.
  intros e w. split.
  - apply (admin_rejects_wrong_key e
             (Scenario.admin None (Scenario.disabling (Some "X") None)) w).
    discriminate.
  - apply (admin_rejects_wrong_key e
             (Scenario.admin (Some "")
                (Scenario.disabling (Some "ABC123") None)) w).
    discriminate.
Defined.

(** C9: take an ACTIVE license whose [expires_at] equals the current time,
    a working storage and a request carrying its key and a server id.
    [/api/license/check] answers 200 with [active:false].
    [/api/license/validate] does not answer Expired and leaves every stored
    status as it was; it goes on to the capacity check, so its answer is
    either the capacity rejection or [valid:true], and it is [valid:true]
    whenever the server is already bound or the bindings of the key number
    less than [max_servers]. *)
Theorem expiry_instant_disagreement
    (e : env) (b : Body.t) (w : world database) k sid l :
  healthy (pool e) ->
  Body.license_key b = Some k -> k <> "" ->
  Body.server_id b = Some sid -> sid <> "" ->
  find (has_key (Some k)) (licenses (db w)) = Some l ->
  License.status l = Some "ACTIVE" ->
  License.expires_at l = Some (Date_now e) ->
  (exists rc wc,
     check e b w = (Ok rc, wc)
     /\ status_code rc = 200 /\ field "active" rc = Some (JBool false))
  /\ (exists rv wv,
        validate e b w = (Ok rv, wv)
        /\ rv <> expired
        /\ map License.status (licenses (db wv))
           = map License.status (licenses (db w))
        /\ (rv = capacity_exceeded \/ rv = validated l)
        /\ ((exists s, In s (license_servers (db w))
                       /\ Server.license_key s = Some k
                       /\ Server.server_id s = sid)
            \/ Z.of_nat (length (filter (bound_to (Some k))
                                   (license_servers (db w))))
               < ToNumber (License.max_servers l) ->
            rv = validated l
            /\ status_code rv = 200
            /\ field "valid" rv = Some (JBool true))).
Proof.
  intros Hh Hk Hne Hs Hsne Hfind Hact Hexp. split.
  - unfold check. rewrite Hk, (truthy_nonempty k Hne). cbn [negb].
    unfold try_catch, bind.
    rewrite pool_query_run by apply Hh. cbn [SELECT_license].
    destruct (filter_cons_find _ _ _ Hfind) as (rest & ->).
    eexists; eexists; split; [reflexivity|]. split; [reflexivity|].
    unfold field; cbn. unfold not_yet_expired. rewrite Hexp.
    rewrite Z.gtb_ltb, Z.ltb_irrefl, andb_false_r. reflexivity.
  - assert (Hover : overdue e l = false).
    { unfold overdue. rewrite Hexp. apply Z.ltb_irrefl. }
    destruct (validate_admission e b w k sid l Hh Hk Hne Hs Hsne Hfind Hact
                Hover) as (wv & Hrun & Hstatus).
    eexists; exists wv. split; [exact Hrun|].
    pose proof (is_binding_exists k sid (license_servers (db w))) as Hb.
    destruct (existsb (is_binding (Some k) (Some sid)) _) eqn:Hex;
      cbn [negb andb].
    + conjs; [discriminate | exact Hstatus | now right |].
      intros _. conjs; reflexivity.
    + destruct (_ >=? _) eqn:Hc.
      * conjs; [discriminate | exact Hstatus | now left |].
        intros [Hbound | Hlt].
        -- apply Hb in Hbound. discriminate.
        -- apply Z.geb_le in Hc. lia.
      * conjs; [discriminate | exact Hstatus | now right |].
        intros _. conjs; reflexivity.
Qed.

Lemma expiry_instant_disagreement_witness :
  (exists wc,
     check (Scenario.server None) (Scenario.from_server "S1")
       (Scenario.store (Some 1000))
     = (Ok (json 200 [("active", JBool false); ("status", JStr "ACTIVE");
                      ("reason", JStr ""); ("expires", JDate 1000)]), wc))
  /\ (exists wv,
        validate (Scenario.server None) (Scenario.from_server "S1")
          (Scenario.store (Some 1000))
        = (Ok (validated (Scenario.abc123 (Some 1000))), wv)).
Proof.
  destruct (expiry_instant_disagreement (Scenario.server None)
              (Scenario.from_server "S1") (Scenario.store (Some 1000))
              "ABC123" "S1" (Scenario.abc123 (Some 1000)))
    as ((rc & wc & Hc & _) & (rv & wv & Hv & _ & _ & _ & Hok)).
  - intros n. reflexivity.
  - reflexivity.
  - discriminate.
  - reflexivity.
  - discriminate.
  - reflexivity.
  - reflexivity.
  - reflexivity.
  - split.
    + exists wc. rewrite Hc. vm_compute in Hc. injection Hc as <- _.
      reflexivity.
    + exists wv. rewrite Hv. f_equal. f_equal. apply Hok. left.
      exists (Scenario.binding "S1").
      split; [now left | split; reflexivity].
Defined.

(** C10: when [ADMIN_KEY] is not set, a request without [x-admin-key]
    passes the check of each admin endpoint: the answer is not 401 and a
    statement is sent to the storage.  If the storage accepts it, [disable]
    has set status and reason on the licenses with the given key. *)
Theorem admin_open_when_secret_unset
    (e : env) (r : Req.t) (w : world database) :
  ADMIN_KEY e = None ->
  Req.x_admin_key r = None ->
  (exists res w',
     create e r w = (Ok res, w')
     /\ status_code res <> 401 /\ (issued w < issued w')%nat)
  /\ (exists res w',
        disable e r w = (Ok res, w')
        /\ status_code res <> 401 /\ (issued w < issued w')%nat
        /\ (fault (pool e) (issued w) = None ->
            licenses (db w')
            = map (fun l =>
                     if has_key (Body.license_key (Req.body r)) l
                     then License.set_reason
                            (Some (js_or (Body.reason (Req.body r))
                                     "Wyłączona przez admina"))
                            (License.set_status (Some "DISABLED") l)
                     else l) (licenses (db w))))
  /\ (exists res w',
        admin_licenses e r w = (Ok res, w')
        /\ status_code res <> 401 /\ (issued w < issued w')%nat).
Proof.
  intros Henv Hhdr.
  unfold create, disable, admin_licenses. cbv zeta.
  rewrite Henv, Hhdr. cbn [strict_ne strict_eq negb].
  unfold try_catch, bind, pool_query_serial, pool_query.
  conjs.
  - destruct (fault (pool e) (issued w)).
    { eexists; eexists; split; [reflexivity|]. cbn; split; [discriminate|lia]. }
    destruct (INSERT_license _ _ _ _ _ _ _ _) as [msg|[[] d]].
    { eexists; eexists; split; [reflexivity|]. cbn; split; [discriminate|lia]. }
    rewrite logAction_run.
    eexists; eexists; split; [reflexivity|]. cbn; split; [discriminate|lia].
  - destruct (fault (pool e) (issued w)) eqn:Hf.
    { eexists; eexists; split; [reflexivity|]. cbn.
      conjs; [discriminate | lia | discriminate]. }
    cbn [UPDATE_status_reason]. rewrite logAction_run.
    eexists; eexists; split; [reflexivity|]. cbn [db issued status_code json].
    conjs; [discriminate | lia |].
    intros _. destruct (fault (pool e) (S (issued w))); reflexivity.
  - destruct (fault (pool e) (issued w)).
    { eexists; eexists; split; [reflexivity|]. cbn; split; [discriminate|lia]. }
    cbn [SELECT_licenses_with_servers].
    eexists; eexists; split; [reflexivity|]. cbn; split; [discriminate|lia].
Qed.

Lemma admin_open_when_secret_unset_witness :
  exists w',
    disable (Scenario.server None)
      (Scenario.admin None (Scenario.disabling (Some "ABC123") None))
      (Scenario.store None)
    = (Ok (json 200 [("success", JBool true);
                     ("message", JStr "Licencja wyłączona")]), w')
    /\ map License.status (licenses (db w')) = [Some "DISABLED"].
Proof.
  destruct (admin_open_when_secret_unset (Scenario.server None)
              (Scenario.admin None (Scenario.disabling (Some "ABC123") None))
              (Scenario.store None))
    as (_ & (res & w' & Hrun & _ & _ & Hlic) & _).
  - reflexivity.
  - reflexivity.
  - exists w'. split.
    + rewrite Hrun. vm_compute in Hrun. injection Hrun as <- _. reflexivity.
    + rewrite Hlic by reflexivity. reflexivity.
Defined.

(** The extended server end to end: [ABC123] is created for two servers;
    [S1] and [S2] validate, [S3] is refused, [S1] validates again, and the
    key has two bindings at the end. *)
Example two_servers_then_full :
  let e := Scenario.server (Some "secret") in
  let w1 := Scenario.after
              (create e (Scenario.admin (Some "secret")
                           (Scenario.creating "ABC123" (Some 2)))
                 Scenario.empty) in
  let w2 := Scenario.after (validate e (Scenario.from_server "S1") w1) in
  let w3 := Scenario.after (validate e (Scenario.from_server "S2") w2) in
  let w4 := Scenario.after (validate e (Scenario.from_server "S3") w3) in
  option_map (field "valid")
    (Scenario.answer (validate e (Scenario.from_server "S1") w1))
  = Some (Some (JBool true))
  /\ option_map (field "valid")
       (Scenario.answer (validate e (Scenario.from_server "S2") w2))
     = Some (Some (JBool true))
  /\ Scenario.answer (validate e (Scenario.from_server "S3") w3)
     = Some capacity_exceeded
  /\ option_map (field "valid")
       (Scenario.answer (validate e (Scenario.from_server "S1") w4))
     = Some (Some (JBool true))
  /\ map Server.server_id (license_servers (db w4)) = ["S1"; "S2"]
  /\ map Log.action (license_logs (db w4))
     = [Some "LICENSE_CREATED"; Some "VALIDATE_SUCCESS";
        Some "VALIDATE_SUCCESS"; Some "VALIDATE_FAILED"].
Proof. vm_compute. conjs; reflexivity. Qed.

(** [check] reports an overdue license as inactive and leaves it ACTIVE;
    the next [validate] is what stores EXPIRED. *)
Example overdue_check_then_validate :
  let e := Scenario.server None in
  let w := Scenario.store (Some 999) in
  option_map (field "active")
    (Scenario.answer (check e (Scenario.from_server "S1") w))
  = Some (Some (JBool false))
  /\ Scenario.after (check e (Scenario.from_server "S1") w)
     = {| db := db w; issued := 1 |}
  /\ map License.status
       (licenses (db (Scenario.after
                        (validate e (Scenario.from_server "S1") w))))
     = [Some "EXPIRED"].
Proof. vm_compute. conjs; reflexivity. Qed.

End ExtendedFacts.

(** * Further properties: ordering and key rendering *)

Lemma not_older_total (a b : option Z) :
  not_older a b = false -> not_older b a = true.
Proof.
  destruct a as [x|], b as [y|]; simpl; try discriminate; try reflexivity.
  intros H. apply Z.leb_gt in H. apply Z.leb_le. lia.
Qed.

Lemma not_older_trans (a b c : option Z) :
  not_older a b = true -> not_older b c = true -> not_older a c = true.
Proof.
  destruct a as [x|], b as [y|], c as [z|]; simpl; try discriminate;
    try reflexivity.
  rewrite !Z.leb_le. lia.
Qed.

Lemma insert_desc_by_perm {A} (col : A -> option Z) x (l : list A) :
  Permutation (insert_desc_by col x l) (x :: l).
Proof.
  induction l as [|y l IH]; simpl; [reflexivity|].
  destruct (not_older (col y) (col x)); [|reflexivity].
  rewrite IH. apply perm_swap.
Qed.

Lemma insert_desc_by_sorted {A} (col : A -> option Z) x (l : list A) :
  StronglySorted (fun a b => not_older (col a) (col b) = true) l ->
  StronglySorted (fun a b => not_older (col a) (col b) = true)
    (insert_desc_by col x l).
Proof.
  induction 1 as [|y l Hs IH Hall]; simpl.
  - constructor; constructor.
  - destruct (not_older (col y) (col x)) eqn:Hyx.
    + constructor; [exact IH|].
      apply Forall_forall. intros z Hz.
      apply (Permutation_in _ (insert_desc_by_perm col x l)) in Hz.
      destruct Hz as [<-|Hz]; [exact Hyx|].
      rewrite Forall_forall in Hall. now apply Hall.
    + apply not_older_total in Hyx.
      constructor; [constructor; assumption|].
      constructor; [exact Hyx|].
      apply Forall_forall. intros z Hz. rewrite Forall_forall in Hall.
      exact (not_older_trans _ _ _ Hyx (Hall z Hz)).
Qed.

Lemma order_desc_spec {A} (col : A -> option Z) (rows : list A) :
  Permutation (order_desc col rows) rows
  /\ StronglySorted (fun a b => not_older (col a) (col b) = true)
       (order_desc col rows).
Proof.
  unfold order_desc.
  assert (H : forall acc,
    StronglySorted (fun a b => not_older (col a) (col b) = true) acc ->
    Permutation (fold_left (fun acc x => insert_desc_by col x acc) rows acc)
      (rows ++ acc)
    /\ StronglySorted (fun a b => not_older (col a) (col b) = true)
         (fold_left (fun acc x => insert_desc_by col x acc) rows acc)).
  { induction rows as [|x rows IH]; intros acc Hacc; simpl.
    - split; [reflexivity | exact Hacc].
    - destruct (IH _ (insert_desc_by_sorted col x acc Hacc)) as (Hp & Hs).
      split; [|exact Hs].
      rewrite Hp, insert_desc_by_perm. symmetry. apply Permutation_middle. }
  destruct (H [] (SSorted_nil _)) as (Hp & Hs).
  rewrite app_nil_r in Hp. now split.
Qed.

Lemma hex_byte_inj (b1 b2 : byte) :
  toUpperCase (hex_of_byte b1) = toUpperCase (hex_of_byte b2) -> b1 = b2.
Proof.
  pose (digit := fun c : ascii =>
                   let n := N_of_ascii c in
                   if (n <? 58)%N then (n - 48)%N else (n - 55)%N).
  pose (dec := fun s : string =>
                 match s with
                 | String c1 (String c2 _) =>
                     Byte.of_N (16 * digit c1 + digit c2)
                 | _ => None
                 end).
  assert (Hdec : forall b, dec (toUpperCase (hex_of_byte b)) = Some b)
    by (intros b; destruct b; reflexivity).
  intros H. apply (f_equal dec) in H. rewrite !Hdec in H. now injection H.
Qed.

Lemma hex_upper_inj (a b : list byte) :
  toUpperCase (toString_hex a) = toUpperCase (toString_hex b) -> a = b.
Proof.
  revert b. induction a as [|x a IH]; intros [|y b]; cbn [toString_hex];
    rewrite ?toUpperCase_app.
  - reflexivity.
  - destruct (hex_of_byte_upper y) as (c1 & c2 & -> & _). discriminate.
  - destruct (hex_of_byte_upper x) as (c1 & c2 & -> & _). discriminate.
  - destruct (hex_of_byte_upper x) as (c1 & c2 & Hx & _).
    destruct (hex_of_byte_upper y) as (d1 & d2 & Hy & _).
    rewrite Hx, Hy. cbn [String.append]. intros H.
    injection H as H1 H2 H3.
    f_equal; [|now apply IH].
    apply hex_byte_inj. rewrite Hx, Hy. now subst.
Qed.

(** * Further properties of the reduced server *)

Module SimpleMore.
Import Simple.

Lemma database_eta (d : database) : {| licenses := licenses d |} = d.
Proof. now destruct d. Qed.

Lemma has_key_stored (k : string) (ls : list License.row) :
  existsb (has_key k) ls = true <-> In k (map License.license_key ls).
Proof.
  rewrite existsb_exists, in_map_iff. unfold has_key.
  split; intros (l & H1 & H2); exists l.
  - split; [now apply String.eqb_eq | exact H1].
  - split; [exact H2 | now apply String.eqb_eq].
Qed.

Lemma set_active_keys a key (ls : list License.row) :
  map License.license_key (map (set_active a key) ls)
  = map License.license_key ls.
Proof.
  rewrite map_map. apply map_ext. intros l. unfold set_active.
  destruct (sql_eq _ _); reflexivity.
Qed.

Lemma filter_keys_NoDup (f : License.row -> bool) (ls : list License.row) :
  NoDup (map License.license_key ls) ->
  NoDup (map License.license_key (filter f ls)).
Proof.
  induction ls as [|l ls IH]; simpl; [auto|].
  intros H. inversion H as [|? ? Hnot Hnd]; subst.
  destruct (f l); simpl; [|now apply IH].
  constructor; [|now apply IH].
  intros Hin. apply Hnot. apply in_map_iff in Hin as (x & Hx & Hin).
  apply filter_In in Hin as (Hin & _). apply in_map_iff. now exists x.
Qed.

(** What [/api/deactivate] and [/api/activate] do, whatever the storage does. *)
Lemma set_license_active_run a done (e : env) (b : Body.t) (w : world database) :
  set_license_active a done e b w =
    if negb (truthy (Body.license_key b)) then
      (Ok (json 400 [("error", JStr "Brak klucza licencji")]), w)
    else
      match fault (pool e) (issued w) with
      | Some err =>
          (Ok (json 500 [("error", JStr err)]),
           {| db := db w; issued := S (issued w) |})
      | None =>
          (Ok (json 200 [("message", JStr done)]),
           {| db := {| licenses :=
                         map (set_active a (Body.license_key b))
                           (licenses (db w)) |};
              issued := S (issued w) |})
      end.
Proof.
  unfold set_license_active, try_catch, bind, pool_query, UPDATE_active, ret.
  destruct (negb (truthy (Body.license_key b))); [reflexivity|].
  destruct (fault (pool e) (issued w)); reflexivity.
Qed.

Lemma delete_license_run (e : env) (key : string) (w : world database) :
  delete_license e key w =
    match fault (pool e) (issued w) with
    | Some err =>
        (Ok (json 500 [("error", JStr err)]),
         {| db := db w; issued := S (issued w) |})
    | None =>
        (Ok (if Nat.eqb (length (filter (has_key key) (licenses (db w)))) 0
             then json 404 [("error", JStr "Licencja nie istnieje")]
             else json 200 [("message", JStr "Licencja usunięta")]),
         {| db := {| licenses :=
                       filter (fun l => negb (has_key key l))
                         (licenses (db w)) |};
            issued := S (issued w) |})
    end.
Proof.
  unfold delete_license, try_catch, bind, pool_query, DELETE_license, ret.
  destruct (fault (pool e) (issued w)); [reflexivity|].
  destruct (Nat.eqb _ 0); reflexivity.
Qed.

Lemma filter_none_id {A} (f : A -> bool) (l : list A) :
  (forall x, In x l -> f x = true) -> filter f l = l.
Proof.
  induction l as [|x l IH]; simpl; intros H; [reflexivity|].
  rewrite (H x (or_introl eq_refl)). f_equal. apply IH. auto.
Qed.

Lemma filter_length_zero {A} (f : A -> bool) (l : list A) :
  Nat.eqb (length (filter f l)) 0 = negb (existsb f l).
Proof.
  induction l as [|x l IH]; simpl; [reflexivity|].
  destruct (f x); simpl; [reflexivity | exact IH].
Qed.

(** X1: [DELETE /api/licenses/:key] always answers.  When the storage
    accepts the statement: a stored key gives 200 and the key is no longer
    stored afterwards; a key that is not stored gives 404 and leaves the
    database as it was; in both cases the rows that remain are exactly the
    rows with another key.  When the storage rejects the statement the
    answer is 500 and the database is as it was. *)
Theorem delete_license_removes (e : env) (key : string) (w : world database) :
  exists r w',
    delete_license e key w = (Ok r, w')
    /\ (fault (pool e) (issued w) = None ->
          (In key (stored_keys (db w)) ->
             r = json 200 [("message", JStr "Licencja usunięta")])
          /\ (~ In key (stored_keys (db w)) ->
                r = json 404 [("error", JStr "Licencja nie istnieje")]
                /\ db w' = db w)
          /\ ~ In key (stored_keys (db w'))
          /\ (forall l, In l (licenses (db w')) <->
                In l (licenses (db w)) /\ License.license_key l <> key))
    /\ (fault (pool e) (issued w) <> None ->
          status_code r = 500 /\ db w' = db w).
Proof.
  rewrite delete_license_run.
  destruct (fault (pool e) (issued w)) as [err|] eqn:Hf.
  { eexists; eexists; split; [reflexivity|]. split; [discriminate|].
    intros _. split; reflexivity. }
  eexists; eexists; split; [reflexivity|]. split; [|congruence].
  intros _. cbn [db licenses]. rewrite filter_length_zero.
  assert (Hrows : forall l,
    In l (filter (fun l => negb (has_key key l)) (licenses (db w))) <->
    In l (licenses (db w)) /\ License.license_key l <> key).
  { intros l. rewrite filter_In. unfold has_key.
    destruct (String.eqb_spec (License.license_key l) key); simpl;
      intuition congruence. }
  conjs.
  - intros Hin. apply has_key_stored in Hin. unfold stored_keys in *.
    now rewrite Hin.
  - intros Hnot. destruct (existsb (has_key key) (licenses (db w))) eqn:Hex.
    { apply has_key_stored in Hex. contradiction. }
    split; [reflexivity|].
    rewrite filter_none_id; [apply database_eta|].
    intros x Hx. apply negb_true_iff.
    destruct (has_key key x) eqn:Hk; [|reflexivity].
    exfalso. apply Hnot. unfold stored_keys. apply in_map_iff. exists x.
    split; [now apply String.eqb_eq | exact Hx].
  - unfold stored_keys; cbn [licenses]. intros Hin.
    apply in_map_iff in Hin as (l & Hl & Hin). apply Hrows in Hin.
    destruct Hin as (_ & Hne). contradiction.
  - exact Hrows.
Qed.

(** X2: [POST /api/deactivate] and [POST /api/activate] refuse a missing or
    empty key with 400 before any statement is sent.  With a key and a
    storage that accepts the update they answer 200, also when no license
    has that key (then the database is as it was); the keys and creation
    times of all rows are as before, every row with the given key has the
    new flag, and the rows with another key are untouched. *)
Theorem set_active_effect (a : bool) (e : env) (b : Body.t) (w : world database) :
  let handler := if a then activate else deactivate in
  exists r w',
    handler e b w = (Ok r, w')
    /\ (truthy (Body.license_key b) = false ->
          r = json 400 [("error", JStr "Brak klucza licencji")] /\ w' = w)
    /\ (forall k, Body.license_key b = Some k -> k <> "" ->
          fault (pool e) (issued w) = None ->
          status_code r = 200
          /\ stored_keys (db w') = stored_keys (db w)
          /\ map License.created_at (licenses (db w'))
             = map License.created_at (licenses (db w))
          /\ (forall l, In l (licenses (db w')) ->
                License.license_key l = k -> License.active l = Some a)
          /\ (forall l, In l (licenses (db w)) ->
                License.license_key l <> k -> In l (licenses (db w')))
          /\ (~ In k (stored_keys (db w)) -> db w' = db w)).
Proof.
  intros handler.
  assert (Hrun : exists done, handler e b w = set_license_active a done e b w)
    by (destruct a; eexists; reflexivity).
  destruct Hrun as (done & ->). rewrite set_license_active_run.
  destruct (truthy (Body.license_key b)) eqn:Ht; cbn [negb].
  2:{ eexists; eexists; split; [reflexivity|]. split; [now split|].
      intros k Hk Hne. rewrite Hk, (truthy_nonempty k Hne) in Ht.
      discriminate. }
  destruct (fault (pool e) (issued w)) eqn:Hf.
  { eexists; eexists; split; [reflexivity|]. split; [discriminate|].
    intros; discriminate. }
  eexists; eexists; split; [reflexivity|]. split; [discriminate|].
  intros k Hk Hne _. cbn [db licenses]. rewrite Hk.
  assert (Hother : forall l, License.license_key l <> k ->
                     set_active a (Some k) l = l).
  { intros l Hl. unfold set_active, sql_eq.
    destruct (String.eqb_spec (License.license_key l) k);
      [contradiction | reflexivity]. }
  conjs.
  - reflexivity.
  - unfold stored_keys; cbn [licenses]. apply set_active_keys.
  - rewrite map_map. apply map_ext. intros l. unfold set_active.
    destruct (sql_eq _ _); reflexivity.
  - intros l Hin Hl. apply in_map_iff in Hin as (x & <- & _).
    unfold set_active, sql_eq in *.
    destruct (String.eqb_spec (License.license_key x) k) as [_|Hx];
      [reflexivity|].
    contradiction.
  - intros l Hin Hl. apply in_map_iff. exists l. split; [|exact Hin].
    now apply Hother.
  - intros Hnot. rewrite <- (database_eta (db w)) at 2. f_equal.
    rewrite <- (map_id (licenses (db w))) at 2.
    apply map_ext_in. intros l Hin. apply Hother. intros Hl.
    apply Hnot. unfold stored_keys. apply in_map_iff. now exists l.
Qed.

Lemma find_set_active a k (ls : list License.row) :
  find (has_key k) (map (set_active a (Some k)) ls)
  = option_map (set_active a (Some k)) (find (has_key k) ls).
Proof.
  induction ls as [|l ls IH]; [reflexivity|]. cbn [map find].
  assert (Hk : has_key k (set_active a (Some k) l) = has_key k l).
  { unfold set_active. destruct (sql_eq _ _); reflexivity. }
  rewrite Hk. destruct (has_key k l); [reflexivity | exact IH].
Qed.

Lemma verify_run (e : env) (b : Body.t) (w : world database) k :
  Body.license_key b = Some k -> k <> "" ->
  fault (pool e) (issued w) = None ->
  verify e b w =
    (Ok (match find (has_key k) (licenses (db w)) with
         | None =>
             json 200 [("valid", JBool false);
                       ("message", JStr "Licencja nie istnieje w systemie")]
         | Some l =>
             if negb (truthy (License.active l)) then
               json 200 [("valid", JBool false);
                         ("message", JStr "Licencja została dezaktywowana")]
             else
               json 200 [("valid", JBool true);
                         ("message", JStr "Licencja aktywna");
                         ("license_key", JStr (License.license_key l))]
         end),
     {| db := db w; issued := S (issued w) |}).
Proof.
  intros Hk Hne Hf. unfold verify, try_catch, bind.
  rewrite Hk, (truthy_nonempty k Hne). cbn [negb].
  rewrite pool_query_run by exact Hf. cbn [SELECT_license].
  change (fun l => sql_eq (Some (License.license_key l)) (Some k))
    with (has_key k).
  destruct (find (has_key k) (licenses (db w))) as [l|] eqn:Hfind.
  - destruct (filter_cons_find _ _ _ Hfind) as (rest & ->).
    destruct (negb (truthy (License.active l))); reflexivity.
  - rewrite (filter_nil_find _ _ Hfind). reflexivity.
Qed.

(** X3: once [/api/deactivate] has answered 200 for a key, [/api/verify] of
    that key never answers [valid:true], whatever the storage does then;
    once [/api/activate] has answered 200 for a stored key, [/api/verify]
    of that key answers [valid:true] as soon as its lookup goes through,
    whatever the flag was before. *)
Theorem toggle_then_verify
    (e1 e2 : env) (b : Body.t) (w : world database) k :
  Body.license_key b = Some k -> k <> "" ->
  fault (pool e1) (issued w) = None ->
  (exists w1 r2 w2,
     deactivate e1 b w
     = (Ok (json 200 [("message", JStr "Licencja dezaktywowana")]), w1)
     /\ verify e2 b w1 = (Ok r2, w2)
     /\ field "valid" r2 = Some (JBool false))
  /\ (In k (stored_keys (db w)) ->
      fault (pool e2) (S (issued w)) = None ->
      exists w1 w2,
        activate e1 b w
        = (Ok (json 200 [("message", JStr "Licencja reaktywowana")]), w1)
        /\ verify e2 b w1
           = (Ok (json 200 [("valid", JBool true);
                            ("message", JStr "Licencja aktywna");
                            ("license_key", JStr k)]), w2)).
Proof.
  intros Hk Hne Hf. unfold deactivate, activate.
  rewrite !set_license_active_run, Hk, (truthy_nonempty k Hne), Hf.
  cbn [negb]. split.
  - exists {| db := {| licenses := map (set_active false (Some k))
                                     (licenses (db w)) |};
              issued := S (issued w) |}.
    destruct (fault (pool e2) (S (issued w))) as [err|] eqn:Hf2.
    + unfold verify, try_catch, bind, pool_query.
      rewrite Hk, (truthy_nonempty k Hne). cbn [negb]. cbv beta.
      cbn [issued]. rewrite Hf2.
      eexists; eexists. split; [reflexivity|]. split; reflexivity.
    + rewrite (verify_run e2 b _ k Hk Hne) by exact Hf2. cbn [db licenses].
      rewrite find_set_active.
      eexists; eexists. split; [reflexivity|]. split; [reflexivity|].
      destruct (find (has_key k) (licenses (db w))) as [l|] eqn:Hfind;
        [|reflexivity].
      apply find_some in Hfind as (_ & Hl). unfold has_key in Hl.
      cbn [option_map]. unfold set_active, sql_eq. rewrite Hl.
      reflexivity.
  - intros Hin Hf2. eexists; eexists. split; [reflexivity|].
    rewrite (verify_run e2 b _ k Hk Hne) by exact Hf2. cbn [db licenses].
    rewrite find_set_active.
    apply has_key_stored in Hin.
    destruct (find (has_key k) (licenses (db w))) as [l|] eqn:Hfind.
    + apply find_some in Hfind as (_ & Hl). unfold has_key in Hl.
      cbn [option_map]. unfold set_active, sql_eq. rewrite Hl. cbn.
      apply String.eqb_eq in Hl. now rewrite Hl.
    + exfalso. apply existsb_exists in Hin as (x & Hx & Hkx).
      pose proof (find_none _ _ Hfind x Hx) as Hc. congruence.
Qed.

Lemma toggle_then_verify_witness :
  let e := Scenario.simple_server in
  let b := Scenario.with_key (Some (fresh_key e)) in
  let w := Scenario.after (generate_key e Scenario.simple_empty) in
  exists w1 r2 w2,
    deactivate e b w
    = (Ok (json 200 [("message", JStr "Licencja dezaktywowana")]), w1)
    /\ verify e b w1 = (Ok r2, w2)
    /\ field "valid" r2 = Some (JBool false).
Proof.
  intros e b w.
  apply (toggle_then_verify e e b w (fresh_key e)).
  - reflexivity.
  - discriminate.
  - reflexivity.
Defined.

(** X4: [GET /api/licenses] always answers and never changes the database.
    When the storage accepts the query the answer is 200 with one entry per
    stored license: the listed rows are a rearrangement of the table in
    which no row comes before a row with a later creation time (rows
    without a creation time come first).  Otherwise the answer is 500. *)
Theorem list_licenses_newest_first (e : env) (w : world database) :
  exists r w',
    list_licenses e w = (Ok r, w')
    /\ db w' = db w
    /\ (fault (pool e) (issued w) = None ->
          exists rows,
            r = {| status_code := 200; body := JArr (map listed rows) |}
            /\ Permutation rows (licenses (db w))
            /\ length rows = length (licenses (db w))
            /\ StronglySorted
                 (fun a b => not_older (License.created_at a)
                               (License.created_at b) = true) rows)
    /\ (fault (pool e) (issued w) <> None -> status_code r = 500).
Proof.
  unfold list_licenses, try_catch, bind, pool_query, SELECT_licenses, ret.
  destruct (fault (pool e) (issued w)) eqn:Hf.
  - eexists; eexists. split; [reflexivity|]. split; [reflexivity|].
    split; [discriminate | reflexivity].
  - eexists; eexists. split; [reflexivity|]. split; [reflexivity|].
    split; [|congruence]. intros _.
    destruct (order_desc_spec License.created_at (licenses (db w)))
      as (Hp & Hs).
    eexists. split; [reflexivity|]. split; [exact Hp|].
    split; [now apply Permutation_length | exact Hs].
Qed.

(** X5: two keys drawn by [GET /api/generate-key] are equal exactly when
    the sixteen random bytes behind them are equal: the upper-case
    hexadecimal rendering loses nothing. *)
Theorem fresh_key_injective (e1 e2 : env) :
  fresh_key e1 = fresh_key e2 <-> randomBytes e1 16 = randomBytes e2 16.
Proof.
  unfold fresh_key. split.
  - apply hex_upper_inj.
  - intros ->. reflexivity.
Qed.

(** X6: if the stored keys are pairwise distinct, they still are after any
    request to the reduced server (generate, verify, list, deactivate,
    activate, delete, health), whatever the storage does. *)
Theorem simple_keys_stay_unique
    (e : env) (b : Body.t) (key : string) (w : world database) :
  NoDup (stored_keys (db w)) ->
  NoDup (stored_keys (db (snd (generate_key e w))))
  /\ NoDup (stored_keys (db (snd (verify e b w))))
  /\ NoDup (stored_keys (db (snd (list_licenses e w))))
  /\ NoDup (stored_keys (db (snd (deactivate e b w))))
  /\ NoDup (stored_keys (db (snd (activate e b w))))
  /\ NoDup (stored_keys (db (snd (delete_license e key w))))
  /\ NoDup (stored_keys (db (snd (health e w)))).
Proof.
  intros Hnd. conjs.
  - unfold generate_key, try_catch, bind, pool_query, INSERT_license, ret.
    destruct (fault (pool e) (issued w)); [exact Hnd|].
    destruct (existsb (has_key (fresh_key e)) (licenses (db w))) eqn:Hex;
      [exact Hnd|].
    unfold stored_keys in *. cbn [snd db licenses]. rewrite map_app.
    apply NoDup_app. conjs.
    + exact Hnd.
    + constructor; [intros [] | constructor].
    + intros x Hx [<-|[]]. cbn [License.license_key] in Hx.
      apply has_key_stored in Hx. congruence.
  - unfold verify, try_catch, bind, pool_query, SELECT_license, ret.
    destruct (negb (truthy (Body.license_key b))); [exact Hnd|].
    destruct (fault (pool e) (issued w)); [exact Hnd|].
    destruct (filter _ _) as [|l rest]; [exact Hnd|].
    destruct (negb (truthy (License.active l))); exact Hnd.
  - unfold list_licenses, try_catch, bind, pool_query, SELECT_licenses, ret.
    destruct (fault (pool e) (issued w)); exact Hnd.
  - unfold deactivate. rewrite set_license_active_run.
    destruct (negb _); [exact Hnd|].
    destruct (fault (pool e) (issued w)); [exact Hnd|].
    unfold stored_keys in *. cbn [snd db licenses].
    now rewrite set_active_keys.
  - unfold activate. rewrite set_license_active_run.
    destruct (negb _); [exact Hnd|].
    destruct (fault (pool e) (issued w)); [exact Hnd|].
    unfold stored_keys in *. cbn [snd db licenses].
    now rewrite set_active_keys.
  - rewrite delete_license_run.
    destruct (fault (pool e) (issued w)); [exact Hnd|].
    unfold stored_keys in *. cbn [snd db licenses].
    now apply filter_keys_NoDup.
  - unfold health, try_catch, bind, pool_query, SELECT_NOW, ret.
    destruct (fault (pool e) (issued w)); exact Hnd.
Qed.

Lemma simple_keys_stay_unique_witness :
  let e := Scenario.simple_server in
  let w := Scenario.after (generate_key e Scenario.simple_empty) in
  NoDup (stored_keys (db (snd (generate_key e w))))
  /\ NoDup (stored_keys (db (snd (delete_license e "AB" w)))).
Proof.
  intros e w.
  destruct (simple_keys_stay_unique e (Scenario.with_key None) "AB" w)
    as (H1 & _ & _ & _ & _ & H6 & _).
  - vm_compute. constructor; [intros [] | constructor].
  - split; [exact H1 | exact H6].
Defined.

End SimpleMore.

(** * Further properties of the extended server *)

Module ExtendedMore.
Import Extended ExtendedFacts.

Lemma same_terms_id : same_terms (fun l => l).
Proof. intros l. conjs; reflexivity. Qed.

Lemma same_terms_update key (f : License.row -> License.row) :
  same_terms f -> same_terms (fun l => if has_key key l then f l else l).
Proof.
  intros Hf l. destruct (has_key key l); [apply Hf | conjs; reflexivity].
Qed.

Lemma same_terms_status s : same_terms (License.set_status s).
Proof. intros l. conjs; reflexivity. Qed.

Lemma same_terms_last_check t : same_terms (License.set_last_check t).
Proof. intros l. conjs; reflexivity. Qed.

Lemma upsert_cases (b : Body.t) now (d d' : database) k sid :
  Body.license_key b = Some k -> Body.server_id b = Some sid ->
  UPSERT_server b now d = inr (tt, d') ->
  licenses d' = licenses d /\ license_logs d' = license_logs d
  /\ ((existsb (is_binding (Some k) (Some sid)) (license_servers d) = true
       /\ license_servers d'
          = map (fun s => if is_binding (Some k) (Some sid) s
                          then refresh now b s else s) (license_servers d))
      \/ (existsb (is_binding (Some k) (Some sid)) (license_servers d) = false
          /\ existsb (has_key (Some k)) (licenses d) = true
          /\ license_servers d'
             = (license_servers d ++ [new_binding now sid b])%list)).
Proof.
  intros Hk Hs. unfold UPSERT_server. rewrite Hs, Hk.
  destruct (existsb (is_binding (Some k) (Some sid)) (license_servers d)).
  - intros H. injection H as <-. conjs; try reflexivity. left. now split.
  - destruct (existsb (has_key (Some k)) (licenses d)); cbn [negb];
      [|discriminate].
    intros H. injection H as <-. conjs; try reflexivity. right. now conjs.
Qed.

Lemma upsert_frame (b : Body.t) now (d d' : database) :
  UPSERT_server b now d = inr (tt, d') ->
  licenses d' = licenses d /\ license_logs d' = license_logs d.
Proof.
  unfold UPSERT_server.
  destruct (Body.server_id b) as [sid|]; [|discriminate].
  destruct (existsb _ (license_servers d)).
  - intros H. injection H as <-. now split.
  - destruct (match Body.license_key b with Some _ => _ | None => _ end);
      [discriminate|].
    intros H. injection H as <-. now split.
Qed.

(** Everything a call of [validate] can do, whatever the storage does. *)
Lemma validate_effects (e : env) (b : Body.t) (w : world database) :
  exists r w',
    validate e b w = (Ok r, w')
    /\ ((status_code r = 200 /\ field "valid" r = Some (JBool true))
        \/ (In (status_code r) [400; 403; 404; 500]
            /\ field "valid" r = Some (JBool false)))
    /\ (exists g, same_terms g
                  /\ licenses (db w') = map g (licenses (db w)))
    /\ (license_servers (db w') = license_servers (db w)
        \/ exists k sid l d,
             Body.license_key b = Some k /\ k <> ""
             /\ Body.server_id b = Some sid /\ sid <> ""
             /\ find (has_key (Some k)) (licenses (db w)) = Some l
             /\ License.status l = Some "ACTIVE"
             /\ overdue e l = false
             /\ (existsb (is_binding (Some k) (Some sid))
                   (license_servers (db w)) = true
                 \/ bindings_of k (db w) < ToNumber (License.max_servers l))
             /\ UPSERT_server b (CURRENT_TIMESTAMP (pool e) (issued w + 3))
                  (db w) = inr (tt, d)
             /\ license_servers (db w') = license_servers d)
    /\ (exists extra, license_logs (db w')
                      = (license_logs (db w) ++ extra)%list
                      /\ (length extra <= 1)%nat).
Proof.
  assert (Hid : exists g, same_terms g
                  /\ licenses (db w) = map g (licenses (db w))).
  { exists (fun l => l). split; [apply same_terms_id|]. now rewrite map_id. }
  assert (Hlog0 : exists extra, license_logs (db w)
                    = (license_logs (db w) ++ extra)%list
                    /\ (length extra <= 1)%nat).
  { exists []. rewrite app_nil_r. split; [reflexivity | simpl; lia]. }
  assert (Hlog1 : forall x, exists extra,
            (license_logs (db w) ++ [x])%list
            = (license_logs (db w) ++ extra)%list
            /\ (length extra <= 1)%nat).
  { intros x. exists [x]. split; [reflexivity | simpl; lia]. }
  unfold validate, try_catch, bind.
  destruct (truthy (Body.license_key b)) eqn:Htk; cbn [negb orb].
  2:{ eexists; eexists; split; [reflexivity|]. conjs; auto.
      right. split; [simpl; auto | reflexivity]. }
  destruct (truthy (Body.server_id b)) eqn:Hts; cbn [negb orb].
  2:{ eexists; eexists; split; [reflexivity|]. conjs; auto.
      right. split; [simpl; auto | reflexivity]. }
  destruct (truthy_Some_inv _ Htk) as (k & Hk & Hne).
  destruct (truthy_Some_inv _ Hts) as (sid & Hs & Hsne).
  unfold pool_query at 1.
  destruct (fault (pool e) (issued w)).
  { eexists; eexists; split; [reflexivity|]. conjs; auto.
    right. split; [simpl; auto 6 | reflexivity]. }
  cbn [SELECT_license]. rewrite Hk.
  destruct (find (has_key (Some k)) (licenses (db w))) as [l|] eqn:Hfind.
  2:{ rewrite (filter_nil_find _ _ Hfind). rewrite logAction_run.
      eexists; eexists; split; [reflexivity|]. cbn [db issued].
      destruct (fault (pool e) (S (issued w)));
        cbn [licenses license_servers license_logs]; conjs; auto;
        right; (split; [simpl; auto 6 | reflexivity]). }
  destruct (filter_cons_find _ _ _ Hfind) as (rest & ->).
  destruct (strict_ne (License.status l) (Some "ACTIVE")) eqn:Hst.
  { rewrite logAction_run.
    eexists; eexists; split; [reflexivity|]. cbn [db issued].
    destruct (fault (pool e) (S (issued w)));
      cbn [licenses license_servers license_logs]; conjs; auto;
      right; (split; [simpl; auto 6 | reflexivity]). }
  assert (Hact : License.status l = Some "ACTIVE").
  { apply strict_eq_iff. unfold strict_ne in Hst.
    now apply negb_false_iff in Hst. }
  destruct (overdue e l) eqn:Hover.
  { unfold pool_query at 1. cbn [db issued].
    destruct (fault (pool e) (S (issued w))).
    { eexists; eexists; split; [reflexivity|]. conjs; auto.
      right. split; [simpl; auto 6 | reflexivity]. }
    cbn [UPDATE_status]. rewrite logAction_run.
    eexists; eexists; split; [reflexivity|]. cbn [db issued].
    assert (Hg : exists g, same_terms g
              /\ licenses (update_licenses (Some k)
                             (License.set_status (Some "EXPIRED")) (db w))
                 = map g (licenses (db w))).
    { eexists. split; [|reflexivity].
      apply same_terms_update, same_terms_status. }
    destruct (fault (pool e) (S (S (issued w))));
      cbn [licenses license_servers license_logs update_licenses] in *;
      conjs; auto; right; (split; [simpl; auto 6 | reflexivity]). }
  unfold pool_query at 1. cbn [db issued].
  destruct (fault (pool e) (S (issued w))).
  { eexists; eexists; split; [reflexivity|]. conjs; auto.
    right. split; [simpl; auto 6 | reflexivity]. }
  cbn [COUNT_servers].
  unfold pool_query at 1. cbn [db issued].
  destruct (fault (pool e) (S (S (issued w)))).
  { eexists; eexists; split; [reflexivity|]. conjs; auto.
    right. split; [simpl; auto 6 | reflexivity]. }
  cbn [SELECT_server]. rewrite Hs, filter_nil_existsb.
  destruct (negb (existsb (is_binding (Some k) (Some sid))
                    (license_servers (db w)))
            && (Z.of_nat (length (filter (bound_to (Some k))
                                    (license_servers (db w))))
                >=? ToNumber (License.max_servers l))) eqn:Hfull.
  { rewrite logAction_run.
    eexists; eexists; split; [reflexivity|]. cbn [db issued].
    destruct (fault (pool e) (S (S (S (issued w)))));
      cbn [licenses license_servers license_logs]; conjs; auto;
      right; (split; [simpl; auto 6 | reflexivity]). }
  assert (Hadmit : existsb (is_binding (Some k) (Some sid))
                     (license_servers (db w)) = true
                   \/ bindings_of k (db w)
                      < ToNumber (License.max_servers l)).
  { apply andb_false_iff in Hfull as [H|H].
    - left. now apply negb_false_iff in H.
    - right. unfold bindings_of.
      destruct (Z.geb_spec
                  (Z.of_nat (length (filter (bound_to (Some k))
                                       (license_servers (db w)))))
                  (ToNumber (License.max_servers l))); [discriminate | lia]. }
  unfold pool_query at 1. cbn [db issued].
  destruct (fault (pool e) (S (S (S (issued w))))).
  { eexists; eexists; split; [reflexivity|]. conjs; auto.
    right. split; [simpl; auto 6 | reflexivity]. }
  destruct (UPSERT_server b _ (db w)) as [msg|[[] d]] eqn:Hup.
  { eexists; eexists; split; [reflexivity|]. conjs; auto.
    right. split; [simpl; auto 6 | reflexivity]. }
  assert (Hd : licenses d = licenses (db w)
               /\ license_logs d = license_logs (db w)).
  { exact (upsert_frame _ _ _ _ Hup). }
  destruct Hd as (Hdl & Hdg).
  assert (Hbind : exists k0 sid0 l0 d0,
            Body.license_key b = Some k0 /\ k0 <> ""
            /\ Body.server_id b = Some sid0 /\ sid0 <> ""
            /\ find (has_key (Some k0)) (licenses (db w)) = Some l0
            /\ License.status l0 = Some "ACTIVE"
            /\ overdue e l0 = false
            /\ (existsb (is_binding (Some k0) (Some sid0))
                  (license_servers (db w)) = true
                \/ bindings_of k0 (db w) < ToNumber (License.max_servers l0))
            /\ UPSERT_server b (CURRENT_TIMESTAMP (pool e) (issued w + 3))
                 (db w) = inr (tt, d0)
            /\ license_servers d = license_servers d0).
  { exists k, sid, l, d. conjs; auto.
    replace (issued w + 3)%nat with (S (S (S (issued w)))) by lia.
    exact Hup. }
  rewrite Hk, Hs in Hbind.
  assert (Hlogd0 : exists extra, license_logs d
                     = (license_logs (db w) ++ extra)%list
                     /\ (length extra <= 1)%nat) by (rewrite Hdg; exact Hlog0).
  assert (Hidd : exists g, same_terms g
                   /\ licenses d = map g (licenses (db w)))
    by (rewrite Hdl; exact Hid).
  unfold pool_query at 1. cbn [db issued].
  destruct (fault (pool e) (S (S (S (S (issued w)))))).
  { eexists; eexists; split; [reflexivity|]. cbn [db].
    conjs; [right; split; [simpl; auto 6 | reflexivity]
           | exact Hidd | right; exact Hbind | exact Hlogd0]. }
  cbn [UPDATE_last_check]. rewrite logAction_run.
  eexists; eexists; split; [reflexivity|]. cbn [db issued].
  assert (Hg : exists g, same_terms g
            /\ licenses (update_licenses (Some k)
                           (License.set_last_check
                              (Some (CURRENT_TIMESTAMP (pool e)
                                       (S (S (S (S (issued w))))))))
                           d)
               = map g (licenses (db w))).
  { eexists. split; [|cbn [update_licenses licenses]; rewrite Hdl;
                      reflexivity].
    apply same_terms_update, same_terms_last_check. }
  destruct (fault (pool e) (S (S (S (S (S (issued w)))))));
    cbn [licenses license_servers license_logs update_licenses] in *;
    (conjs; [left; split; reflexivity | exact Hg | right; exact Hbind |]).
  - exact Hlogd0.
  - rewrite Hdg. apply Hlog1.
Qed.

Lemma find_same_terms key (g : License.row -> License.row)
    (ls : list License.row) :
  same_terms g ->
  find (has_key key) (map g ls) = option_map g (find (has_key key) ls).
Proof.
  intros Hg. induction ls as [|l ls IH]; [reflexivity|]. cbn [map find].
  assert (Hk : has_key key (g l) = has_key key l).
  { unfold has_key. now rewrite (proj1 (Hg l)). }
  rewrite Hk. destruct (has_key key l); [reflexivity | exact IH].
Qed.

Lemma same_terms_keys (g : License.row -> License.row) (ls : list License.row) :
  same_terms g ->
  map License.license_key (map g ls) = map License.license_key ls.
Proof.
  intros Hg. rewrite map_map. apply map_ext. intros l. apply Hg.
Qed.

Lemma refresh_pairs key sid now b (ss : list Server.row) :
  map binding_pair
    (map (fun s => if is_binding key sid s then refresh now b s else s) ss)
  = map binding_pair ss.
Proof.
  rewrite map_map. apply map_ext. intros s.
  destruct (is_binding key sid s); reflexivity.
Qed.

(** The number of bindings of a key only depends on the (key, server id)
    pairs. *)
Lemma bindings_by_pairs key (ss ss' : list Server.row) :
  map binding_pair ss = map binding_pair ss' ->
  length (filter (bound_to key) ss) = length (filter (bound_to key) ss').
Proof.
  revert ss'. induction ss as [|s ss IH]; intros [|s' ss'] H;
    try discriminate; [reflexivity|].
  cbn [map] in H.
  assert (Hp : fst (binding_pair s) = fst (binding_pair s')) by congruence.
  assert (Hrest : map binding_pair ss = map binding_pair ss') by congruence.
  cbn [filter].
  assert (Hb : bound_to key s = bound_to key s').
  { unfold bound_to. cbn in Hp. now rewrite Hp. }
  rewrite Hb. destruct (bound_to key s'); cbn [length];
    now rewrite (IH ss' Hrest).
Qed.

Lemma is_binding_pair k sid (ss : list Server.row) :
  existsb (is_binding (Some k) (Some sid)) ss = true <->
  In (Some k, sid) (map binding_pair ss).
Proof.
  rewrite is_binding_exists, in_map_iff. unfold binding_pair.
  split.
  - intros (s & Hin & Hk & Hs). exists s. split; [|exact Hin].
    now rewrite Hk, Hs.
  - intros (s & Hp & Hin). injection Hp as Hk Hs. now exists s.
Qed.

(** What a call of [validate] does to the (key, server id) pairs. *)
Lemma validate_pairs (e : env) (b : Body.t) (w : world database) :
  let w' := snd (validate e b w) in
  (exists g, same_terms g /\ licenses (db w') = map g (licenses (db w)))
  /\ (map binding_pair (license_servers (db w'))
      = map binding_pair (license_servers (db w))
      \/ exists k sid l,
           Body.license_key b = Some k /\ Body.server_id b = Some sid
           /\ find (has_key (Some k)) (licenses (db w)) = Some l
           /\ bindings_of k (db w) < ToNumber (License.max_servers l)
           /\ ~ In (Some k, sid) (map binding_pair (license_servers (db w)))
           /\ map binding_pair (license_servers (db w'))
              = (map binding_pair (license_servers (db w))
                   ++ [(Some k, sid)])%list).
Proof.
  destruct (validate_effects e b w)
    as (r & w' & Hrun & _ & Hlic & Hbind & _).
  rewrite Hrun. cbn [snd]. split; [exact Hlic|].
  destruct Hbind as [->|(k & sid & l & d & Hk & _ & Hs & _ & Hfind & _ & _
                         & Hadmit & Hup & ->)]; [now left|].
  destruct (upsert_cases _ _ _ _ k sid Hk Hs Hup)
    as (_ & _ & [(_ & ->)|(Hex & _ & ->)]).
  - left. apply refresh_pairs.
  - right. exists k, sid, l. conjs; auto.
    + destruct Hadmit as [H|H]; [congruence | exact H].
    + intros Hin. apply is_binding_pair in Hin. congruence.
    + rewrite map_app. cbn [map]. unfold binding_pair at 2.
      cbn [new_binding Server.license_key Server.server_id].
      now rewrite Hk.
Qed.

Lemma has_key_eq k (l : License.row) :
  has_key (Some k) l = true <-> License.license_key l = k.
Proof. unfold has_key, sql_eq. apply String.eqb_eq. Qed.

Lemma find_key_stored k (ls : list License.row) l :
  find (has_key (Some k)) ls = Some l ->
  In k (map License.license_key ls).
Proof.
  intros H. apply find_some in H as (Hin & Hk). apply has_key_eq in Hk.
  apply in_map_iff. now exists l.
Qed.

(** X7: [POST /api/license/validate] always answers; the status is one of
    200, 400, 403, 404 and 500; every answer carries a [valid] flag, and
    the flag is true exactly when the status is 200.  A request whose key
    or server id is missing or empty gets 400 and reaches the storage not
    at all. *)
Theorem validate_answer_shape (e : env) (b : Body.t) (w : world database) :
  exists r w',
    validate e b w = (Ok r, w')
    /\ In (status_code r) [200; 400; 403; 404; 500]
    /\ (exists v, field "valid" r = Some (JBool v)
                  /\ (v = true <-> status_code r = 200))
    /\ (truthy (Body.license_key b) = false
        \/ truthy (Body.server_id b) = false ->
        status_code r = 400 /\ w' = w).
Proof.
  destruct (validate_effects e b w) as (r & w' & Hrun & Hclass & _).
  exists r, w'. split; [exact Hrun|]. conjs.
  - destruct Hclass as [(-> & _)|(Hin & _)]; simpl in *; intuition.
  - destruct Hclass as [(Hc & Hv)|(Hin & Hv)].
    + exists true. split; [exact Hv|]. now split.
    + exists false. split; [exact Hv|]. split; [discriminate|].
      intros Hc. rewrite Hc in Hin. simpl in Hin.
      intuition discriminate.
  - intros Hmissing. unfold validate in Hrun.
    assert (Hcond : negb (truthy (Body.license_key b))
                    || negb (truthy (Body.server_id b)) = true).
    { destruct Hmissing as [-> | ->]; [reflexivity|].
      apply orb_true_r. }
    rewrite Hcond in Hrun. injection Hrun as <- <-. now split.
Qed.

(** X8: if, for every stored license, the bindings of its key do not
    outnumber its [max_servers], the same holds after any call of
    [/api/license/validate], whatever the request and whatever the storage
    does. *)
Theorem validate_keeps_capacity (e : env) (b : Body.t) (w : world database) :
  capacity_respected (db w) ->
  capacity_respected (db (snd (validate e b w))).
Proof.
  intros Hcap k l' Hfind'.
  destruct (validate_pairs e b w) as ((g & Hg & Hlic) & Hpairs).
  rewrite Hlic, find_same_terms in Hfind' by exact Hg.
  destruct (find (has_key (Some k)) (licenses (db w))) as [l|] eqn:Hfind;
    [|discriminate].
  injection Hfind' as <-.
  rewrite (proj1 (proj2 (proj2 (proj2 (proj2 (proj2 (Hg l))))))).
  specialize (Hcap k l Hfind). unfold bindings_of in *.
  destruct Hpairs as [Hsame|(k0 & sid & l0 & Hk & Hs & Hfind0 & Hlt & _ & Happ)].
  - now rewrite (bindings_by_pairs _ _ _ Hsame).
  - assert (Hcount :
      length (filter (bound_to (Some k))
                (license_servers (db (snd (validate e b w)))))
      = (length (filter (bound_to (Some k)) (license_servers (db w)))
         + (if String.eqb k0 k then 1 else 0))%nat).
    { pose (extra := {| Server.license_key := Some k0;
                        Server.server_id := sid;
                        Server.server_ip := None; Server.server_port := None;
                        Server.plugin_version := None;
                        Server.minecraft_version := None;
                        Server.online_players := None;
                        Server.max_players := None;
                        Server.last_seen := None |}).
      rewrite (bindings_by_pairs _ _ (license_servers (db w) ++ [extra]))
        by (rewrite Happ, map_app; reflexivity).
      rewrite filter_app, length_app. f_equal. cbn.
      destruct (String.eqb k0 k); reflexivity. }
    rewrite Hcount.
    destruct (String.eqb_spec k0 k) as [->|_]; [|lia].
    rewrite Hfind in Hfind0. injection Hfind0 as <-.
    unfold bindings_of in Hlt. lia.
Qed.

Lemma validate_keeps_capacity_witness :
  capacity_respected
    (db (snd (validate (Scenario.server None) (Scenario.from_server "S3")
                (Scenario.store None))))
  /\ capacity_respected
       (db (snd (validate (Scenario.server None) (Scenario.from_server "S1")
                   (Scenario.store None)))).
Proof.
  assert (H : capacity_respected (db (Scenario.store None))).
  { intros k l. cbn [Scenario.store db licenses find].
    destruct (has_key (Some k) (Scenario.abc123 None)) eqn:Hk; [|discriminate].
    intros Hl. injection Hl as <-. apply has_key_eq in Hk. subst k.
    vm_compute. discriminate. }
  split; apply validate_keeps_capacity; exact H.
Defined.

(** X9: a call of [/api/license/validate] never removes a binding and never
    changes a binding of another key or of another server id; the list of
    bound (key, server id) pairs either stays as it was or gains, at its
    end, the pair of the request, which was not bound before. *)
Theorem validate_binding_frame (e : env) (b : Body.t) (w : world database) :
  let w' := snd (validate e b w) in
  (forall s, In s (license_servers (db w)) ->
     Server.license_key s <> Body.license_key b
     \/ Some (Server.server_id s) <> Body.server_id b ->
     In s (license_servers (db w')))
  /\ (map binding_pair (license_servers (db w'))
      = map binding_pair (license_servers (db w))
      \/ exists k sid,
           Body.license_key b = Some k /\ Body.server_id b = Some sid
           /\ ~ In (Some k, sid) (map binding_pair (license_servers (db w)))
           /\ map binding_pair (license_servers (db w'))
              = (map binding_pair (license_servers (db w))
                   ++ [(Some k, sid)])%list).
Proof.
  intros w'. split.
  - subst w'.
    destruct (validate_effects e b w)
      as (r & w' & Hrun & _ & _ & Hbind & _).
    rewrite Hrun. cbn [snd]. intros s Hin Hother.
    destruct Hbind as [->|(k & sid & l & d & Hk & _ & Hs & _ & _ & _ & _
                           & _ & Hup & ->)]; [exact Hin|].
    destruct (upsert_cases _ _ _ _ k sid Hk Hs Hup)
      as (_ & _ & [(_ & ->)|(_ & _ & ->)]).
    + apply in_map_iff. exists s. split; [|exact Hin].
      destruct (is_binding (Some k) (Some sid) s) eqn:Hb; [|reflexivity].
      exfalso. unfold is_binding, sql_eq in Hb.
      apply andb_true_iff in Hb as (H1 & H2).
      destruct (Server.license_key s) as [ks|] eqn:Hks; [|discriminate].
      apply String.eqb_eq in H1, H2. subst.
      rewrite Hk, Hs in Hother. destruct Hother as [H|H]; now apply H.
    + apply in_or_app. now left.
  - destruct (validate_pairs e b w) as (_ & [H|H]); [now left|].
    right. destruct H as (k & sid & l & Hk & Hs & _ & _ & Hnot & Happ).
    exists k, sid. now conjs.
Qed.

Lemma check_frame (e : env) (b : Body.t) (w : world database) :
  db (snd (check e b w)) = db w.
Proof.
  unfold check, try_catch, bind, pool_query, SELECT_license, ret.
  destruct (negb (truthy (Body.license_key b))); [reflexivity|].
  destruct (fault (pool e) (issued w)); [reflexivity|].
  destruct (filter _ _); reflexivity.
Qed.

Lemma admin_licenses_frame (e : env) (r : Req.t) (w : world database) :
  db (snd (admin_licenses e r w)) = db w.
Proof.
  unfold admin_licenses, try_catch, bind, pool_query,
    SELECT_licenses_with_servers, ret. cbv zeta.
  destruct (strict_ne _ _); [reflexivity|].
  destruct (fault (pool e) (issued w)); reflexivity.
Qed.

(** [disable] writes status and reason of licenses and the log, nothing
    else, whatever the storage does. *)
Lemma disable_frame (e : env) (r : Req.t) (w : world database) :
  map License.license_key (licenses (db (snd (disable e r w))))
  = map License.license_key (licenses (db w))
  /\ map License.max_servers (licenses (db (snd (disable e r w))))
     = map License.max_servers (licenses (db w))
  /\ map License.expires_at (licenses (db (snd (disable e r w))))
     = map License.expires_at (licenses (db w))
  /\ license_servers (db (snd (disable e r w))) = license_servers (db w).
Proof.
  unfold disable, try_catch, bind, pool_query, UPDATE_status_reason, ret.
  cbv zeta.
  destruct (strict_ne _ _); [now conjs|].
  destruct (fault (pool e) (issued w)); [now conjs|].
  rewrite logAction_run. cbn [snd db issued].
  assert (H : forall (A : Type) (col : License.row -> A) key s why,
            (forall l, col (License.set_reason why (License.set_status s l))
                       = col l) ->
            map col (map (fun l => if has_key key l
                                   then License.set_reason why
                                          (License.set_status s l)
                                   else l) (licenses (db w)))
            = map col (licenses (db w))).
  { intros A col key s why Hcol. rewrite map_map. apply map_ext. intros l.
    destruct (has_key key l); [apply Hcol | reflexivity]. }
  destruct (fault (pool e) (S (issued w)));
    cbn [licenses license_servers update_licenses];
    conjs; try reflexivity; apply H; reflexivity.
Qed.

(** [create] appends at most one license, with a key that was not stored,
    and touches no binding, whatever the storage does. *)
Lemma create_frame (e : env) (r : Req.t) (w : world database) :
  license_servers (db (snd (create e r w))) = license_servers (db w)
  /\ (licenses (db (snd (create e r w))) = licenses (db w)
      \/ exists l,
           licenses (db (snd (create e r w)))
           = (licenses (db w) ++ [l])%list
           /\ Body.license_key (Req.body r) = Some (License.license_key l)
           /\ Body.owner (Req.body r) = Some (License.owner l)
           /\ ~ In (License.license_key l)
                (map License.license_key (licenses (db w)))
           /\ License.status l = Some "ACTIVE"
           /\ License.email l = Body.email (Req.body r)
           /\ License.expires_at l
              = option_map DateText.instant
                  (js_or_null (Body.expires_at (Req.body r)))
           /\ License.max_servers l
              = Some (js_or (Body.max_servers (Req.body r)) 1)
           /\ License.last_check l = None
           /\ License.reason l = None
           /\ License.created_at l
              = Some (CURRENT_TIMESTAMP (pool e) (issued w))).
Proof.
  unfold create, try_catch, bind, pool_query_serial, pool_query,
    INSERT_license, ret. cbv zeta.
  destruct (strict_ne _ _); [split; [reflexivity | now left]|].
  destruct (fault (pool e) (issued w)); [split; [reflexivity | now left]|].
  destruct (Body.license_key (Req.body r)) as [k|];
    [|split; [reflexivity | now left]].
  destruct (Body.owner (Req.body r)) as [o|];
    [|split; [reflexivity | now left]].
  destruct (existsb (has_key (Some k)) (licenses (db w))) eqn:Hex;
    [split; [reflexivity | now left]|].
  rewrite logAction_run. cbn [snd db issued].
  assert (Hnew : ~ In k (map License.license_key (licenses (db w)))).
  { intros Hin. apply in_map_iff in Hin as (l & Hl & Hin).
    assert (existsb (has_key (Some k)) (licenses (db w)) = true).
    { apply existsb_exists. exists l. split; [exact Hin|].
      now apply has_key_eq. }
    congruence. }
  destruct (fault (pool e) (S (issued w)));
    cbn [licenses license_servers];
    (split; [reflexivity|]); right; eexists;
    (split; [reflexivity|]); cbn; now conjs.
Qed.

Lemma reference_by_pairs (d : database) :
  bindings_reference d <->
  forall k sid, In (Some k, sid) (map binding_pair (license_servers d)) ->
    In k (map License.license_key (licenses d)).
Proof.
  unfold bindings_reference. split.
  - intros H k sid Hin. apply in_map_iff in Hin as (s & Hp & Hin).
    unfold binding_pair in Hp. injection Hp as Hk _. exact (H s k Hin Hk).
  - intros H s k Hin Hk. apply (H k (Server.server_id s)).
    apply in_map_iff. exists s. split; [|exact Hin].
    unfold binding_pair. now rewrite Hk.
Qed.

(** The constraints only depend on the stored keys and the bound pairs. *)
Lemma constraints_by_columns (d d' : database) :
  map License.license_key (licenses d')
  = map License.license_key (licenses d) ->
  map binding_pair (license_servers d')
  = map binding_pair (license_servers d) ->
  constraints d -> constraints d'.
Proof.
  intros Hk Hp (H1 & H2 & H3). unfold constraints, keys_unique,
    bindings_unique. rewrite reference_by_pairs in *.
  rewrite Hk, Hp. now conjs.
Qed.

(** X10: the constraints of the schema (license keys pairwise distinct,
    (key, server id) pairs of the bindings pairwise distinct, every bound
    key a stored license key) are kept by every handler of the extended
    server: validate, check, create, disable and the admin list, whatever
    the request and whatever the storage does. *)
Theorem handlers_keep_constraints
    (e : env) (b : Body.t) (r : Req.t) (w : world database) :
  constraints (db w) ->
  constraints (db (snd (validate e b w)))
  /\ constraints (db (snd (check e b w)))
  /\ constraints (db (snd (create e r w)))
  /\ constraints (db (snd (disable e r w)))
  /\ constraints (db (snd (admin_licenses e r w))).
Proof.
  intros Hc. conjs.
  - destruct (validate_pairs e b w) as ((g & Hg & Hlic) & Hpairs).
    assert (Hkeys : map License.license_key
                      (licenses (db (snd (validate e b w))))
                    = map License.license_key (licenses (db w)))
      by (rewrite Hlic; now apply same_terms_keys).
    destruct Hpairs as [Hsame|(k & sid & l & _ & _ & Hfind & _ & Hnot & Happ)].
    + exact (constraints_by_columns _ _ Hkeys Hsame Hc).
    + destruct Hc as (H1 & H2 & H3).
      unfold constraints, keys_unique, bindings_unique.
      rewrite reference_by_pairs in *. rewrite Hkeys, Happ. conjs.
      * exact H1.
      * apply NoDup_app; conjs.
        -- exact H2.
        -- constructor; [intros [] | constructor].
        -- intros x Hx [<-|[]]. contradiction.
      * intros k' sid' Hin. apply in_app_or in Hin as [Hin|[Hin|[]]].
        -- exact (H3 k' sid' Hin).
        -- injection Hin as <- _. exact (find_key_stored _ _ _ Hfind).
  - now rewrite check_frame.
  - destruct (create_frame e r w) as (Hs & [Hl|(l & Hl & _ & _ & Hnew & _)]).
    + apply (constraints_by_columns (db w)); [now rewrite Hl | now rewrite Hs
                                             | exact Hc].
    + destruct Hc as (H1 & H2 & H3).
      unfold constraints, keys_unique, bindings_unique.
      rewrite reference_by_pairs in *. rewrite Hl, Hs, map_app. conjs.
      * apply NoDup_app; conjs.
        -- exact H1.
        -- constructor; [intros [] | constructor].
        -- intros x Hx [<-|[]]. contradiction.
      * exact H2.
      * intros k sid Hin. apply in_or_app. left. exact (H3 k sid Hin).
  - destruct (disable_frame e r w) as (Hk & _ & _ & Hs).
    apply (constraints_by_columns (db w)); [exact Hk | now rewrite Hs
                                           | exact Hc].
  - now rewrite admin_licenses_frame.
Qed.

Lemma handlers_keep_constraints_witness :
  constraints
    (db (snd (validate (Scenario.server None) (Scenario.from_server "S1")
                (Scenario.store None))))
  /\ constraints
       (db (snd (create (Scenario.server None)
                   (Scenario.admin None (Scenario.creating "XYZ" None))
                   (Scenario.store None)))).
Proof.
  destruct (handlers_keep_constraints (Scenario.server None)
              (Scenario.from_server "S1")
              (Scenario.admin None (Scenario.creating "XYZ" None))
              (Scenario.store None)) as (H1 & _ & H3 & _).
  - unfold constraints, keys_unique, bindings_unique. conjs.
    + cbn. constructor; [intros [] | constructor].
    + cbn. constructor; [intros [H|[]]; discriminate|].
      constructor; [intros [] | constructor].
    + intros s k [<-|[<-|[]]] Hk; injection Hk as <-; cbn; now left.
  - split; [exact H1 | exact H3].
Defined.

(** The first steps of [validate] on a request with both fields whose
    lookup goes through. *)
Ltac validate_lookup Hk Hne Hs Hsne Hf :=
  unfold validate;
  rewrite Hk, Hs, (truthy_nonempty _ Hne), (truthy_nonempty _ Hsne);
  cbn [negb orb]; unfold try_catch, bind;
  rewrite pool_query_run by exact Hf; cbn [SELECT_license].

Lemma validate_inactive_run
    (e : env) (b : Body.t) (w : world database) k sid l :
  Body.license_key b = Some k -> k <> "" ->
  Body.server_id b = Some sid -> sid <> "" ->
  fault (pool e) (issued w) = None ->
  find (has_key (Some k)) (licenses (db w)) = Some l ->
  License.status l <> Some "ACTIVE" ->
  exists logs,
    validate e b w =
      (Ok (json 403
             [("valid", JBool false); ("active", JBool false);
              ("status", js_string (License.status l));
              ("reason",
               JStr (js_or (License.reason l) "Licencja nieaktywna"))]),
       {| db := {| licenses := licenses (db w);
                   license_servers := license_servers (db w);
                   license_logs := logs |};
          issued := S (S (issued w)) |})
    /\ (fault (pool e) (S (issued w)) = None ->
        logs = (license_logs (db w) ++
                  [{| Log.license_key := Some k;
                      Log.action := Some "VALIDATE_FAILED";
                      Log.details :=
                        Some ("Status: "
                              ++ template "null" (License.status l))%string;
                      Log.timestamp :=
                        Some (CURRENT_TIMESTAMP (pool e) (S (issued w)))
                   |}])%list).
Proof.
  intros Hk Hne Hs Hsne Hf Hfind Hst.
  validate_lookup Hk Hne Hs Hsne Hf.
  destruct (filter_cons_find _ _ _ Hfind) as (rest & ->).
  apply strict_ne_iff in Hst. rewrite Hst.
  rewrite logAction_run. cbn [db issued].
  destruct (fault (pool e) (S (issued w))) eqn:Hf1.
  - exists (license_logs (db w)). split; [|discriminate].
    destruct (db w); reflexivity.
  - eexists. split; [reflexivity|]. reflexivity.
Qed.

(** X11: a validation request for a license whose stored status is anything
    but ACTIVE (DISABLED, EXPIRED, or no status at all) is refused with 403,
    [valid:false], [active:false], the stored status, and as reason the
    stored reason, or ["Licencja nieaktywna"] when the stored reason is
    missing or empty.  Licenses and bindings are untouched, the expiry date
    and the capacity are not looked at, and two statements are sent: the
    lookup and the log entry. *)
Theorem validate_inactive
    (e : env) (b : Body.t) (w : world database) k sid l :
  Body.license_key b = Some k -> k <> "" ->
  Body.server_id b = Some sid -> sid <> "" ->
  fault (pool e) (issued w) = None ->
  find (has_key (Some k)) (licenses (db w)) = Some l ->
  License.status l <> Some "ACTIVE" ->
  exists r w',
    validate e b w = (Ok r, w')
    /\ status_code r = 403
    /\ field "valid" r = Some (JBool false)
    /\ field "active" r = Some (JBool false)
    /\ field "status" r = Some (js_string (License.status l))
    /\ field "reason" r
       = Some (JStr (match License.reason l with
                     | Some s => if String.eqb s "" then "Licencja nieaktywna"
                                 else s
                     | None => "Licencja nieaktywna"
                     end))
    /\ licenses (db w') = licenses (db w)
    /\ license_servers (db w') = license_servers (db w)
    /\ issued w' = (issued w + 2)%nat.
Proof.
  intros Hk Hne Hs Hsne Hf Hfind Hst.
  destruct (validate_inactive_run e b w k sid l Hk Hne Hs Hsne Hf Hfind Hst)
    as (logs & Hrun & _).
  eexists; eexists. split; [exact Hrun|]. cbn [db issued licenses
    license_servers]. conjs; try reflexivity; [|lia].
  unfold field; cbn. do 2 f_equal. unfold js_or, truthy, truthy_string.
  destruct (License.reason l) as [s|]; [|reflexivity].
  destruct (String.eqb s ""); reflexivity.
Qed.

Lemma validate_inactive_witness :
  exists r w',
    validate (Scenario.server None) (Scenario.from_server "S1")
      (Scenario.after
         (disable (Scenario.server None)
            (Scenario.admin None (Scenario.disabling (Some "ABC123") None))
            (Scenario.store None))) = (Ok r, w')
    /\ status_code r = 403
    /\ field "status" r = Some (JStr "DISABLED").
Proof.
  destruct (validate_inactive (Scenario.server None)
              (Scenario.from_server "S1")
              (Scenario.after
                 (disable (Scenario.server None)
                    (Scenario.admin None
                       (Scenario.disabling (Some "ABC123") None))
                    (Scenario.store None)))
              "ABC123" "S1"
              (License.set_reason (Some "Wyłączona przez admina")
                 (License.set_status (Some "DISABLED")
                    (Scenario.abc123 None))))
    as (r & w' & Hrun & Hcode & _ & _ & Hstatus & _).
  - reflexivity.
  - discriminate.
  - reflexivity.
  - discriminate.
  - reflexivity.
  - reflexivity.
  - discriminate.
  - exists r, w'. conjs; [exact Hrun | exact Hcode | exact Hstatus].
Defined.

(** X12: once an authorized [disable] has gone through for a key, every
    validation request for that key whose lookup goes through is refused
    with 403, status DISABLED and the reason stored by [disable], whatever
    the license was before and whether or not the server was bound; the
    bindings stay as they were. *)
Theorem disable_then_validate
    (e1 e2 : env) (r : Req.t) (b : Body.t) (w : world database) k sid l :
  Req.x_admin_key r = ADMIN_KEY e1 ->
  healthy (pool e1) ->
  Body.license_key (Req.body r) = Some k ->
  find (has_key (Some k)) (licenses (db w)) = Some l ->
  Body.license_key b = Some k -> k <> "" ->
  Body.server_id b = Some sid -> sid <> "" ->
  fault (pool e2) (issued w + 2) = None ->
  exists w1 w2,
    snd (disable e1 r w) = w1
    /\ validate e2 b w1 =
         (Ok (json 403
                [("valid", JBool false); ("active", JBool false);
                 ("status", JStr "DISABLED");
                 ("reason",
                  JStr (js_or (Body.reason (Req.body r))
                          "Wyłączona przez admina"))]), w2)
    /\ license_servers (db w2) = license_servers (db w).
Proof.
  intros Hauth Hh Hrk Hfind Hk Hne Hs Hsne Hf.
  destruct (disable_run e1 r w Hauth Hh) as (logs & Hrun).
  rewrite Hrun. cbn [snd].
  assert (Hwhy : forall (o : option string) (d d2 : string),
            d <> "" -> js_or (Some (js_or o d)) d2 = js_or o d).
  { intros o d d2 Hd. unfold js_or, truthy, truthy_string.
    destruct o as [s|].
    - destruct (String.eqb_spec s ""); cbn.
      + destruct (String.eqb_spec d ""); [contradiction | reflexivity].
      + destruct (String.eqb_spec s ""); [contradiction | reflexivity].
    - destruct (String.eqb_spec d ""); [contradiction | reflexivity]. }
  match goal with
  | |- exists w1 w2, ?w = w1 /\ _ =>
      destruct (validate_inactive_run e2 b w k sid
                  (License.set_reason
                     (Some (js_or (Body.reason (Req.body r))
                              "Wyłączona przez admina"))
                     (License.set_status (Some "DISABLED") l))
                  Hk Hne Hs Hsne)
        as (logs2 & Hrun2 & _)
  end.
  - cbn [issued]. replace (S (S (issued w))) with (issued w + 2)%nat by lia.
    exact Hf.
  - cbn [db licenses]. rewrite Hrk.
    rewrite find_update by reflexivity. now rewrite Hfind.
  - discriminate.
  - cbn [License.reason License.set_reason License.status
         License.set_status js_string] in Hrun2.
    rewrite Hwhy in Hrun2 by discriminate.
    eexists. eexists. split; [reflexivity|]. split; [exact Hrun2|].
    reflexivity.
Qed.

Lemma disable_then_validate_witness :
  exists w2,
    validate (Scenario.server None) (Scenario.from_server "S1")
      (snd (disable (Scenario.server (Some "secret"))
              (Scenario.admin (Some "secret")
                 (Scenario.disabling (Some "ABC123") (Some "chargeback")))
              (Scenario.store None)))
    = (Ok (json 403
             [("valid", JBool false); ("active", JBool false);
              ("status", JStr "DISABLED"); ("reason", JStr "chargeback")]),
       w2).
Proof.
  destruct (disable_then_validate (Scenario.server (Some "secret"))
              (Scenario.server None)
              (Scenario.admin (Some "secret")
                 (Scenario.disabling (Some "ABC123") (Some "chargeback")))
              (Scenario.from_server "S1") (Scenario.store None)
              "ABC123" "S1" (Scenario.abc123 None))
    as (w1 & w2 & <- & Hrun & _).
  - reflexivity.
  - intros n. reflexivity.
  - reflexivity.
  - reflexivity.
  - reflexivity.
  - discriminate.
  - reflexivity.
  - discriminate.
  - reflexivity.
  - exists w2. exact Hrun.
Defined.

Lemma validate_overdue_run
    (e : env) (b : Body.t) (w : world database) k sid l :
  healthy (pool e) ->
  Body.license_key b = Some k -> k <> "" ->
  Body.server_id b = Some sid -> sid <> "" ->
  find (has_key (Some k)) (licenses (db w)) = Some l ->
  License.status l = Some "ACTIVE" ->
  overdue e l = true ->
  exists logs,
    validate e b w =
      (Ok expired,
       {| db := {| licenses :=
                     map (fun x => if has_key (Some k) x
                                   then License.set_status (Some "EXPIRED") x
                                   else x) (licenses (db w));
                   license_servers := license_servers (db w);
                   license_logs := logs |};
          issued := S (S (S (issued w))) |}).
Proof.
  intros Hh Hk Hne Hs Hsne Hfind Hact Hover.
  validate_lookup Hk Hne Hs Hsne (Hh (issued w)).
  destruct (filter_cons_find _ _ _ Hfind) as (rest & ->).
  rewrite Hact. cbn [strict_ne strict_eq String.eqb Ascii.eqb Bool.eqb negb].
  rewrite Hover.
  rewrite pool_query_run by apply Hh. cbn [UPDATE_status db issued].
  rewrite logAction_run. cbn [db issued]. rewrite Hh.
  eexists. reflexivity.
Qed.

(** X13: on the state that a validation request leaves behind after it has
    found an ACTIVE license overdue (on a working storage), a validation
    request for that key whose lookup goes through, at whatever time and
    from whatever server, is refused with 403 and status EXPIRED, and
    [/api/license/check] reports [active:false] with status EXPIRED; both
    leave the licenses exactly as that state has them.  (Nothing is said
    about states that another writer has produced since: an admin
    [disable] in between overwrites the status.) *)
Theorem expired_stays_expired
    (e1 e2 : env) (b1 b2 : Body.t) (w : world database) k sid1 sid2 l :
  healthy (pool e1) ->
  Body.license_key b1 = Some k -> k <> "" ->
  Body.server_id b1 = Some sid1 -> sid1 <> "" ->
  find (has_key (Some k)) (licenses (db w)) = Some l ->
  License.status l = Some "ACTIVE" ->
  overdue e1 l = true ->
  Body.license_key b2 = Some k ->
  Body.server_id b2 = Some sid2 -> sid2 <> "" ->
  fault (pool e2) (issued w + 3) = None ->
  let w1 := snd (validate e1 b1 w) in
  (exists r2 w2,
     validate e2 b2 w1 = (Ok r2, w2)
     /\ status_code r2 = 403
     /\ field "valid" r2 = Some (JBool false)
     /\ field "status" r2 = Some (JStr "EXPIRED")
     /\ licenses (db w2) = licenses (db w1)
     /\ license_servers (db w2) = license_servers (db w))
  /\ (exists r3 w3,
        check e2 b2 w1 = (Ok r3, w3)
        /\ status_code r3 = 200
        /\ field "active" r3 = Some (JBool false)
        /\ field "status" r3 = Some (JStr "EXPIRED")
        /\ db w3 = db w1).
Proof.
  intros Hh Hk Hne Hs1 Hsne1 Hfind Hact Hover Hk2 Hs2 Hsne2 Hf w1.
  destruct (validate_overdue_run e1 b1 w k sid1 l Hh Hk Hne Hs1 Hsne1 Hfind
              Hact Hover) as (logs & Hrun).
  subst w1. rewrite Hrun. cbn [snd].
  assert (Hf' : fault (pool e2) (S (S (S (issued w)))) = None).
  { replace (S (S (S (issued w)))) with (issued w + 3)%nat by lia.
    exact Hf. }
  assert (Hfind1 :
    find (has_key (Some k))
      (map (fun x => if has_key (Some k) x
                     then License.set_status (Some "EXPIRED") x else x)
         (licenses (db w)))
    = Some (License.set_status (Some "EXPIRED") l)).
  { rewrite find_update by reflexivity. now rewrite Hfind. }
  split.
  - match goal with
    | |- exists r2 w2, validate e2 b2 ?w1 = _ /\ _ =>
        destruct (validate_inactive_run e2 b2 w1 k sid2
                    (License.set_status (Some "EXPIRED") l)
                    Hk2 Hne Hs2 Hsne2 Hf' Hfind1)
          as (logs2 & Hrun2 & _); [discriminate|]
    end.
    eexists; eexists. split; [exact Hrun2|]. conjs; reflexivity.
  - unfold check. rewrite Hk2, (truthy_nonempty k Hne). cbn [negb].
    unfold try_catch, bind.
    rewrite pool_query_run by exact Hf'. cbn [SELECT_license db licenses].
    destruct (filter_cons_find _ _ _ Hfind1) as (rest & ->).
    eexists; eexists. split; [reflexivity|]. conjs; reflexivity.
Qed.

Lemma expired_stays_expired_witness :
  exists r2 w2,
    validate (Scenario.server None) (Scenario.from_server "S2")
      (snd (validate (Scenario.server None) (Scenario.from_server "S1")
              (Scenario.store (Some 999)))) = (Ok r2, w2)
    /\ status_code r2 = 403
    /\ field "status" r2 = Some (JStr "EXPIRED").
Proof.
  destruct (expired_stays_expired (Scenario.server None)
              (Scenario.server None) (Scenario.from_server "S1")
              (Scenario.from_server "S2") (Scenario.store (Some 999))
              "ABC123" "S1" "S2" (Scenario.abc123 (Some 999)))
    as ((r2 & w2 & Hrun & Hcode & _ & Hstatus & _) & _).
  - intros n. reflexivity.
  - reflexivity.
  - discriminate.
  - reflexivity.
  - discriminate.
  - reflexivity.
  - reflexivity.
  - reflexivity.
  - reflexivity.
  - reflexivity.
  - discriminate.
  - reflexivity.
  - exists r2, w2. conjs; assumption.
Defined.

Lemma not_stored_find k (ls : list License.row) :
  ~ In k (map License.license_key ls) ->
  find (has_key (Some k)) ls = None.
Proof.
  intros Hnot. destruct (find (has_key (Some k)) ls) as [l|] eqn:Hfind;
    [|reflexivity].
  exfalso. apply Hnot. exact (find_key_stored _ _ _ Hfind).
Qed.

(** X14: a validation request with both fields for a key that no license
    has, whose lookup goes through, is answered 404 with [valid:false];
    licenses and bindings are untouched, nothing is bound, and the only
    write is the VALIDATE_FAILED log entry, which is skipped silently when
    the storage rejects it. *)
Theorem validate_unknown_key
    (e : env) (b : Body.t) (w : world database) k sid :
  Body.license_key b = Some k -> k <> "" ->
  Body.server_id b = Some sid -> sid <> "" ->
  fault (pool e) (issued w) = None ->
  ~ In k (map License.license_key (licenses (db w))) ->
  exists w',
    validate e b w
    = (Ok (json 404 [("valid", JBool false);
                     ("error", JStr "Licencja nie znaleziona")]), w')
    /\ licenses (db w') = licenses (db w)
    /\ license_servers (db w') = license_servers (db w)
    /\ issued w' = (issued w + 2)%nat
    /\ (fault (pool e) (S (issued w)) <> None ->
          license_logs (db w') = license_logs (db w))
    /\ (fault (pool e) (S (issued w)) = None ->
          license_logs (db w')
          = (license_logs (db w) ++
               [{| Log.license_key := Some k;
                   Log.action := Some "VALIDATE_FAILED";
                   Log.details := Some "Licencja nie znaleziona";
                   Log.timestamp :=
                     Some (CURRENT_TIMESTAMP (pool e) (S (issued w))) |}])%list).
Proof.
  intros Hk Hne Hs Hsne Hf Hnot.
  validate_lookup Hk Hne Hs Hsne Hf.
  rewrite (filter_nil_find _ _ (not_stored_find _ _ Hnot)).
  rewrite logAction_run. cbn [db issued].
  eexists. split; [reflexivity|]. cbn [db issued].
  destruct (fault (pool e) (S (issued w)));
    cbn [licenses license_servers license_logs];
    conjs; try reflexivity; try lia; try congruence; try discriminate.
Qed.

Lemma validate_unknown_key_witness :
  exists w',
    validate (Scenario.server None) (Scenario.from_server "S1")
      Scenario.empty
    = (Ok (json 404 [("valid", JBool false);
                     ("error", JStr "Licencja nie znaleziona")]), w')
    /\ license_servers (db w') = [].
Proof.
  destruct (validate_unknown_key (Scenario.server None)
              (Scenario.from_server "S1") Scenario.empty "ABC123" "S1")
    as (w' & Hrun & _ & Hservers & _).
  - reflexivity.
  - discriminate.
  - reflexivity.
  - discriminate.
  - reflexivity.
  - intros [].
  - exists w'. split; [exact Hrun | exact Hservers].
Defined.

(** X15: [POST /api/license/check] always answers, with 200, 400, 404 or
    500.  A missing or empty key gives 400 before any statement is sent;
    with a key, exactly one statement is sent: if the storage rejects it
    the answer is 500, and if no license has the key the answer is 404. *)
Theorem check_errors (e : env) (b : Body.t) (w : world database) :
  exists r w',
    check e b w = (Ok r, w')
    /\ In (status_code r) [200; 400; 404; 500]
    /\ (truthy (Body.license_key b) = false ->
          r = json 400 [("error", JStr "Brak klucza licencji")] /\ w' = w)
    /\ (forall k, Body.license_key b = Some k -> k <> "" ->
          issued w' = S (issued w)
          /\ (fault (pool e) (issued w) <> None -> r = server_error)
          /\ (fault (pool e) (issued w) = None ->
              ~ In k (map License.license_key (licenses (db w))) ->
              r = json 404 [("error", JStr "Licencja nie znaleziona")])
          /\ (fault (pool e) (issued w) = None ->
              In k (map License.license_key (licenses (db w))) ->
              status_code r = 200)).
Proof.
  unfold check, try_catch, bind, pool_query, SELECT_license, ret.
  destruct (truthy (Body.license_key b)) eqn:Ht; cbn [negb].
  2:{ eexists; eexists. split; [reflexivity|]. conjs.
      - simpl; auto.
      - now split.
      - intros k Hk Hne. rewrite Hk, (truthy_nonempty k Hne) in Ht.
        discriminate. }
  destruct (truthy_Some_inv _ Ht) as (k & Hk & Hne). rewrite Hk.
  destruct (fault (pool e) (issued w)) eqn:Hf.
  { eexists; eexists. split; [reflexivity|]. conjs.
    - simpl; auto 6.
    - discriminate.
    - intros k' _ _. conjs; try reflexivity; intros; discriminate. }
  destruct (find (has_key (Some k)) (licenses (db w))) as [l|] eqn:Hfind.
  - destruct (filter_cons_find _ _ _ Hfind) as (rest & ->).
    eexists; eexists. split; [reflexivity|]. conjs.
    + simpl; auto.
    + discriminate.
    + intros k' Hk' _. injection Hk' as <-.
      conjs; try reflexivity; [congruence|].
      intros _ Hnot. exfalso. apply Hnot.
      exact (find_key_stored _ _ _ Hfind).
  - rewrite (filter_nil_find _ _ Hfind).
    eexists; eexists. split; [reflexivity|]. conjs.
    + simpl; auto 6.
    + discriminate.
    + intros k' Hk' _. injection Hk' as <-.
      conjs; try reflexivity; [congruence|].
      intros _ Hin. exfalso.
      apply in_map_iff in Hin as (l & Hl & Hin).
      pose proof (find_none _ _ Hfind l Hin) as Hc.
      apply has_key_eq in Hl. congruence.
Qed.

Lemma bindings_app k (ss : list Server.row) (s : Server.row) :
  length (filter (bound_to (Some k)) (ss ++ [s]))
  = (length (filter (bound_to (Some k)) ss)
     + (if bound_to (Some k) s then 1 else 0))%nat.
Proof.
  rewrite filter_app, length_app. cbn [filter].
  destruct (bound_to (Some k) s); reflexivity.
Qed.

Lemma validate_new_binding_run
    (e : env) (b : Body.t) (w : world database) k sid l :
  healthy (pool e) ->
  Body.license_key b = Some k -> k <> "" ->
  Body.server_id b = Some sid -> sid <> "" ->
  find (has_key (Some k)) (licenses (db w)) = Some l ->
  License.status l = Some "ACTIVE" ->
  overdue e l = false ->
  existsb (is_binding (Some k) (Some sid)) (license_servers (db w)) = false ->
  bindings_of k (db w) < ToNumber (License.max_servers l) ->
  validate e b w =
    (Ok (validated l),
     {| db := {| licenses :=
                   map (fun x => if has_key (Some k) x
                                 then License.set_last_check
                                        (Some (CURRENT_TIMESTAMP (pool e)
                                                 (issued w + 4))) x
                                 else x) (licenses (db w));
                 license_servers :=
                   license_servers (db w) ++
                     [new_binding (CURRENT_TIMESTAMP (pool e) (issued w + 3))
                        sid b];
                 license_logs :=
                   license_logs (db w) ++
                     [{| Log.license_key := Some k;
                         Log.action := Some "VALIDATE_SUCCESS";
                         Log.details := Some ("Server: " ++ sid)%string;
                         Log.timestamp :=
                           Some (CURRENT_TIMESTAMP (pool e) (issued w + 5))
                      |}] |};
        issued := (issued w + 6)%nat |}).
Proof.
  intros Hh Hk Hne Hs Hsne Hfind Hact Hover Hex Hlt.
  replace (issued w + 3)%nat with (S (S (S (issued w)))) by lia.
  replace (issued w + 4)%nat with (S (S (S (S (issued w))))) by lia.
  replace (issued w + 5)%nat with (S (S (S (S (S (issued w)))))) by lia.
  replace (issued w + 6)%nat with (S (S (S (S (S (S (issued w))))))) by lia.
  validate_lookup Hk Hne Hs Hsne (Hh (issued w)).
  destruct (filter_cons_find _ _ _ Hfind) as (rest & ->).
  rewrite Hact. cbn [strict_ne strict_eq String.eqb Ascii.eqb Bool.eqb negb].
  rewrite Hover.
  rewrite pool_query_run by apply Hh. cbn [COUNT_servers db issued].
  rewrite pool_query_run by apply Hh. cbn [SELECT_server db issued].
  rewrite filter_nil_existsb, Hex. cbn [negb andb].
  unfold bindings_of in Hlt.
  destruct (Z.geb_spec
              (Z.of_nat (length (filter (bound_to (Some k))
                                   (license_servers (db w)))))
              (ToNumber (License.max_servers l))) as [Hge|_]; [lia|].
  rewrite pool_query_run by apply Hh. cbn [db issued].
  unfold UPSERT_server. rewrite Hs, Hk, Hex.
  rewrite (existsb_find _ _ _ Hfind). cbn [negb].
  rewrite pool_query_run by apply Hh. cbn [UPDATE_last_check db issued].
  rewrite logAction_run. cbn [db issued]. rewrite Hh.
  reflexivity.
Qed.

(** X16: on a working storage, a validation request from a server that is
    not yet bound, for an ACTIVE license that is not overdue and has a free
    slot, is answered [valid:true] with the owner and the expiry of the
    license; exactly one binding is appended, carrying the key, the server
    id and the metadata of the request, so the key has one binding more;
    the other bindings are as before; the license's [last_check] becomes
    the database clock; one VALIDATE_SUCCESS entry is logged. *)
Theorem validate_new_binding
    (e : env) (b : Body.t) (w : world database) k sid l :
  healthy (pool e) ->
  Body.license_key b = Some k -> k <> "" ->
  Body.server_id b = Some sid -> sid <> "" ->
  find (has_key (Some k)) (licenses (db w)) = Some l ->
  License.status l = Some "ACTIVE" ->
  (forall t, License.expires_at l = Some t -> Date_now e <= t) ->
  (forall s, In s (license_servers (db w)) ->
     ~ (Server.license_key s = Some k /\ Server.server_id s = sid)) ->
  bindings_of k (db w) < ToNumber (License.max_servers l) ->
  exists r w' s',
    validate e b w = (Ok r, w')
    /\ status_code r = 200
    /\ field "valid" r = Some (JBool true)
    /\ field "owner" r = Some (JStr (License.owner l))
    /\ field "expires" r = Some (js_date (License.expires_at l))
    /\ license_servers (db w') = (license_servers (db w) ++ [s'])%list
    /\ Server.license_key s' = Some k /\ Server.server_id s' = sid
    /\ Server.server_ip s' = Body.server_ip b
    /\ Server.server_port s' = Body.server_port b
    /\ Server.plugin_version s' = Body.plugin_version b
    /\ Server.minecraft_version s' = Body.minecraft_version b
    /\ Server.online_players s' = Body.online_players b
    /\ Server.max_players s' = Body.max_players b
    /\ Server.last_seen s' = Some (CURRENT_TIMESTAMP (pool e) (issued w + 3))
    /\ bindings_of k (db w') = bindings_of k (db w) + 1
    /\ (exists l', find (has_key (Some k)) (licenses (db w')) = Some l'
                   /\ License.last_check l'
                      = Some (CURRENT_TIMESTAMP (pool e) (issued w + 4))
                   /\ License.status l' = Some "ACTIVE")
    /\ map Log.action (license_logs (db w'))
       = (map Log.action (license_logs (db w))
            ++ [Some "VALIDATE_SUCCESS"])%list.
Proof.
  intros Hh Hk Hne Hs Hsne Hfind Hact Hexp Hunbound Hlt.
  assert (Hex : existsb (is_binding (Some k) (Some sid))
                  (license_servers (db w)) = false).
  { destruct (existsb _ _) eqn:Hex; [|reflexivity].
    apply is_binding_exists in Hex as (s & Hin & Hks & Hss).
    exfalso. exact (Hunbound s Hin (conj Hks Hss)). }
  rewrite (validate_new_binding_run e b w k sid l Hh Hk Hne Hs Hsne Hfind
             Hact (overdue_false e l Hexp) Hex Hlt).
  eexists; eexists; eexists. split; [reflexivity|].
  cbn [db licenses license_servers license_logs].
  conjs; try reflexivity.
  - exact Hk.
  - unfold bindings_of. cbn [license_servers]. rewrite bindings_app.
    unfold bound_to at 2. cbn [new_binding Server.license_key]. rewrite Hk.
    unfold sql_eq. rewrite String.eqb_refl. lia.
  - rewrite find_update by reflexivity. rewrite Hfind.
    eexists. split; [reflexivity|]. split; [reflexivity | exact Hact].
  - rewrite map_app. reflexivity.
Qed.

Lemma validate_new_binding_witness :
  exists r w' s',
    validate (Scenario.server None) (Scenario.from_server "S1")
      (Scenario.after
         (create (Scenario.server None)
            (Scenario.admin None (Scenario.creating "ABC123" (Some 2)))
            Scenario.empty)) = (Ok r, w')
    /\ status_code r = 200
    /\ license_servers (db w') = [s']
    /\ Server.server_id s' = "S1".
Proof.
  destruct (validate_new_binding (Scenario.server None)
              (Scenario.from_server "S1")
              (Scenario.after
                 (create (Scenario.server None)
                    (Scenario.admin None
                       (Scenario.creating "ABC123" (Some 2)))
                    Scenario.empty))
              "ABC123" "S1"
              {| License.id := 2;
                 License.license_key := "ABC123"; License.owner := "alice";
                 License.email := None; License.status := Some "ACTIVE";
                 License.created_at := Some 1000;
                 License.expires_at := None;
                 License.max_servers := Some 2; License.last_check := None;
                 License.reason := None |})
    as (r & w' & s' & Hrun & Hcode & _ & _ & _ & Hservers & _ & Hsid & _).
  - intros n. reflexivity.
  - reflexivity.
  - discriminate.
  - reflexivity.
  - discriminate.
  - reflexivity.
  - reflexivity.
  - intros t H. discriminate.
  - intros s [].
  - vm_compute. reflexivity.
  - exists r, w', s'. conjs; assumption.
Defined.

Lemma create_run (e : env) (r : Req.t) (w : world database) k o :
  Req.x_admin_key r = ADMIN_KEY e ->
  healthy (pool e) ->
  Body.license_key (Req.body r) = Some k ->
  Body.owner (Req.body r) = Some o ->
  ~ In k (map License.license_key (licenses (db w))) ->
  create e r w =
    (Ok (json 200 [("success", JBool true);
                   ("message", JStr "Licencja utworzona")]),
     {| db := {| licenses :=
                   licenses (db w) ++
                     [{| License.id := nextval (pool e) (issued w);
                         License.license_key := k; License.owner := o;
                         License.email := Body.email (Req.body r);
                         License.status := Some "ACTIVE";
                         License.created_at :=
                           Some (CURRENT_TIMESTAMP (pool e) (issued w));
                         License.expires_at :=
                           option_map DateText.instant
                             (js_or_null (Body.expires_at (Req.body r)));
                         License.max_servers :=
                           Some (js_or (Body.max_servers (Req.body r)) 1);
                         License.last_check := None;
                         License.reason := None |}];
                 license_servers := license_servers (db w);
                 license_logs :=
                   license_logs (db w) ++
                     [{| Log.license_key := Some k;
                         Log.action := Some "LICENSE_CREATED";
                         Log.details := Some ("Owner: " ++ o)%string;
                         Log.timestamp :=
                           Some (CURRENT_TIMESTAMP (pool e) (S (issued w)))
                      |}] |};
        issued := S (S (issued w)) |}).
Proof.
  intros Hauth Hh Hk Ho Hnew. unfold create. cbv zeta.
  unfold strict_ne. rewrite (proj2 (strict_eq_iff _ _) Hauth). cbn [negb].
  unfold try_catch, bind, pool_query_serial.
  rewrite pool_query_run by apply Hh.
  unfold INSERT_license. rewrite Hk, Ho.
  destruct (existsb (has_key (Some k)) (licenses (db w))) eqn:Hex.
  { exfalso. apply Hnew. apply existsb_exists in Hex as (l & Hin & Hl).
    apply has_key_eq in Hl. apply in_map_iff. now exists l. }
  rewrite logAction_run. cbn [db issued]. rewrite Hh. reflexivity.
Qed.

(** The two ways an authorized [create] can go. *)
Lemma create_cases (e : env) (r : Req.t) (w : world database) :
  Req.x_admin_key r = ADMIN_KEY e ->
  (exists k o logs,
     fault (pool e) (issued w) = None
     /\ Body.license_key (Req.body r) = Some k
     /\ Body.owner (Req.body r) = Some o
     /\ ~ In k (map License.license_key (licenses (db w)))
     /\ create e r w =
          (Ok (json 200 [("success", JBool true);
                         ("message", JStr "Licencja utworzona")]),
           {| db := {| licenses :=
                         licenses (db w) ++
                           [{| License.id := nextval (pool e) (issued w);
                               License.license_key := k; License.owner := o;
                               License.email := Body.email (Req.body r);
                               License.status := Some "ACTIVE";
                               License.created_at :=
                                 Some (CURRENT_TIMESTAMP (pool e) (issued w));
                               License.expires_at :=
                                 option_map DateText.instant
                                   (js_or_null
                                      (Body.expires_at (Req.body r)));
                               License.max_servers :=
                                 Some (js_or (Body.max_servers (Req.body r)) 1);
                               License.last_check := None;
                               License.reason := None |}];
                       license_servers := license_servers (db w);
                       license_logs := logs |};
              issued := S (S (issued w)) |}))
  \/ (~ (fault (pool e) (issued w) = None
         /\ exists k o,
              Body.license_key (Req.body r) = Some k
              /\ Body.owner (Req.body r) = Some o
              /\ ~ In k (map License.license_key (licenses (db w))))
      /\ exists w', create e r w = (Ok server_error, w') /\ db w' = db w).
Proof.
  intros Hauth. unfold create. cbv zeta.
  unfold strict_ne. rewrite (proj2 (strict_eq_iff _ _) Hauth). cbn [negb].
  unfold try_catch, bind, pool_query_serial, pool_query, INSERT_license.
  destruct (fault (pool e) (issued w)) eqn:Hf.
  { right. split; [intros (H & _); discriminate|].
    eexists. split; reflexivity. }
  destruct (Body.license_key (Req.body r)) as [k|] eqn:Hk.
  2:{ right. split; [intros (_ & k & o & H & _); discriminate|].
      eexists. split; reflexivity. }
  destruct (Body.owner (Req.body r)) as [o|] eqn:Ho.
  2:{ right. split; [intros (_ & k' & o & _ & H & _); discriminate|].
      eexists. split; reflexivity. }
  destruct (existsb (has_key (Some k)) (licenses (db w))) eqn:Hex.
  { right. split; [|eexists; split; reflexivity].
    intros (_ & k' & o' & Hk' & _ & Hnot). injection Hk' as <-.
    apply Hnot. apply existsb_exists in Hex as (l & Hin & Hl).
    apply has_key_eq in Hl. apply in_map_iff. now exists l. }
  left. rewrite logAction_run. cbn [db issued].
  assert (Hnew : ~ In k (map License.license_key (licenses (db w)))).
  { intros Hin. apply in_map_iff in Hin as (l & Hl & Hin).
    assert (existsb (has_key (Some k)) (licenses (db w)) = true).
    { apply existsb_exists. exists l. split; [exact Hin|].
      now apply has_key_eq. }
    congruence. }
  destruct (fault (pool e) (S (issued w)));
    exists k, o; eexists; conjs; try reflexivity; try exact Hnew.
Qed.

(** X17: an authorized [/api/admin/license/create] always answers, with
    success (200) or with 500, and never touches a binding.  It succeeds
    exactly when the storage accepts the insert, key and owner are both
    supplied and no license has the key yet; then exactly one license is
    appended: ACTIVE, with the id the sequence hands out, the supplied key,
    owner and e-mail, created at the database clock, never checked, without
    reason, with [max_servers] as supplied or 1 when it is omitted or 0,
    and expiring at the instant of the supplied date (also when that is the
    epoch), or never when the date is omitted or the empty string.
    Otherwise (a duplicate key, a missing key or owner, a storage error)
    the licenses are as they were. *)
Theorem create_license (e : env) (r : Req.t) (w : world database) :
  Req.x_admin_key r = ADMIN_KEY e ->
  let created := json 200 [("success", JBool true);
                           ("message", JStr "Licencja utworzona")] in
  exists res w',
    create e r w = (Ok res, w')
    /\ (res = created \/ res = server_error)
    /\ license_servers (db w') = license_servers (db w)
    /\ (res = created <->
          fault (pool e) (issued w) = None
          /\ exists k o,
               Body.license_key (Req.body r) = Some k
               /\ Body.owner (Req.body r) = Some o
               /\ ~ In k (map License.license_key (licenses (db w))))
    /\ (res = server_error -> licenses (db w') = licenses (db w))
    /\ (res = created ->
          exists l,
            licenses (db w') = (licenses (db w) ++ [l])%list
            /\ Body.license_key (Req.body r) = Some (License.license_key l)
            /\ Body.owner (Req.body r) = Some (License.owner l)
            /\ License.email l = Body.email (Req.body r)
            /\ License.status l = Some "ACTIVE"
            /\ License.last_check l = None
            /\ License.reason l = None
            /\ License.max_servers l
               = Some (match Body.max_servers (Req.body r) with
                       | Some m => if m =? 0 then 1 else m
                       | None => 1
                       end)
            /\ License.expires_at l
               = match Body.expires_at (Req.body r) with
                 | Some d => if String.eqb (DateText.text d) "" then None
                             else Some (DateText.instant d)
                 | None => None
                 end
            /\ License.id l = nextval (pool e) (issued w)
            /\ License.created_at l
               = Some (CURRENT_TIMESTAMP (pool e) (issued w))).
Proof.
  intros Hauth created.
  assert (Hdiff : created <> server_error) by discriminate.
  destruct (create_cases e r w Hauth)
    as [(k & o & logs & Hf & Hk & Ho & Hnew & Hrun)
       |(Hnot & w' & Hrun & Hdb)].
  - eexists; eexists. split; [exact Hrun|].
    cbn [db licenses license_servers]. conjs.
    + now left.
    + reflexivity.
    + split; [|reflexivity]. intros _. split; [exact Hf|].
      exists k, o. now conjs.
    + intros H. contradiction.
    + intros _. eexists. split; [reflexivity|]. cbn. rewrite Hk, Ho.
      conjs; try reflexivity.
      * unfold js_or, truthy, truthy_Z.
        destruct (Body.max_servers (Req.body r)) as [m|]; [|reflexivity].
        destruct (m =? 0); reflexivity.
      * unfold js_or_null, truthy, truthy_option, truthy, truthy_date,
          truthy, truthy_string.
        destruct (Body.expires_at (Req.body r)) as [d|]; [|reflexivity].
        destruct (String.eqb (DateText.text d) ""); reflexivity.
  - exists server_error, w'. split; [exact Hrun|]. rewrite Hdb. conjs.
    + now right.
    + reflexivity.
    + split; [intros H; symmetry in H; contradiction|].
      intros H. contradiction.
    + reflexivity.
    + intros H. symmetry in H. contradiction.
Qed.

Lemma create_license_witness :
  exists w',
    create (Scenario.server (Some "secret"))
      (Scenario.admin (Some "secret")
         (Scenario.expiring "NEW"
            {| DateText.text := "1970-01-01T00:00:00Z";
               DateText.instant := 0 |}))
      (Scenario.store None)
    = (Ok (json 200 [("success", JBool true);
                     ("message", JStr "Licencja utworzona")]), w')
    /\ map License.max_servers (licenses (db w')) = [Some 2; Some 1]
    /\ map License.expires_at (licenses (db w')) = [None; Some 0]
    /\ map License.id (licenses (db w')) = [1; 2].
Proof.
  destruct (create_license (Scenario.server (Some "secret"))
              (Scenario.admin (Some "secret")
                 (Scenario.expiring "NEW"
                    {| DateText.text := "1970-01-01T00:00:00Z";
                       DateText.instant := 0 |}))
              (Scenario.store None))
    as (res & w' & Hrun & _ & _ & Hiff & _ & Hok).
  - reflexivity.
  - assert (Hres : res = json 200 [("success", JBool true);
                                   ("message", JStr "Licencja utworzona")]).
    { apply Hiff. split; [reflexivity|]. exists "NEW", "alice".
      conjs; [reflexivity | reflexivity |].
      intros [H|[]]. discriminate. }
    exists w'. split; [now rewrite Hrun, Hres|].
    destruct (Hok Hres)
      as (l & Hl & _ & _ & _ & _ & _ & _ & Hmax & Hexp & Hid & _).
    rewrite Hl, !map_app. cbn. now rewrite Hmax, Hexp, Hid.
Defined.

Lemma find_app_new k (ls : list License.row) (l : License.row) :
  ~ In k (map License.license_key ls) ->
  License.license_key l = k ->
  find (has_key (Some k)) (ls ++ [l]) = Some l.
Proof.
  intros Hnot Hl. induction ls as [|x ls IH]; cbn [app find].
  - now rewrite (proj2 (has_key_eq k l) Hl).
  - destruct (has_key (Some k) x) eqn:Hx.
    + exfalso. apply Hnot. left. now apply has_key_eq.
    + apply IH. intros Hin. apply Hnot. now right.
Qed.

Lemma unreferenced_unbound (d : database) k :
  bindings_reference d ->
  ~ In k (map License.license_key (licenses d)) ->
  forall s, In s (license_servers d) -> bound_to (Some k) s = false.
Proof.
  intros Href Hnot s Hin. unfold bound_to, sql_eq.
  destruct (Server.license_key s) as [ks|] eqn:Hks; [|reflexivity].
  destruct (String.eqb_spec ks k) as [->|]; [|reflexivity].
  exfalso. exact (Hnot (Href s k Hin Hks)).
Qed.

Lemma filter_all_false {A} (f : A -> bool) (l : list A) :
  (forall x, In x l -> f x = false) -> filter f l = [].
Proof.
  induction l as [|x l IH]; simpl; intros H; [reflexivity|].
  rewrite (H x (or_introl eq_refl)). apply IH. auto.
Qed.

Lemma existsb_all_false {A} (f : A -> bool) (l : list A) :
  (forall x, In x l -> f x = false) -> existsb f l = false.
Proof.
  induction l as [|x l IH]; simpl; intros H; [reflexivity|].
  rewrite (H x (or_introl eq_refl)). apply IH. auto.
Qed.

(** X18: a license created without [max_servers] and without expiry admits
    exactly one server.  On a working storage and a database that respects
    the foreign key: after the authorized [create] of a new non-empty key,
    the first validation request for that key succeeds and reports the
    owner given at creation; a following request from another server id is
    refused as over capacity; a following request from the first server id
    succeeds again. *)
Theorem created_license_admits_one_server
    (e0 e1 e2 : env) (r : Req.t) (b1 b2 : Body.t) (w : world database)
    k o sid1 sid2 :
  Req.x_admin_key r = ADMIN_KEY e0 ->
  healthy (pool e0) -> healthy (pool e1) -> healthy (pool e2) ->
  Body.license_key (Req.body r) = Some k -> k <> "" ->
  Body.owner (Req.body r) = Some o ->
  Body.expires_at (Req.body r) = None ->
  Body.max_servers (Req.body r) = None ->
  ~ In k (map License.license_key (licenses (db w))) ->
  bindings_reference (db w) ->
  Body.license_key b1 = Some k -> Body.server_id b1 = Some sid1 ->
  sid1 <> "" ->
  Body.license_key b2 = Some k -> Body.server_id b2 = Some sid2 ->
  sid2 <> "" -> sid2 <> sid1 ->
  let w1 := snd (create e0 r w) in
  let w2 := snd (validate e1 b1 w1) in
  (exists r1,
     fst (validate e1 b1 w1) = Ok r1
     /\ status_code r1 = 200
     /\ field "valid" r1 = Some (JBool true)
     /\ field "owner" r1 = Some (JStr o))
  /\ fst (validate e2 b2 w2) = Ok capacity_exceeded
  /\ (exists r3,
        fst (validate e2 b1 w2) = Ok r3
        /\ field "valid" r3 = Some (JBool true)).
Proof.
  intros Hauth Hh0 Hh1 Hh2 Hk Hne Ho Hexp Hmax Hnew Href
         Hk1 Hs1 Hsne1 Hk2 Hs2 Hsne2 Hdiff w1 w2.
  subst w2 w1.
  rewrite (create_run e0 r w k o Hauth Hh0 Hk Ho Hnew). cbn [snd].
  rewrite Hexp, Hmax.
  cbn [js_or_null js_or truthy truthy_option].
  set (l := {| License.id := nextval (pool e0) (issued w);
               License.license_key := k; License.owner := o;
               License.email := Body.email (Req.body r);
               License.status := Some "ACTIVE";
               License.created_at :=
                 Some (CURRENT_TIMESTAMP (pool e0) (issued w));
               License.expires_at := None;
               License.max_servers := Some 1;
               License.last_check := None;
               License.reason := None |}).
  pose proof (unreferenced_unbound (db w) k Href Hnew) as Hunbound.
  assert (Hnone : forall sid s, In s (license_servers (db w)) ->
                    is_binding (Some k) (Some sid) s = false).
  { intros sid s Hin. unfold is_binding.
    change (sql_eq (Server.license_key s) (Some k))
      with (bound_to (Some k) s).
    now rewrite (Hunbound s Hin). }
  match goal with
  | |- context [validate e1 b1 ?x] => set (w1 := x)
  end.
  assert (Hfind1 : find (has_key (Some k)) (licenses (db w1)) = Some l)
    by (apply find_app_new; [exact Hnew | reflexivity]).
  assert (Hrun1 := validate_new_binding_run e1 b1 w1 k sid1 l Hh1 Hk1 Hne
                     Hs1 Hsne1 Hfind1 eq_refl eq_refl).
  rewrite Hrun1.
  2:{ apply existsb_all_false. apply Hnone. }
  2:{ unfold bindings_of. cbn [w1 db license_servers].
      rewrite (filter_all_false _ _ Hunbound). reflexivity. }
  cbn [fst snd]. split.
  { eexists. split; [reflexivity|]. conjs; reflexivity. }
  match goal with
  | |- context [validate e2 b2 ?x] => set (w2 := x)
  end.
  set (l2 := License.set_last_check
               (Some (CURRENT_TIMESTAMP (pool e1) (issued w1 + 4))) l).
  assert (Hfind2 : find (has_key (Some k)) (licenses (db w2)) = Some l2).
  { cbn [w2 db licenses]. rewrite find_update by reflexivity.
    now rewrite Hfind1. }
  assert (Hcount : Z.of_nat (length (filter (bound_to (Some k))
                                       (license_servers (db w2)))) = 1).
  { cbn [w2 db license_servers]. rewrite bindings_app.
    cbn [w1 db license_servers]. rewrite (filter_all_false _ _ Hunbound).
    unfold bound_to, new_binding; cbn [Server.license_key]. rewrite Hk1.
    unfold sql_eq. now rewrite String.eqb_refl. }
  assert (Hbound : forall sid,
    existsb (is_binding (Some k) (Some sid)) (license_servers (db w2))
    = String.eqb sid1 sid).
  { intros sid. cbn [w2 db license_servers]. rewrite existsb_app.
    cbn [w1 db license_servers].
    rewrite (existsb_all_false _ _ (Hnone sid)). cbn [existsb orb].
    unfold is_binding, new_binding;
      cbn [Server.license_key Server.server_id].
    rewrite Hk1. unfold sql_eq. rewrite String.eqb_refl, orb_false_r.
    reflexivity. }
  split.
  - destruct (validate_admission e2 b2 w2 k sid2 l2 Hh2 Hk2 Hne Hs2 Hsne2
                Hfind2 eq_refl eq_refl) as (w3 & Hrun2 & _).
    rewrite Hrun2, Hbound, Hcount. cbn [fst].
    destruct (String.eqb_spec sid1 sid2) as [Heq|_];
      [symmetry in Heq; contradiction | reflexivity].
  - destruct (validate_admission e2 b1 w2 k sid1 l2 Hh2 Hk1 Hne Hs1 Hsne1
                Hfind2 eq_refl eq_refl) as (w3 & Hrun3 & _).
    rewrite Hrun3, Hbound, String.eqb_refl. cbn [fst negb andb].
    eexists. split; reflexivity.
Qed.

Lemma created_license_admits_one_server_witness :
  let e := Scenario.server None in
  let w1 := snd (create e
                   (Scenario.admin None (Scenario.creating "ABC123" None))
                   Scenario.empty) in
  let w2 := snd (validate e (Scenario.from_server "S1") w1) in
  fst (validate e (Scenario.from_server "S2") w2) = Ok capacity_exceeded.
Proof.
  intros e w1 w2.
  apply (created_license_admits_one_server e e e
           (Scenario.admin None (Scenario.creating "ABC123" None))
           (Scenario.from_server "S1") (Scenario.from_server "S2")
           Scenario.empty "ABC123" "alice" "S1" "S2").
  - reflexivity.
  - intros n. reflexivity.
  - intros n. reflexivity.
  - intros n. reflexivity.
  - reflexivity.
  - discriminate.
  - reflexivity.
  - reflexivity.
  - reflexivity.
  - intros [].
  - intros s k' [].
  - reflexivity.
  - reflexivity.
  - discriminate.
  - reflexivity.
  - reflexivity.
  - discriminate.
  - discriminate.
Defined.

Lemma insert_desc_generic (l : License.row) (sorted : list License.row) :
  insert_desc l sorted = insert_desc_by License.created_at l sorted.
Proof.
  induction sorted as [|x rest IH]; [reflexivity|]. cbn [insert_desc
    insert_desc_by].
  change (newer_or_equal x l)
    with (not_older (License.created_at x) (License.created_at l)).
  now rewrite IH.
Qed.

Lemma order_by_created_at_desc_generic (ls : list License.row) :
  order_by_created_at_desc ls = order_desc License.created_at ls.
Proof.
  unfold order_by_created_at_desc, order_desc. generalize (@nil License.row).
  induction ls as [|l ls IH]; intros acc; [reflexivity|]. cbn [fold_left].
  now rewrite insert_desc_generic, IH.
Qed.

Lemma nodup_length_le (l : list string) :
  (length (nodup string_dec l) <= length l)%nat.
Proof.
  induction l as [|x l IH]; [reflexivity|]. cbn [nodup].
  destruct (in_dec string_dec x l); cbn [length]; lia.
Qed.

Lemma filter_and_length_le {A} (f g : A -> bool) (l : list A) :
  (length (filter (fun x => f x && g x) l) <= length (filter f l))%nat.
Proof.
  induction l as [|x l IH]; [reflexivity|]. cbn [filter].
  destruct (f x), (g x); cbn [andb length]; lia.
Qed.

(** X19: an authorized [GET /api/admin/licenses] sends one query and never
    changes the database.  If the storage rejects the query the answer is
    500; otherwise it is 200 with one row per license, the rows being a
    rearrangement of the table in which no license comes before one
    created later, each row carrying all columns of the license, its id
    included.  The [active_servers] count of a license is the number of
    distinct server ids among the bindings of its key that were seen within
    the last hour of the database clock; so it is never more than the
    number of its bindings, and it is 0 when none was seen that recently. *)
Theorem admin_licenses_listing (e : env) (r : Req.t) (w : world database) :
  Req.x_admin_key r = ADMIN_KEY e ->
  let now := CURRENT_TIMESTAMP (pool e) (issued w) in
  exists res w',
    admin_licenses e r w = (Ok res, w')
    /\ db w' = db w /\ issued w' = S (issued w)
    /\ (fault (pool e) (issued w) <> None -> res = server_error)
    /\ (fault (pool e) (issued w) = None ->
        exists rows,
          res = json 200 [("licenses",
                           JArr (map (listed_row now (db w)) rows))]
          /\ Permutation rows (licenses (db w))
          /\ StronglySorted
               (fun a b => not_older (License.created_at a)
                             (License.created_at b) = true) rows)
    /\ (forall l,
          0 <= active_servers now (db w) l
               <= bindings_of (License.license_key l) (db w))
    /\ (forall l,
          (forall s, In s (license_servers (db w)) ->
             Server.license_key s = Some (License.license_key l) ->
             forall t, Server.last_seen s = Some t -> t <= now - 3600000) ->
          active_servers now (db w) l = 0)
    /\ (forall l,
          exists ids : list string,
            NoDup ids
            /\ (forall sid,
                  In sid ids <->
                  exists s t,
                    In s (license_servers (db w))
                    /\ Server.license_key s = Some (License.license_key l)
                    /\ Server.server_id s = sid
                    /\ Server.last_seen s = Some t
                    /\ now - 3600000 < t)
            /\ active_servers now (db w) l = Z.of_nat (length ids))
    /\ (forall l,
          field "id" {| status_code := 200; body := listed_row now (db w) l |}
          = Some (JNum (License.id l))
          /\ field "license_key"
               {| status_code := 200; body := listed_row now (db w) l |}
             = Some (JStr (License.license_key l))).
Proof.
  intros Hauth now. unfold admin_licenses. cbv zeta.
  unfold strict_ne. rewrite (proj2 (strict_eq_iff _ _) Hauth). cbn [negb].
  unfold try_catch, bind, pool_query, SELECT_licenses_with_servers, ret.
  assert (Hcount : forall l,
            0 <= active_servers now (db w) l
                 <= bindings_of (License.license_key l) (db w)).
  { intros l. unfold active_servers, bindings_of. split; [lia|].
    apply Nat2Z.inj_le.
    etransitivity; [apply nodup_length_le|]. rewrite length_map.
    apply filter_and_length_le. }
  assert (Hstale : forall l,
            (forall s, In s (license_servers (db w)) ->
               Server.license_key s = Some (License.license_key l) ->
               forall t, Server.last_seen s = Some t -> t <= now - 3600000) ->
            active_servers now (db w) l = 0).
  { intros l Hold. unfold active_servers.
    rewrite filter_all_false; [reflexivity|].
    intros s Hin. apply andb_false_iff.
    destruct (bound_to (Some (License.license_key l)) s) eqn:Hb;
      [right | now left].
    unfold bound_to, sql_eq in Hb.
    destruct (Server.license_key s) as [ks|] eqn:Hks; [|discriminate].
    apply String.eqb_eq in Hb. subst ks.
    unfold seen_within_hour.
    destruct (Server.last_seen s) as [t|] eqn:Ht; [|reflexivity].
    specialize (Hold s Hin Hks t Ht). rewrite Z.gtb_ltb.
    apply Z.ltb_ge. exact Hold. }
  assert (Hdistinct : forall l,
            exists ids : list string,
              NoDup ids
              /\ (forall sid,
                    In sid ids <->
                    exists s t,
                      In s (license_servers (db w))
                      /\ Server.license_key s = Some (License.license_key l)
                      /\ Server.server_id s = sid
                      /\ Server.last_seen s = Some t
                      /\ now - 3600000 < t)
              /\ active_servers now (db w) l = Z.of_nat (length ids)).
  { intros l. eexists. split; [apply NoDup_nodup|]. split; [|reflexivity].
    intros sid. rewrite nodup_In, in_map_iff. split.
    - intros (s & Hs & Hin). apply filter_In in Hin as (Hin & Hb).
      apply andb_true_iff in Hb as (Hb & Hseen).
      unfold bound_to, sql_eq in Hb.
      destruct (Server.license_key s) as [ks|] eqn:Hks; [|discriminate].
      apply String.eqb_eq in Hb. subst ks.
      unfold seen_within_hour in Hseen.
      destruct (Server.last_seen s) as [t|] eqn:Ht; [|discriminate].
      rewrite Z.gtb_ltb in Hseen. apply Z.ltb_lt in Hseen.
      exists s, t. now conjs.
    - intros (s & t & Hin & Hks & Hs & Ht & Hlt). exists s.
      split; [exact Hs|]. apply filter_In. split; [exact Hin|].
      unfold bound_to, sql_eq, seen_within_hour. rewrite Hks, Ht.
      rewrite String.eqb_refl, Z.gtb_ltb. cbn [andb].
      now apply Z.ltb_lt. }
  assert (Hcols : forall l,
            field "id"
              {| status_code := 200; body := listed_row now (db w) l |}
            = Some (JNum (License.id l))
            /\ field "license_key"
                 {| status_code := 200; body := listed_row now (db w) l |}
               = Some (JStr (License.license_key l)))
    by (intros l; split; reflexivity).
  destruct (fault (pool e) (issued w)) eqn:Hf.
  - eexists; eexists. split; [reflexivity|]. cbn [db issued].
    conjs; auto. discriminate.
  - eexists; eexists. split; [reflexivity|]. cbn [db issued].
    conjs; auto; [congruence|]. intros _.
    destruct (order_desc_spec License.created_at (licenses (db w)))
      as (Hp & Hs).
    exists (order_desc License.created_at (licenses (db w))).
    rewrite order_by_created_at_desc_generic. now conjs.
Qed.

Lemma admin_licenses_listing_witness :
  exists res w',
    admin_licenses (Scenario.server (Some "secret"))
      (Scenario.admin (Some "secret") (Scenario.disabling None None))
      (Scenario.store None) = (Ok res, w')
    /\ db w' = db (Scenario.store None)
    /\ active_servers 1000 (db (Scenario.store None)) (Scenario.abc123 None)
       <= 2.
Proof.
  destruct (admin_licenses_listing (Scenario.server (Some "secret"))
              (Scenario.admin (Some "secret") (Scenario.disabling None None))
              (Scenario.store None))
    as (res & w' & Hrun & Hdb & _ & _ & _ & Hcount & _).
  - reflexivity.
  - exists res, w'. conjs; [exact Hrun | exact Hdb |].
    exact (proj2 (Hcount (Scenario.abc123 None))).
Defined.

(** X20: [logAction] never throws and never stands in the way: whatever the
    storage does it returns normally after sending exactly one statement,
    leaves licenses and bindings alone, and either appends the one entry
    (key, action, details, database clock) or, when the storage rejects the
    insert, leaves the log as it was. *)
Theorem logAction_never_fails
    (e : env) (key : option string) (action details : string)
    (w : world database) :
  exists w',
    logAction e key action details w = (Ok tt, w')
    /\ issued w' = S (issued w)
    /\ licenses (db w') = licenses (db w)
    /\ license_servers (db w') = license_servers (db w)
    /\ (fault (pool e) (issued w) <> None ->
        license_logs (db w') = license_logs (db w))
    /\ (fault (pool e) (issued w) = None ->
        license_logs (db w')
        = (license_logs (db w) ++
             [{| Log.license_key := key; Log.action := Some action;
                 Log.details := Some details;
                 Log.timestamp :=
                   Some (CURRENT_TIMESTAMP (pool e) (issued w)) |}])%list).
Proof.
  rewrite logAction_run. eexists. split; [reflexivity|]. cbn [db issued].
  destruct (fault (pool e) (issued w));
    cbn [licenses license_servers license_logs];
    conjs; try reflexivity; try congruence; try discriminate.
Qed.

End ExtendedMore.
